(** * Flood Element: the test-execution engine and the iteration looper

    A shallow embedding of
    - [Looper] and [Runner.runTestScript] of
      [packages/element/src/Runner.ts],
    - [Test] of the core runtime: [runWithCancellation], [runStep],
      [runHookFn], the two summary passes and the error classifier
      [liftToStructuredError], and
    - [testLifecycle] of the [VerboseReporter],
    with the properties of them that the specification states, and further
    properties read off the code.

    Conventions.
    - Numbers the engine counts with or compares (loop counts, repeat
      counters, tries, delays) are integers [Z].
    - Objects that are spread or assigned by key (settings, a test-data
      record) are finite maps from property names to values; the values are
      atoms, so a copy of such an object shares nothing with the original.
    - An [async] method is read along its awaits: it takes the state of the
      engine to a completion, normal or abrupt, and a new state.  Every
      awaited promise settles; of two raced promises one does.
    - User functions (step bodies, hooks, recovery steps, predicates) are
      functions of the browser they are given.
    - The collaborators of the engine (driver, interceptor, observer chain,
      debug channel) do not throw; the calls made to them are kept, in
      order, in a list of events. *)

From stdpp Require Import gmap strings list pretty.

#[local] Set Warnings "-register-all".


Local Open Scope Z_scope.

(** ** JavaScript values, plain objects and errors *)

Inductive JsValue :=
| VUndefined
| VBool (b : bool)
| VNum (n : Z)
| VStr (s : string).

(** Truthiness, as [if (x)] tests it. *)
Definition truthy (v : JsValue) : bool :=
  match v with
  | VUndefined => false
  | VBool b => b
  | VNum n => negb (n =? 0)
  | VStr s => negb (String.eqb s "")
  end.

Abbreviation JsObject := (gmap string JsValue).

(** [o.k]: a missing property reads as [undefined]. *)
Definition prop_get (o : JsObject) (k : string) : JsValue :=
  default VUndefined (o !! k).

(** [{...a, ...b}]: the properties of [b] win. *)
Definition spread (a b : JsObject) : JsObject := b ∪ a.

Module JsError.

(** The [_kind] tag of the data a [StructuredError] carries. *)
Inductive ErrorKind :=
| assertion
| empty
| domain (tag : string).

(** A raised failure.  [Bare] is an [Error] without the [_structured]
    marker; [Structured] carries the marker, its data, the originating phase
    given to [wrapBareError] and the error it was built from. *)
Inductive t :=
| Bare (name message : string)
| Structured (name message : string) (kind : ErrorKind)
             (source : option string) (originalError : option t).

Definition name (e : t) : string :=
  match e with Bare n _ => n | Structured n _ _ _ _ => n end.

Definition message (e : t) : string :=
  match e with Bare _ m => m | Structured _ m _ _ _ => m end.

(** [error._structured === 'yes'] *)
Definition _structured (e : t) : bool :=
  match e with Bare _ _ => false | Structured _ _ _ _ _ => true end.

Definition kind (e : t) : option ErrorKind :=
  match e with Bare _ _ => None | Structured _ _ k _ _ => Some k end.

Definition source (e : t) : option string :=
  match e with Bare _ _ => None | Structured _ _ _ s _ => s end.

Definition originalError (e : t) : option t :=
  match e with Bare _ _ => None | Structured _ _ _ _ o => o end.

(** [new Error(msg)] and [Error()]. *)
Definition Error (msg : string) : t := Bare "Error" msg.

(** [String(err)] for an error object: [Error.prototype.toString]. *)
Definition toString (e : t) : string :=
  if String.eqb (message e) "" then name e
  else if String.eqb (name e) "" then message e
  else name e +:+ ": " +:+ message e.

(** Modelled from the spec: [utils/StructuredError] is not part of the
    fragment.  A StructuredError is [{message, kind-tag, originalError,
    stackCopy}]; it is an [Error] subclass, so a new one is named "Error";
    [copyStackFromOriginalError] returns the receiver. *)
Definition new (msg : string) (k : ErrorKind) (orig : t) : t :=
  Structured "Error" msg k None (Some orig).

(** Modelled from the spec: [StructuredError.wrapBareError(err, data,
    source)] wraps the bare failure with an originating-phase tag. *)
Definition wrapBareError (err : t) (k : ErrorKind) (src : string) : t :=
  Structured "Error" (message err) k (Some src) (Some err).

End JsError.

(** [Test.liftToStructuredError] *)
Definition liftToStructuredError (error : JsError.t) : JsError.t :=
  if String.prefix "AssertionError" (JsError.name error) then
    JsError.new (JsError.message error) JsError.assertion error
  else if JsError._structured error then
    error
  else
    JsError.wrapBareError error JsError.empty "test".

(** ** The Looper of [Runner.ts] *)

Module Looper.

(** The two settings the Looper reads. *)
Record ConcreteTestSettings := {
  duration : Z;
  loopCount_setting : Z
}.

(** [timeout] is the armed duration timer, if any (its delay in ms). *)
Record t := {
  iterations : Z;
  timeout : option Z;
  cancelled : bool;
  loopCount : Z
}.

(** [new Looper(settings, running = true)] *)
Definition new (settings : ConcreteTestSettings) (running : bool) : t :=
  {| iterations := 0;
     timeout := if 0 <? duration settings
                then Some (duration settings * 1000) else None;
     cancelled := negb running;
     loopCount := loopCount_setting settings |}.

Definition stop (l : t) : t :=
  {| iterations := iterations l; timeout := timeout l;
     cancelled := true; loopCount := loopCount l |}.

(** The callback of the duration timer; it only exists while the timer is
    armed. *)
Definition timer_fires (l : t) : t :=
  match timeout l with
  | Some _ => {| iterations := iterations l; timeout := None;
                 cancelled := true; loopCount := loopCount l |}
  | None => l
  end.

(** [clearTimeout(this.timeout)] *)
Definition finish (l : t) : t :=
  {| iterations := iterations l; timeout := None;
     cancelled := cancelled l; loopCount := loopCount l |}.

Definition continueLoop (l : t) : bool :=
  let hasInfiniteLoops := loopCount l <=? 0 in
  let hasLoopsLeft := iterations l <? loopCount l in
  negb (cancelled l) && (hasLoopsLeft || hasInfiniteLoops).

(** [++this.iterations] *)
Definition incr (l : t) : t :=
  {| iterations := iterations l + 1; timeout := timeout l;
     cancelled := cancelled l; loopCount := loopCount l |}.

(** What reaches the Looper from outside while it awaits one iteration:
    a call of [stop()], the duration timer going off. *)
Record Interrupts := {
  stopCalled : bool;
  timerFired : bool
}.

Definition interrupt (i : Interrupts) (l : t) : t :=
  let l1 := if stopCalled i then stop l else l in
  if timerFired i then timer_fires l1 else l1.

Section Run.

(** [W] is whatever the iterations act on. *)
Context {W : Type}.

(** One awaited call [iterator(n)]: it fulfils or rejects, and leaves the
    world as [world]. *)
Record Settled := {
  rejected : option JsError.t;
  interrupts : Interrupts;
  world : W
}.

Definition Iterator := Z → W → Settled.

(** How [run] ends.  [Running] is a loop that has not ended within the
    number of iterations looked at.  [calls] lists the arguments the
    iterator was invoked with, in order. *)
Inductive Result :=
| Returns (n : Z) (l : t) (w : W) (calls : list Z)
| Rejects (e : JsError.t) (l : t) (w : W) (calls : list Z)
| Running (l : t) (w : W) (calls : list Z).

(** [while (this.continueLoop) { await iterator(++this.iterations) }], then
    [this.finish()] and [return this.iterations].  A rejected [await] leaves
    the loop and [run] with it. *)
Fixpoint run_loop (fuel : nat) (iterator : Iterator) (l : t) (w : W)
         (calls : list Z) : Result :=
  if continueLoop l then
    match fuel with
    | O => Running l w calls
    | S fuel' =>
        let l1 := incr l in
        let r := iterator (iterations l1) w in
        let calls1 := calls ++ [iterations l1] in
        match rejected r with
        | Some e => Rejects e (interrupt (interrupts r) l1) (world r) calls1
        | None =>
            run_loop fuel' iterator (interrupt (interrupts r) l1)
                     (world r) calls1
        end
    end
  else Returns (iterations l) (finish l) w calls.

(** [Looper.run] *)
Definition run (fuel : nat) (iterator : Iterator) (l : t) (w : W) : Result :=
  run_loop fuel iterator l w [].

(** The world after the first [k] iterations of an iterator that keeps
    fulfilling, the first of them numbered [from + 1]. *)
Fixpoint world_after (iterator : Iterator) (k : nat) (from : Z) (w : W) : W :=
  match k with
  | O => w
  | S k' => world_after iterator k' (from + 1) (world (iterator (from + 1) w))
  end.

End Run.

Arguments Settled : clear implicits.
Arguments Iterator : clear implicits.
Arguments Result : clear implicits.

End Looper.

(** ** Steps, hooks and the browser *)

Inductive StepResult := PASSED | FAILED | SKIPPED | UNEXECUTED.

Record SummaryStep := {
  stepName : string;
  result : StepResult
}.

(** How an awaited user function settles. *)
Inductive Settle :=
| Resolves
| Rejects (e : JsError.t).

(** A user function that is awaited in a race with a second promise (a step
    body against the cancellation signal, a hook against its timer) may also
    still be pending when the second promise settles. *)
Inductive Raced :=
| Settles (how : Settle)
| Pends.

Module Browser.

(** The execution target as the engine sees it: the settings object, the
    "current step" slot and the state of the driven page, kept as the list of
    the commands performed on it. *)
Record t := {
  settings : JsObject;
  customContext : option string;
  page : list string
}.

Definition set_settings (v : JsObject) (b : t) : t :=
  {| settings := v; customContext := customContext b; page := page b |}.

Definition set_customContext (v : option string) (b : t) : t :=
  {| settings := settings b; customContext := v; page := page b |}.

End Browser.

Module Step.

Record RepeatDescriptor := {
  count : Z;
  iteration : Z
}.

(** The scratch record [step.prop]. *)
Record StepProp := {
  executed : option bool;
  recoveryTries : option Z
}.

(** [step.options].  The gating options are typed fields; [overrides] holds
    the other properties, the per-step settings.  Where the engine spreads
    [step.options] over the settings, the model spreads [overrides]: the
    gating keys that JavaScript copies along are read by nothing in the
    engine. *)
Record Options := {
  skip : bool;
  pending : bool;
  once : bool;
  predicate : option (Browser.t → bool);
  condition : option (Browser.t → bool);
  repeat : option RepeatDescriptor;
  overrides : JsObject
}.

Record t := {
  name : string;
  fn : Browser.t → option JsObject → Raced * Browser.t;
  options : Options;
  prop : option StepProp
}.

Definition set_prop (v : option StepProp) (step : t) : t :=
  {| name := name step; fn := fn step; options := options step; prop := v |}.

Definition set_repeat (v : option RepeatDescriptor) (step : t) : t :=
  {| name := name step; fn := fn step;
     options := {| skip := skip (options step);
                   pending := pending (options step);
                   once := once (options step);
                   predicate := predicate (options step);
                   condition := condition (options step);
                   repeat := v;
                   overrides := overrides (options step) |};
     prop := prop step |}.

(** [repeat.iteration = n] on the descriptor of the step. *)
Definition set_iteration (n : Z) (r : RepeatDescriptor) : RepeatDescriptor :=
  {| count := count r; iteration := n |}.

End Step.

(** A hook: a function bound to its wait timeout (seconds). *)
Record HookBase := {
  hook_fn : Browser.t → option JsObject → Raced * Browser.t;
  waitTimeout : Z
}.

Record Hook := {
  beforeAll : list HookBase;
  afterAll : list HookBase;
  beforeEach : list HookBase;
  afterEach : list HookBase
}.

(** A step of a recovery sequence; it is awaited on its own. *)
Record RecoveryStep := {
  recovery_fn : Browser.t → Settle * Browser.t
}.

(** What the engine keeps of the evaluated script besides settings, steps and
    test data. *)
Record Script := {
  hook : Hook;
  recoverySteps : gmap string (list RecoveryStep)
}.

(** Calls the engine makes to its collaborators (driver, interceptor,
    observer chain, debug channel, console), in the order they are made. *)
Inductive Event :=
| ReopenPage (incognito : JsValue)
| InterceptorAttach
| InterceptorDetach
| ClearBrowserCache
| ClearBrowserCookies
| EmulateDevice (device : JsValue)
| SetUserAgent (userAgent : JsValue)
| SetCacheDisabled (disabled : bool)
| SetExtraHTTPHeaders (headers : JsValue)
| ObserverBefore
| ObserverAfter
| BeforeStep (step : string)
| OnStepPassed (step : string)
| OnStepError (step : string) (err : JsError.t)
| AfterStep (step : string)
| CallRecovery (step : string) (tries : Z)
| Wait (ms : Z)
| ConsoleLog (msg : string)
| Debug (msg : string)
| DebugRecord (record : JsObject).

(** ** The state of one engine *)

Module TestState.

(** A [Test] with the objects it works on during an iteration. *)
Record t := {
  (* [this.settings] *)
  settings : JsObject;
  (* [this.steps], the array the StepIterator walks *)
  steps : list Step.t;
  (* hooks and recovery steps of [this.script] *)
  script : Script;
  (* [this.script.testData]: the records still to be fed *)
  testData : list JsObject;
  (* [this.failed] *)
  failed : bool;
  (* [this.summaryStep] *)
  summaryStep : list SummaryStep;
  (* [this.subTitle] *)
  subTitle : string;
  (* [this.runningBrowser] *)
  browser : Browser.t;
  (* the cursor of the StepIterator of the running iteration *)
  stepCount : nat;
  (* [cancelToken.isCancellationRequested] *)
  isCancellationRequested : bool;
  (* the local [testDataRecord] of the running iteration *)
  testDataRecord : option JsObject;
  (* the calls made to the collaborators, oldest first *)
  events : list Event
}.

Definition set_settings (v : JsObject) (s : t) : t :=
  {| settings := v;
     steps := steps s;
     script := script s;
     testData := testData s;
     failed := failed s;
     summaryStep := summaryStep s;
     subTitle := subTitle s;
     browser := browser s;
     stepCount := stepCount s;
     isCancellationRequested := isCancellationRequested s;
     testDataRecord := testDataRecord s;
     events := events s |}.

Definition set_steps (v : list Step.t) (s : t) : t :=
  {| settings := settings s;
     steps := v;
     script := script s;
     testData := testData s;
     failed := failed s;
     summaryStep := summaryStep s;
     subTitle := subTitle s;
     browser := browser s;
     stepCount := stepCount s;
     isCancellationRequested := isCancellationRequested s;
     testDataRecord := testDataRecord s;
     events := events s |}.

Definition set_script (v : Script) (s : t) : t :=
  {| settings := settings s;
     steps := steps s;
     script := v;
     testData := testData s;
     failed := failed s;
     summaryStep := summaryStep s;
     subTitle := subTitle s;
     browser := browser s;
     stepCount := stepCount s;
     isCancellationRequested := isCancellationRequested s;
     testDataRecord := testDataRecord s;
     events := events s |}.

Definition set_testData (v : list JsObject) (s : t) : t :=
  {| settings := settings s;
     steps := steps s;
     script := script s;
     testData := v;
     failed := failed s;
     summaryStep := summaryStep s;
     subTitle := subTitle s;
     browser := browser s;
     stepCount := stepCount s;
     isCancellationRequested := isCancellationRequested s;
     testDataRecord := testDataRecord s;
     events := events s |}.

Definition set_failed (v : bool) (s : t) : t :=
  {| settings := settings s;
     steps := steps s;
     script := script s;
     testData := testData s;
     failed := v;
     summaryStep := summaryStep s;
     subTitle := subTitle s;
     browser := browser s;
     stepCount := stepCount s;
     isCancellationRequested := isCancellationRequested s;
     testDataRecord := testDataRecord s;
     events := events s |}.

Definition set_summaryStep (v : list SummaryStep) (s : t) : t :=
  {| settings := settings s;
     steps := steps s;
     script := script s;
     testData := testData s;
     failed := failed s;
     summaryStep := v;
     subTitle := subTitle s;
     browser := browser s;
     stepCount := stepCount s;
     isCancellationRequested := isCancellationRequested s;
     testDataRecord := testDataRecord s;
     events := events s |}.

Definition set_subTitle (v : string) (s : t) : t :=
  {| settings := settings s;
     steps := steps s;
     script := script s;
     testData := testData s;
     failed := failed s;
     summaryStep := summaryStep s;
     subTitle := v;
     browser := browser s;
     stepCount := stepCount s;
     isCancellationRequested := isCancellationRequested s;
     testDataRecord := testDataRecord s;
     events := events s |}.

Definition set_browser (v : Browser.t) (s : t) : t :=
  {| settings := settings s;
     steps := steps s;
     script := script s;
     testData := testData s;
     failed := failed s;
     summaryStep := summaryStep s;
     subTitle := subTitle s;
     browser := v;
     stepCount := stepCount s;
     isCancellationRequested := isCancellationRequested s;
     testDataRecord := testDataRecord s;
     events := events s |}.

Definition set_stepCount (v : nat) (s : t) : t :=
  {| settings := settings s;
     steps := steps s;
     script := script s;
     testData := testData s;
     failed := failed s;
     summaryStep := summaryStep s;
     subTitle := subTitle s;
     browser := browser s;
     stepCount := v;
     isCancellationRequested := isCancellationRequested s;
     testDataRecord := testDataRecord s;
     events := events s |}.

Definition set_isCancellationRequested (v : bool) (s : t) : t :=
  {| settings := settings s;
     steps := steps s;
     script := script s;
     testData := testData s;
     failed := failed s;
     summaryStep := summaryStep s;
     subTitle := subTitle s;
     browser := browser s;
     stepCount := stepCount s;
     isCancellationRequested := v;
     testDataRecord := testDataRecord s;
     events := events s |}.

Definition set_testDataRecord (v : option JsObject) (s : t) : t :=
  {| settings := settings s;
     steps := steps s;
     script := script s;
     testData := testData s;
     failed := failed s;
     summaryStep := summaryStep s;
     subTitle := subTitle s;
     browser := browser s;
     stepCount := stepCount s;
     isCancellationRequested := isCancellationRequested s;
     testDataRecord := v;
     events := events s |}.

Definition set_events (v : list Event) (s : t) : t :=
  {| settings := settings s;
     steps := steps s;
     script := script s;
     testData := testData s;
     failed := failed s;
     summaryStep := summaryStep s;
     subTitle := subTitle s;
     browser := browser s;
     stepCount := stepCount s;
     isCancellationRequested := isCancellationRequested s;
     testDataRecord := testDataRecord s;
     events := v |}.

End TestState.

(** ** The engine monad: state with exceptions

    An [async] method of the engine, read along its awaits, takes the state
    to a completion, normal or abrupt, and a new state.  The state reached
    survives a throw, which is what [catch] and [finally] blocks see. *)

Inductive Completion (A : Type) :=
| Normal (a : A)
| Throw (e : JsError.t).

Arguments Normal {A} a.
Arguments Throw {A} e.

Definition Eng (A : Type) : Type :=
  TestState.t → Completion A * TestState.t.

#[export] Instance eng_ret : MRet Eng := λ A a s, (Normal a, s).

#[export] Instance eng_bind : MBind Eng := λ A B f m s,
  match m s with
  | (Normal a, s1) => f a s1
  | (Throw e, s1) => (Throw e, s1)
  end.

Definition throw {A} (e : JsError.t) : Eng A := λ s, (Throw e, s).

Definition get : Eng TestState.t := λ s, (Normal s, s).

Definition modify (f : TestState.t → TestState.t) : Eng unit :=
  λ s, (Normal tt, f s).

(** [try { body } catch (err) { handler err }] *)
Definition try_catch {A} (body : Eng A) (handler : JsError.t → Eng A) : Eng A :=
  λ s,
    match body s with
    | (Normal a, s1) => (Normal a, s1)
    | (Throw e, s1) => handler e s1
    end.

(** [try { body } finally { cleanup }]: the cleanup runs on the state the
    body left, however the body completed; a throw of the cleanup replaces
    the completion of the body. *)
Definition try_finally {A} (body : Eng A) (cleanup : Eng unit) : Eng A :=
  λ s,
    match body s with
    | (r, s1) =>
        match cleanup s1 with
        | (Normal _, s2) => (r, s2)
        | (Throw e, s2) => (Throw e, s2)
        end
    end.

Definition log (e : Event) : Eng unit :=
  modify (λ s, TestState.set_events (TestState.events s ++ [e]) s).

(** [this.summaryStep.push(row)] *)
Definition push (row : SummaryStep) : Eng unit :=
  modify (λ s, TestState.set_summaryStep (TestState.summaryStep s ++ [row]) s).

(** ** The StepIterator *)

Module StepIterator.

(** Modelled from the spec: [runtime/StepIterator] is not part of the
    fragment.  [run(executor)] "sequentially pass[es] each step to executor;
    traversal order is the script's declared order".  The cursor [stepCount]
    moves past a step when the step is handed to the executor, so the steps
    "not reached" are those from the cursor on. *)
Fixpoint run_loop (n : nat) (executor : nat → Step.t → Eng unit) : Eng unit :=
  match n with
  | O => mret tt
  | S n' =>
      s ← get;
      match TestState.steps s !! TestState.stepCount s with
      | None => mret tt
      | Some step =>
          modify (TestState.set_stepCount (S (TestState.stepCount s)));;
          executor (TestState.stepCount s) step;;
          run_loop n' executor
      end
  end.

(** Modelled from the spec: [run(executor)], the traversal of all the steps
    from the cursor on. *)
Definition run (executor : nat → Step.t → Eng unit) : Eng unit :=
  s ← get;
  run_loop (length (TestState.steps s) - TestState.stepCount s)%nat executor.

(** Modelled from the spec: [callCondition(step, iterationNumber, target)]
    "evaluates the step's once/pending/skip/conditional predicate state" and
    "signals the caller to bypass the step body".  The summary row of a
    bypassed step is written by the caller, [Test.summarizeStepBeforeRun]. *)
Definition callCondition (step : Step.t) (iteration : Z) (browser : Browser.t)
  : bool :=
  let o := Step.options step in
  if Step.pending o || (Step.once o && (1 <? iteration)) || Step.skip o
  then false
  else match Step.condition o with
       | Some c => c browser
       | None => true
       end.

(** Modelled from the spec: [callPredicate(predicate, target)] "evaluates an
    optional runtime predicate against the execution target". *)
Definition callPredicate (predicate : Browser.t → bool) (browser : Browser.t)
  : bool :=
  predicate browser.

(** Modelled from the spec: one pass over "the recovery step sequence",
    which "completes without error" when every step of it resolved. *)
Fixpoint runRecoverySequence (seq : list RecoveryStep) (b : Browser.t)
  : bool * Browser.t :=
  match seq with
  | [] => (true, b)
  | r :: rest =>
      match recovery_fn r b with
      | (Resolves, b1) => runRecoverySequence rest b1
      | (Rejects _, b1) => (false, b1)
      end
  end.

(** Modelled from the spec: "each attempt increments
    step.prop.recoveryTries". *)
Definition bumpRecoveryTries (step : Step.t) : Step.t :=
  let old := match Step.prop step with
             | Some p => p
             | None => {| Step.executed := None; Step.recoveryTries := None |}
             end in
  Step.set_prop
    (Some {| Step.executed := Step.executed old;
             Step.recoveryTries :=
               Some (default 0 (Step.recoveryTries old) + 1) |})
    step.

(** Modelled from the spec: the recovery sequence is executed "up to a
    bounded number of tries"; the first pass that completes ends the
    attempts with [true], tries that are used up end them with [false]. *)
Fixpoint recoveryAttempts (tries : nat) (i : nat) (seq : list RecoveryStep)
  : Eng bool :=
  match tries with
  | O => mret false
  | S tries' =>
      modify (λ s, TestState.set_steps
                     (alter bumpRecoveryTries i (TestState.steps s)) s);;
      s ← get;
      let '(ok, b1) := runRecoverySequence seq (TestState.browser s) in
      modify (TestState.set_browser b1);;
      if ok then mret true else recoveryAttempts tries' i seq
  end.

(** Modelled from the spec: [callRecovery(step, looper, target, recoveryMap,
    triesOverride)] "looks up the recovery sequence keyed by the failing
    step's identity; if none registered, recovery fails immediately.
    Otherwise executes the recovery step sequence up to a bounded number of
    tries (each attempt increments step.prop.recoveryTries); returns true
    only if the sequence completes without error; returns false if tries are
    exhausted".  The spec does not fix the bound: [limit] gives it from the
    tries override.  The call itself is put on record with the override it
    received. *)
Definition callRecovery (limit : Z → nat) (i : nat) (step : Step.t)
           (tries : Z) : Eng bool :=
  log (CallRecovery (Step.name step) tries);;
  s ← get;
  match recoverySteps (TestState.script s) !! Step.name step with
  | None => mret false
  | Some seq => recoveryAttempts (limit tries) i seq
  end.

(** Modelled from the spec: the visit of [n] steps from index [i] on, in
    declared order. *)
Fixpoint visit_from (n i : nat) (visit : nat → Step.t → Eng unit) : Eng unit :=
  match n with
  | O => mret tt
  | S n' =>
      s ← get;
      match TestState.steps s !! i with
      | None => mret tt
      | Some step => visit i step;; visit_from n' (S i) visit
      end
  end.

(** Modelled from the spec: [loopUnexecutedSteps(visit)] is "called once per
    iteration, after traversal halts" and visits "every step not reached",
    in declared order. *)
Definition loopUnexecutedSteps (visit : nat → Step.t → Eng unit) : Eng unit :=
  s ← get;
  visit_from (length (TestState.steps s) - TestState.stepCount s)%nat
             (TestState.stepCount s) visit.

End StepIterator.

(** ** The Test engine *)

Module Test.

Import TestState.

Definition row (step : Step.t) (r : StepResult) : SummaryStep :=
  {| stepName := Step.name step; result := r |}.

Definition summarizeStepBeforeRun (step : Step.t) (iteration : Z) : Eng unit :=
  let o := Step.options step in
  if Step.pending o || (Step.once o && (1 <? iteration)) then
    push (row step UNEXECUTED)
  else if Step.skip o then
    push (row step SKIPPED)
  else mret tt.

(** The [do ... while (repeat.iteration < repeat.count)] of
    [countRepeatStep].  The body runs once and then as long as the counter
    is below [count], which is at most [count - iteration] times more: the
    fuel the caller passes. *)
Fixpoint countRepeatLoop (fuel : nat) (name : string)
         (repeat : Step.RepeatDescriptor) (summary : list SummaryStep)
  : Step.RepeatDescriptor * list SummaryStep :=
  let repeat1 := Step.set_iteration (Step.iteration repeat + 1) repeat in
  let summary1 := summary ++ [{| stepName := name; result := UNEXECUTED |}] in
  if Step.iteration repeat1 <? Step.count repeat1 then
    match fuel with
    | O => (repeat1, summary1)
    | S fuel' => countRepeatLoop fuel' name repeat1 summary1
    end
  else (repeat1, summary1).

(** [countRepeatStep] of [summarizeStepAfterStopRunning]: the step after the
    call, the summary after the call and the boolean returned. *)
Definition countRepeatStep (step : Step.t) (summary : list SummaryStep)
  : bool * Step.t * list SummaryStep :=
  match Step.repeat (Step.options step) with
  | Some repeat =>
      let '(repeat1, summary1) :=
        if 0 <? Step.iteration repeat then
          countRepeatLoop
            (Z.to_nat (Step.count repeat - Step.iteration repeat))
            (Step.name step) repeat summary
        else (repeat, summary) in
      (true, Step.set_repeat (Some (Step.set_iteration 0 repeat1)) step,
       summary1)
  | None => (false, step, summary)
  end.

(** [summarizedUnexecutedStep], called on the step at index [i]. *)
Definition summarizedUnexecutedStep (i : nat) (step : Step.t) : Eng unit :=
  s ← get;
  let '(countRepeatStepDone, step1, summary1) :=
    countRepeatStep step (summaryStep s) in
  modify (λ s, set_summaryStep summary1 (set_steps (<[i := step1]> (steps s)) s));;
  if countRepeatStepDone then mret tt
  else push (row step UNEXECUTED).

Definition summarizeStepAfterStopRunning : Eng unit :=
  StepIterator.loopUnexecutedSteps summarizedUnexecutedStep.

Definition afterRunSteps : Eng unit :=
  log InterceptorDetach;;
  modify (set_subTitle "");;
  summarizeStepAfterStopRunning.

(** Modelled from the spec: [utils/numerical] is not part of the fragment;
    recovery tries and repetitions are "surfaced as an ordinal, e.g. 2nd
    recovery". *)
Definition getNumberWithOrdinal (n : Z) : string :=
  let v := n `mod` 100 in
  let suffix :=
    if (11 <=? v) && (v <=? 13) then "th"
    else if v `mod` 10 =? 1 then "st"
    else if v `mod` 10 =? 2 then "nd"
    else if v `mod` 10 =? 3 then "rd"
    else "th" in
  pretty n +:+ suffix.

Definition getStepSubtitle (step : Step.t) : string :=
  let recoveryTries :=
    match Step.prop step with
    | Some p => default 0 (Step.recoveryTries p)
    | None => 0
    end in
  let subTitle :=
    if recoveryTries =? 0 then ""
    else getNumberWithOrdinal recoveryTries +:+ " recovery" in
  match Step.repeat (Step.options step) with
  | Some repeat =>
      let tempTitle :=
        if (Step.count repeat <=? Step.iteration repeat)
           || (Step.iteration repeat =? 0)
        then getNumberWithOrdinal (Step.count repeat) +:+ " loop"
        else getNumberWithOrdinal (Step.iteration repeat) +:+ " loop" in
      if String.eqb subTitle "" then tempTitle
      else tempTitle +:+ " - " +:+ subTitle
  | None => subTitle
  end.

(** [this.skipping || this.settings.stepDelay <= 0] returns at once, and so
    does a step delay that is not a number; otherwise the engine waits. *)
Definition doStepDelay : Eng unit :=
  s ← get;
  match prop_get (settings s) "stepDelay" with
  | VNum stepDelay =>
      if failed s || (stepDelay <=? 0) then mret tt
      else log (Wait (stepDelay * 1000))
  | _ => mret tt
  end.

(** [runHookFn].  [doHookFnWithTimeout] races the hook against a timer
    that rejects with no value; whatever the race throws is rethrown as
    [new Error(error)]. *)
Fixpoint runHookFn (hooks : list HookBase) : Eng unit :=
  match hooks with
  | [] => mret tt
  | hook :: rest =>
      s ← get;
      let b0 :=
        Browser.set_settings
          (<["waitTimeout" := VNum (waitTimeout hook)]> (settings s))
          (browser s) in
      let '(r, b1) := hook_fn hook b0 (testDataRecord s) in
      modify (set_browser b1);;
      match r with
      | Settles Resolves => runHookFn rest
      | Settles (Rejects error) => throw (JsError.Error (JsError.toString error))
      | Pends => throw (JsError.Error "")
      end
  end.

(** [runStep], up to the call of the step body: the observer is told, the
    subtitle is set, the settings of the browser are saved and replaced.
    The saved [originalBrowserSettings] is returned. *)
Definition runStep_enter (i : nat) (step : Step.t) : Eng JsObject :=
  log (BeforeStep (Step.name step));;
  s ← get;
  modify (set_subTitle (getStepSubtitle (default step (steps s !! i))));;
  let originalBrowserSettings := Browser.settings (browser s) in
  log (Debug ("Run step: " +:+ Step.name step));;
  modify (set_browser
            (Browser.set_settings
               (spread (settings s) (Step.overrides (Step.options step)))
               (browser s)));;
  mret originalBrowserSettings.

(** The [step.prop] the [finally] block of [runStep] assigns:
    [executed] is true exactly for a repeat descriptor with [iteration]
    at 0. *)
Definition executedProp (step : Step.t) : Step.StepProp :=
  {| Step.executed :=
       Some match Step.repeat (Step.options step) with
            | Some repeat => Step.iteration repeat =? 0
            | None => false
            end;
     Step.recoveryTries := None |}.

(** The [errorMessage] of [runStep]. *)
Definition errorMessage (error : JsError.t) : string :=
  if String.eqb (JsError.message error) "" then "step error -> failed"
  else JsError.message error.

(** [runStep], from the moment the step body has settled: the [finally]
    block, then the branch on [error]. *)
Definition runStep_settled (i : nat) (step : Step.t)
           (originalBrowserSettings : JsObject) (how : Settle) : Eng unit :=
  modify (λ s, set_browser
                 (Browser.set_settings originalBrowserSettings (browser s)) s);;
  modify (λ s, set_steps
                 (alter (Step.set_prop (Some (executedProp step))) i (steps s))
                 s);;
  match how with
  | Rejects error =>
      log (Debug "step error");;
      modify (set_failed true);;
      log (OnStepError (Step.name step) (liftToStructuredError error));;
      log (ConsoleLog (errorMessage error));;
      push (row step FAILED);;
      log (AfterStep (Step.name step))
  | Resolves =>
      log (OnStepPassed (Step.name step));;
      push (row step PASSED);;
      log (AfterStep (Step.name step));;
      doStepDelay
  end;;
  log (Debug "step done").

(** [runStep].  The result tells whether the call has settled; [false] is a
    call whose step body is still pending. *)
Definition runStep (i : nat) (step : Step.t) : Eng bool :=
  originalBrowserSettings ← runStep_enter i step;
  s ← get;
  let '(r, b1) := Step.fn step (browser s) (testDataRecord s) in
  modify (set_browser b1);;
  match r with
  | Settles how =>
      runStep_settled i step originalBrowserSettings how;;
      mret true
  | Pends => mret false
  end.

(** [await Promise.race([this.runStep(...), cancelToken.promise])].  With the
    signal already resolved the race is lost at the first await of
    [runStep]; a step body that stays pending loses it when the signal
    resolves.  The abandoned call goes on by itself on the event loop: what
    it does from then on is not part of this reading of the engine, which
    follows the awaiting caller only. *)
Definition race_runStep (i : nat) (step : Step.t) : Eng unit :=
  s ← get;
  if isCancellationRequested s then
    log (BeforeStep (Step.name step))
  else
    settled ← runStep i step;
    if settled : bool then mret tt
    else modify (set_isCancellationRequested true).

Section Engine.

(** The bound [StepIterator.callRecovery] puts on the recovery tries. *)
Variable recoveryLimit : Z → nat.

(** The callback [runWithCancellation] hands to [stepIterator.run], from the
    statement after the awaited race on. *)
Definition afterRace (i : nat) (step : Step.t) : Eng unit :=
  s ← get;
  if isCancellationRequested s then mret tt
  else
    (if failed s then
       modify (λ s, set_settings (<["tries" := VNum 0]> (settings s)) s);;
       result ← StepIterator.callRecovery recoveryLimit i step 0;
       if result : bool then modify (set_failed false)
       else throw (JsError.Error "")
     else mret tt);;
    log (Debug "running hook function: afterEach");;
    s ← get;
    runHookFn (afterEach (hook (script s))).

(** The callback [runWithCancellation] hands to [stepIterator.run]. *)
Definition executor (iteration : Z) (i : nat) (step : Step.t) : Eng unit :=
  log (Debug "running hook function: beforeEach");;
  s ← get;
  runHookFn (beforeEach (hook (script s)));;
  s ← get;
  let condition := StepIterator.callCondition step iteration (browser s) in
  if negb condition then summarizeStepBeforeRun step iteration
  else
    let condition :=
      match Step.predicate (Step.options step) with
      | Some predicate => StepIterator.callPredicate predicate (browser s)
      | None => true
      end in
    if negb condition then log (Debug "condition failing")
    else
      modify (λ s, set_browser
                     (Browser.set_customContext (Some (Step.name step))
                                                (browser s)) s);;
      race_runStep i step;;
      afterRace i step.

(** The one-shot directives at the head of the [try] block. *)
Definition directives : Eng unit :=
  s ← get;
  let setting := prop_get (settings s) in
  (if truthy (setting "clearCache") then log ClearBrowserCache else mret tt);;
  (if truthy (setting "clearCookies") then log ClearBrowserCookies else mret tt);;
  (if truthy (setting "device") then log (EmulateDevice (setting "device"))
   else mret tt);;
  (if truthy (setting "userAgent") then log (SetUserAgent (setting "userAgent"))
   else mret tt);;
  (if truthy (setting "disableCache") then log (SetCacheDisabled true)
   else mret tt);;
  (if truthy (setting "extraHTTPHeaders")
   then log (SetExtraHTTPHeaders (setting "extraHTTPHeaders"))
   else mret tt).

(** [testDataRecord = testData.feed()]; [null] is the exhausted feed. *)
Definition feed : Eng unit :=
  s ← get;
  match testData s with
  | [] => throw (JsError.Error "Test data exhausted, consider making it circular?")
  | record :: rest =>
      modify (λ s, set_testDataRecord (Some record) (set_testData rest s));;
      log (DebugRecord record)
  end.

(** The [try] block of [runWithCancellation], up to the traversal of the
    steps. *)
Definition beforeSteps : Eng unit :=
  directives;;
  log (Debug "running this.before(browser)");;
  log ObserverBefore;;
  log (Debug "Feeding data");;
  feed;;
  log (Debug "running hook function: beforeAll");;
  s ← get;
  runHookFn (beforeAll (hook (script s)));;
  log (Debug "running steps").

(** The [try] block. *)
Definition tryBlock (iteration : Z) : Eng unit :=
  beforeSteps;;
  StepIterator.run (executor iteration).

(** The [catch] block. *)
Definition catchBlock (err : JsError.t) : Eng unit :=
  modify (set_failed true);;
  throw err.

(** The [finally] block. *)
Definition finallyBlock : Eng unit :=
  afterRunSteps;;
  log ObserverAfter;;
  log (Debug "running hook function: afterAll");;
  s ← get;
  runHookFn (afterAll (hook (script s))).

(** What [runWithCancellation] does before it enters the [try] block.  The
    cancellation token is the caller's: its state on entry is that of the
    field [isCancellationRequested].  A fresh StepIterator starts at the
    first step; a fresh Browser is given [this.settings]. *)
Definition setup : Eng unit :=
  s ← get;
  log (ReopenPage (prop_get (settings s) "incognito"));;
  log InterceptorAttach;;
  modify (set_failed false);;
  modify (set_subTitle "");;
  log (Debug "run() start");;
  modify (set_stepCount 0%nat);;
  modify (λ s, set_browser
                 {| Browser.settings := settings s;
                    Browser.customContext := None;
                    Browser.page := Browser.page (browser s) |} s);;
  modify (set_testDataRecord None).

Definition runWithCancellation (iteration : Z) : Eng unit :=
  setup;;
  try_finally (try_catch (tryBlock iteration) catchBlock) finallyBlock.

(** [run(iteration?)]: [iteration || 0], a fresh cancellation token. *)
Definition run (iteration : option Z) : Eng unit :=
  modify (set_isCancellationRequested false);;
  runWithCancellation (default 0 iteration).

End Engine.

End Test.

(** ** The Runner of [Runner.ts] *)

Module Runner.

(** What [runTestScript] reads of the settings [enqueueScript] returns. *)
Record Settings := {
  name : JsValue;
  description : JsValue;
  looperSettings : Looper.ConcreteTestSettings
}.

(** What the Runner writes to the console and to its logger, and its call
    of [test.cancel()], in the order they are made. *)
Inductive Entry :=
| Console (msg : string)
| LoadedTestPlan (name description : JsValue)
| TestTimeout (duration : Z)
| TestLoopCount (loopCount : Z)
| SettingsDump (settings : Settings)
| StartingIteration (iteration : Z)
| ErrorInRunnerLoop (iteration : Z) (err : JsError.t)
| IterationCompleted
| TestCompleted (iterations : Z)
| ScriptError (err : JsError.t)
| InternalError
| Stack (err : JsError.t)
| TestCancel.

(** How [runTestScript] ends; [Pending] is a call whose loop has not ended
    within the number of iterations looked at. *)
Inductive Outcome :=
| Returned
| Rejected (e : JsError.t)
| Pending.

Section Run.

(** [W] is what the test and the browser client act on. *)
Context {W : Type}.

(** An awaited call as the Runner sees it: how it settles, what reaches the
    Runner from outside in the meantime ([stop()] being called, the timer of
    the Looper going off), and what it leaves. *)
Record Awaited (A : Type) := {
  outcome : Completion A;
  interrupts : Looper.Interrupts;
  after : W
}.

Arguments outcome {A} _.
Arguments interrupts {A} _.
Arguments after {A} _.

(** The test as the Runner uses it. *)
Record Ops := {
  (* [new Test(await clientPromise, ...)] *)
  client : W → Awaited unit;
  (* [test.enqueueScript(testScript, this.testSettingOverrides)] *)
  enqueueScript : W → Completion Settings * W;
  (* [await test.beforeRun()] *)
  beforeRun : W → Awaited unit;
  (* [await test.run(iteration)] *)
  run : Z → W → Awaited unit;
  (* [await test.cancel()] *)
  cancel : W → Awaited unit;
  (* [err instanceof TestScriptError] *)
  isTestScriptError : JsError.t → bool
}.

(** [looper] is the field [this.looper]; while [Looper.run] is on its way,
    the object the field refers to is the Looper that [Looper.run_loop]
    threads. *)
Record t := {
  running : bool;
  looper : option Looper.t;
  entries : list Entry;
  world : W
}.

Definition set_world (w : W) (r : t) : t :=
  {| running := running r; looper := looper r; entries := entries r;
     world := w |}.

Definition set_looper (l : option Looper.t) (r : t) : t :=
  {| running := running r; looper := l; entries := entries r;
     world := world r |}.

Definition log (e : Entry) (r : t) : t :=
  {| running := running r; looper := looper r;
     entries := entries r ++ [e]; world := world r |}.

(** [stop()], up to its await: the flag, and the Looper if there is one. *)
Definition stop (r : t) : t :=
  {| running := false; looper := Looper.stop <$> looper r;
     entries := entries r; world := world r |}.

(** What reaches the Runner while it awaits outside of the loop. *)
Definition interrupted (i : Looper.Interrupts) (r : t) : t :=
  let r1 := if Looper.stopCalled i then stop r else r in
  if Looper.timerFired i
  then set_looper (Looper.timer_fires <$> looper r1) r1
  else r1.

(** What reaches the Runner while the loop awaits an iteration: the Looper
    itself is dealt with by [Looper.run_loop]. *)
Definition interrupted_in_loop (i : Looper.Interrupts) (r : t) : t :=
  if Looper.stopCalled i
  then {| running := false; looper := looper r; entries := entries r;
          world := world r |}
  else r.

Variable ops : Ops.

(** The callback [runTestScript] hands to [looper.run]. *)
Definition iterator : Looper.Iterator t :=
  λ iteration r,
    let r := log (StartingIteration iteration) r in
    let a := run ops iteration (world r) in
    let r := interrupted_in_loop (interrupts a) (set_world (after a) r) in
    match outcome a with
    | Throw err =>
        {| Looper.rejected := Some err;
           Looper.interrupts := interrupts a;
           Looper.world := log (ErrorInRunnerLoop iteration err) r |}
    | Normal _ =>
        {| Looper.rejected := None;
           Looper.interrupts := interrupts a;
           Looper.world := log IterationCompleted r |}
    end.

(** The [try] block of [runTestScript]. *)
Definition tryBlock (fuel : nat) (r : t) : Outcome * t :=
  match enqueueScript ops (world r) with
  | (Throw err, w) => (Rejected err, set_world w r)
  | (Normal settings, w) =>
      let r := set_world w r in
      let r := if truthy (name settings)
               then log (LoadedTestPlan (name settings) (description settings)) r
               else r in
      let r := if 0 <? Looper.duration (looperSettings settings)
               then log (TestTimeout (Looper.duration (looperSettings settings))) r
               else r in
      let r := log (TestLoopCount
                      (Looper.loopCount_setting (looperSettings settings))) r in
      let r := log (SettingsDump settings) r in
      let a := beforeRun ops (world r) in
      let r := interrupted (interrupts a) (set_world (after a) r) in
      match outcome a with
      | Throw err => (Rejected err, r)
      | Normal _ =>
          let r := log (Console "looper") r in
          let l := Looper.new (looperSettings settings) (running r) in
          let r := set_looper (Some l) r in
          match Looper.run fuel iterator l r with
          | Looper.Returns n l' r' _ =>
              let r' := set_looper (Some l') r' in
              (Returned, log (TestCompleted (Looper.iterations l')) r')
          | Looper.Rejects err l' r' _ =>
              (Rejected err, set_looper (Some l') r')
          | Looper.Running l' r' _ => (Pending, set_looper (Some l') r')
          end
      end
  end.

(** The [catch] block of [runTestScript]. *)
Definition catchBlock (err : JsError.t) (r : t) : Outcome * t :=
  let r := if isTestScriptError ops err then log (ScriptError err) r
           else log InternalError r in
  let r := log (Stack err) r in
  let r := log TestCancel r in
  let a := cancel ops (world r) in
  let r := interrupted (interrupts a) (set_world (after a) r) in
  match outcome a with
  | Throw e => (Rejected e, r)
  | Normal _ => (Returned, r)
  end.

(** [runTestScript] *)
Definition runTestScript (fuel : nat) (r : t) : Outcome * t :=
  if negb (running r) then (Returned, r)
  else
    let r := log (Console "running test script") r in
    let a := client ops (world r) in
    let r := interrupted (interrupts a) (set_world (after a) r) in
    match outcome a with
    | Throw err => (Rejected err, r)
    | Normal _ =>
        match tryBlock fuel r with
        | (Rejected err, r') => catchBlock err r'
        | done => done
        end
    end.

End Run.

Arguments outcome {W A} _.
Arguments interrupts {W A} _.
Arguments after {W A} _.

End Runner.

(** ** The VerboseReporter *)

Module VerboseReporter.

(** The stages [testLifecycle] tells apart; [OtherEvent] stands for the
    members of [TestEvent] that have no case in its [switch]. *)
Inductive TestEvent :=
| BeforeAllStep
| AfterAllStep
| BeforeEachStep
| AfterEachStep
| BeforeAllStepFinished
| AfterAllStepFinished
| BeforeEachStepFinished
| AfterEachStepFinished
| BeforeStep
| AfterHookAction
| AfterStepAction
| StepSucceeded
| StepFailed
| AfterStep
| StepSkipped
| StepUnexecuted
| OtherEvent.

(** What reaches the terminal: lines of the console, with the group
    indentation they are printed at, and the escape sequences written to
    [process.stdout]. *)
Inductive Output :=
| Line (indent : nat) (msg : string)
| ErrorLine (indent : nat) (msg : string)
| CursorUpEraseLine (lines : Z)
| CursorDownEraseLine (lines : Z).

(** The console: its group indentation and what it has printed. *)
Record Console := {
  indent : nat;
  printed : list Output
}.

(** [console.log(msg)] *)
Definition console_log (msg : string) (c : Console) : Console :=
  {| indent := indent c; printed := printed c ++ [Line (indent c) msg] |}.

(** [console.error(msg)] *)
Definition console_error (msg : string) (c : Console) : Console :=
  {| indent := indent c; printed := printed c ++ [ErrorLine (indent c) msg] |}.

(** [console.group(label)] and [console.group()]: the label, if there is
    one, is printed, then the indentation grows. *)
Definition console_group (label : option string) (c : Console) : Console :=
  let c1 := match label with Some msg => console_log msg c | None => c end in
  {| indent := S (indent c1); printed := printed c1 |}.

(** [console.groupEnd()]: nothing happens outside of a group. *)
Definition console_groupEnd (c : Console) : Console :=
  {| indent := pred (indent c); printed := printed c |}.

(** [process.stdout.write(data)] *)
Definition stdout_write (data : Output) (c : Console) : Console :=
  {| indent := indent c; printed := printed c ++ [data] |}.

Section Reporter.

(** The [ReportCache] and the styles of [chalk] are not part of the
    fragment: the reporter is read for any of them. *)
Context {Cache : Type}.
Variable getLinesBetweenCurrentAndPreviousMessage : Cache → string → Z.
Variable updateMessageInCache : string → string → Cache → Cache.
Variables grey greyBold greenBold redBold red : string → string.
Variable toLocaleString : Z → string.

Record t := {
  (* [this.worker] is set *)
  worker : bool;
  cache : Cache;
  console : Console
}.

Definition on_console (f : Console → Console) (r : t) : t :=
  {| worker := worker r; cache := cache r; console := f (console r) |}.

(** [setWorker(worker)] *)
Definition setWorker (r : t) : t :=
  {| worker := true; cache := cache r; console := console r |}.

(** [updateMessage(previousMessage, newMessage)] *)
Definition updateMessage (previousMessage newMessage : string) (r : t) : t :=
  let lines :=
    getLinesBetweenCurrentAndPreviousMessage (cache r) previousMessage in
  let r := on_console (stdout_write (CursorUpEraseLine lines)) r in
  let r := on_console console_groupEnd r in
  let r := on_console (console_log newMessage) r in
  let r := {| worker := worker r;
              cache := updateMessageInCache previousMessage newMessage
                         (cache r);
              console := console r |} in
  on_console (stdout_write (CursorDownEraseLine lines)) r.

(** [testLifecycle(stage, label, subtitle?, timing?, errorMessage?)] *)
Definition testLifecycle (stage : TestEvent) (label : string)
           (subtitle : option string) (timing : option Z)
           (errorMessage : option string) (r : t) : t :=
  let stepName :=
    "Step " +:+
    match subtitle with
    | Some sub => if String.eqb sub "" then "'" +:+ label +:+ "'"
                  else "'" +:+ label +:+ "' (" +:+ sub +:+ ")"
    | None => "'" +:+ label +:+ "'"
    end in
  let beforeRunStepMessage := stepName +:+ " is running ..." in
  let beforeRunHookMessage := grey (label +:+ " is running ...") in
  let afterRunHookMessage :=
    greenBold "✔" +:+ " " +:+ grey (label +:+ " finished") in
  if worker r then r
  else
    match stage with
    | BeforeAllStep | AfterAllStep | BeforeEachStep | AfterEachStep =>
        on_console (console_group None)
          (on_console (console_group (Some beforeRunHookMessage)) r)
    | BeforeAllStepFinished | AfterAllStepFinished
    | BeforeEachStepFinished | AfterEachStepFinished =>
        on_console console_groupEnd
          (updateMessage beforeRunHookMessage afterRunHookMessage r)
    | BeforeStep =>
        on_console (console_group None)
          (on_console (console_group (Some (grey beforeRunStepMessage))) r)
    | AfterHookAction | AfterStepAction =>
        on_console (console_log (grey (label +:+ "()"))) r
    | StepSucceeded =>
        let message :=
          greenBold "✔" +:+ " " +:+
          grey (stepName +:+ " passed (" +:+
                match timing with
                | Some ms => toLocaleString ms
                | None => "undefined"
                end +:+ "ms)") in
        updateMessage beforeRunStepMessage message r
    | StepFailed =>
        let message := redBold "✘" +:+ " " +:+ grey (stepName +:+ " failed") in
        let shown :=
          match errorMessage with
          | Some msg => if String.eqb msg "" then "step error -> failed" else msg
          | None => "step error -> failed"
          end in
        updateMessage beforeRunStepMessage message
          (on_console (console_error (red shown)) r)
    | AfterStep => on_console console_groupEnd r
    | StepSkipped =>
        on_console console_groupEnd
          (on_console
             (console_group
                (Some (greyBold "⊖" +:+ " " +:+ grey (stepName +:+ " skipped"))))
             r)
    | StepUnexecuted =>
        on_console console_groupEnd
          (on_console
             (console_group
                (Some (greyBold "⊖" +:+ " " +:+
                       grey (stepName +:+ " is unexecuted"))))
             r)
    | OtherEvent => r
    end.

End Reporter.

End VerboseReporter.

(** ** Vocabulary of the properties *)

(** [stop()] is not called while an iteration is awaited. *)
Definition never_stopped {W} (iterator : Looper.Iterator W) : Prop :=
  ∀ n w, Looper.stopCalled (Looper.interrupts (iterator n w)) = false.

(** Every invocation of the iterator fulfils. *)
Definition never_rejects {W} (iterator : Looper.Iterator W) : Prop :=
  ∀ n w, Looper.rejected (iterator n w) = None.

(** The steps the traversal has not reached. *)
Definition unreached (s : TestState.t) : list Step.t :=
  drop (TestState.stepCount s) (TestState.steps s).

(** The UNEXECUTED rows the visitor of [summarizeStepAfterStopRunning] adds
    for one step, in closed form. *)
Definition unexecutedRows (step : Step.t) : list SummaryStep :=
  match Step.repeat (Step.options step) with
  | Some repeat =>
      if 0 <? Step.iteration repeat then
        replicate
          (Z.to_nat (Z.max 1 (Step.count repeat - Step.iteration repeat)))
          (Test.row step UNEXECUTED)
      else []
  | None => [Test.row step UNEXECUTED]
  end.

(** The step as the visitor leaves it: the repeat counter is back at 0. *)
Definition afterVisit (step : Step.t) : Step.t :=
  match Step.repeat (Step.options step) with
  | Some repeat => Step.set_repeat (Some (Step.set_iteration 0 repeat)) step
  | None => step
  end.

(** The rows the specification announces for one unreached step:
    [count - iteration] rows for a repeat descriptor with [iteration > 0],
    one row for a step without a repeat descriptor or with
    [iteration == 0]. *)
Definition announcedRows (step : Step.t) : list SummaryStep :=
  match Step.repeat (Step.options step) with
  | Some repeat =>
      if 0 <? Step.iteration repeat then
        replicate (Z.to_nat (Step.count repeat - Step.iteration repeat))
                  (Test.row step UNEXECUTED)
      else [Test.row step UNEXECUTED]
  | None => [Test.row step UNEXECUTED]
  end.

(** A computation of the engine respects a relation between states when the
    state it ends in, normally or not, is related to the one it started in. *)
Definition respects (R : TestState.t → TestState.t → Prop) {A : Type}
           (m : Eng A) : Prop :=
  ∀ s, R s (snd (m s)).

(** Recovery is only ever called with a tries override of 0, and the
    settings only ever change by the assignment [tries = 0]. *)
Definition tries_zero_only (s s' : TestState.t) : Prop :=
  (TestState.settings s' = TestState.settings s ∨
   TestState.settings s' = <["tries" := VNum 0]> (TestState.settings s)) ∧
  ∃ evs, TestState.events s' = TestState.events s ++ evs ∧
         ∀ name tries, CallRecovery name tries ∈ evs → tries = 0.

(** The cursor of the StepIterator, the number of steps and the script stay
    as they are. *)
Definition cursor_kept (s s' : TestState.t) : Prop :=
  TestState.stepCount s' = TestState.stepCount s ∧
  length (TestState.steps s') = length (TestState.steps s) ∧
  TestState.script s' = TestState.script s.

(** The number of steps and the script stay as they are. *)
Definition steps_kept (s s' : TestState.t) : Prop :=
  length (TestState.steps s') = length (TestState.steps s) ∧
  TestState.script s' = TestState.script s.

(** The state in which [runStep] calls the body of step [i]: the observer
    has been told, the subtitle is set and the settings of the browser are
    the global settings merged with the options of the step. *)
Definition enteredStep (i : nat) (step : Step.t) (s : TestState.t)
  : TestState.t :=
  TestState.set_browser
    (Browser.set_settings
       (spread (TestState.settings s) (Step.overrides (Step.options step)))
       (TestState.browser s))
    (TestState.set_events
       (TestState.events s
        ++ [BeforeStep (Step.name step);
            Debug ("Run step: " +:+ Step.name step)])
       (TestState.set_subTitle
          (Test.getStepSubtitle (default step (TestState.steps s !! i))) s)).

(** The state in which the race of the callback starts: the step is the
    "current step" of the browser. *)
Definition raced (step : Step.t) (s : TestState.t) : TestState.t :=
  TestState.set_browser
    (Browser.set_customContext (Some (Step.name step)) (TestState.browser s)) s.

(** The callback, started in [s] for [step], gets through the beforeEach
    hooks and the gate, and is in [s1] when it comes to the race. *)
Definition passes_gate (iteration : Z) (step : Step.t) (s s1 : TestState.t)
  : Prop :=
  Test.runHookFn (beforeEach (hook (TestState.script s)))
    (TestState.set_events
       (TestState.events s ++ [Debug "running hook function: beforeEach"]) s)
    = (Normal tt, s1) ∧
  StepIterator.callCondition step iteration (TestState.browser s1) = true ∧
  (∀ p, Step.predicate (Step.options step) = Some p →
        StepIterator.callPredicate p (TestState.browser s1) = true).

(** The step fails: no cancellation is requested and the body of the step,
    called by [runStep], throws [e] and leaves the browser as [b1]. *)
Definition body_throws (i : nat) (step : Step.t) (s1 : TestState.t)
           (e : JsError.t) (b1 : Browser.t) : Prop :=
  TestState.isCancellationRequested s1 = false ∧
  Step.fn step (TestState.browser (enteredStep i step (raced step s1)))
          (TestState.testDataRecord s1) = (Settles (Rejects e), b1).

(** What [runStep] leaves when the body of step [i] has thrown [e]. *)
Definition stepFailed (i : nat) (step : Step.t) (e : JsError.t)
           (b1 : Browser.t) (s1 : TestState.t) : TestState.t :=
  TestState.set_events
    (TestState.events s1
     ++ [BeforeStep (Step.name step);
         Debug ("Run step: " +:+ Step.name step);
         Debug "step error";
         OnStepError (Step.name step) (liftToStructuredError e);
         ConsoleLog (Test.errorMessage e);
         AfterStep (Step.name step);
         Debug "step done"])
    (TestState.set_summaryStep
       (TestState.summaryStep s1 ++ [Test.row step FAILED])
       (TestState.set_failed true
          (TestState.set_steps
             (alter (Step.set_prop (Some (Test.executedProp step))) i
                    (TestState.steps s1))
             (TestState.set_browser
                (Browser.set_settings
                   (Browser.settings (TestState.browser s1)) b1)
                (TestState.set_subTitle
                   (Test.getStepSubtitle
                      (default step (TestState.steps s1 !! i))) s1))))).

(** The state [setup] leaves. *)
Definition setupState (s : TestState.t) : TestState.t :=
  TestState.set_testDataRecord None
    (TestState.set_browser
       {| Browser.settings := TestState.settings s;
          Browser.customContext := None;
          Browser.page := Browser.page (TestState.browser s) |}
       (TestState.set_stepCount 0%nat
          (TestState.set_events
             (TestState.events s
              ++ [ReopenPage (prop_get (TestState.settings s) "incognito");
                  InterceptorAttach; Debug "run() start"])
             (TestState.set_subTitle ""
                (TestState.set_failed false s))))).

(** The state in which the afterAll hooks start, from the state [s1] in
    which the [try] and [catch] blocks ended: the interceptor is detached,
    the subtitle cleared, the unreached steps summarised, the observer told. *)
Definition cleanedUp (s1 : TestState.t) : TestState.t :=
  TestState.set_events
    (TestState.events s1
     ++ [InterceptorDetach; ObserverAfter;
         Debug "running hook function: afterAll"])
    (TestState.set_summaryStep
       (TestState.summaryStep s1 ++ flat_map unexecutedRows (unreached s1))
       (TestState.set_steps
          (take (TestState.stepCount s1) (TestState.steps s1)
           ++ (afterVisit <$> unreached s1))
          (TestState.set_subTitle "" s1))).

(** The first [i] steps of the iteration started in [s0] went through the
    callback without a throw, and left the engine in [s]. *)
Definition reaches (recoveryLimit : Z → nat) (iteration : Z) (i : nat)
           (s0 s : TestState.t) : Prop :=
  (Test.setup;; Test.beforeSteps;;
   StepIterator.run_loop i (Test.executor recoveryLimit iteration)) s0
  = (Normal tt, s).

(** The state in which [callRecovery] looks the failing step up: [tries] has
    been assigned 0 and the call is on record. *)
Definition recoveryCalled (step : Step.t) (s : TestState.t) : TestState.t :=
  TestState.set_events
    (TestState.events s ++ [CallRecovery (Step.name step) 0])
    (TestState.set_settings
       (<["tries" := VNum 0]> (TestState.settings s)) s).

(** The state in which the afterEach hooks start after a recovery that
    succeeded and left the engine in [sr]. *)
Definition recovered (sr : TestState.t) : TestState.t :=
  TestState.set_events
    (TestState.events sr ++ [Debug "running hook function: afterEach"])
    (TestState.set_failed false sr).

(** The state in which the StepIterator hands its next step to the
    callback. *)
Definition handed (s : TestState.t) : TestState.t :=
  TestState.set_stepCount (S (TestState.stepCount s)) s.

(** ** Concrete scripts *)

Module Examples.

Import TestState.

(** An iterator that rejects at its second invocation. *)
Definition rejecting : Looper.Iterator nat :=
  λ n w,
    {| Looper.rejected := if n =? 2 then Some (JsError.Error "boom") else None;
       Looper.interrupts := {| Looper.stopCalled := false;
                               Looper.timerFired := false |};
       Looper.world := S w |}.

(** An iterator during whose third invocation [stop()] is called. *)
Definition stoppedAtThree : Looper.Iterator nat :=
  λ n w,
    {| Looper.rejected := None;
       Looper.interrupts := {| Looper.stopCalled := n =? 3;
                               Looper.timerFired := false |};
       Looper.world := S w |}.

(** An iterator that counts its invocations. *)
Definition counting : Looper.Iterator nat :=
  λ _ w,
    {| Looper.rejected := None;
       Looper.interrupts := {| Looper.stopCalled := false;
                               Looper.timerFired := false |};
       Looper.world := S w |}.

Definition resolves : Browser.t → option JsObject → Raced * Browser.t :=
  λ b _, (Settles Resolves, b).

Definition throws (msg : string)
  : Browser.t → option JsObject → Raced * Browser.t :=
  λ b _, (Settles (Rejects (JsError.Error msg)), b).

Definition noOptions : Step.Options :=
  {| Step.skip := false; Step.pending := false; Step.once := false;
     Step.predicate := None; Step.condition := None; Step.repeat := None;
     Step.overrides := ∅ |}.

Definition step (name : string)
           (fn : Browser.t → option JsObject → Raced * Browser.t) : Step.t :=
  {| Step.name := name; Step.fn := fn; Step.options := noOptions;
     Step.prop := None |}.

(** A step with a repeat descriptor. *)
Definition repeating (name : string) (count iteration : Z) : Step.t :=
  Step.set_repeat (Some {| Step.count := count; Step.iteration := iteration |})
                  (step name resolves).

Definition noHooks : Hook :=
  {| beforeAll := []; afterAll := []; beforeEach := []; afterEach := [] |}.

(** A hook that is still pending when its timer goes off. *)
Definition timesOut : HookBase :=
  {| hook_fn := λ b _, (Pends, b); waitTimeout := 30 |}.

(** A hook that opens a page and resolves. *)
Definition marks : HookBase :=
  {| hook_fn := λ b _,
       (Settles Resolves,
        {| Browser.settings := Browser.settings b;
           Browser.customContext := Browser.customContext b;
           Browser.page := Browser.page b ++ ["visit"] |});
     waitTimeout := 5 |}.

(** An engine about to run its first iteration: no hooks, one test-data
    record, three tries configured. *)
Definition engine (steps : list Step.t)
           (recovery : gmap string (list RecoveryStep)) : TestState.t :=
  {| settings := <["tries" := VNum 3]> ∅;
     steps := steps;
     script := {| hook := noHooks; recoverySteps := recovery |};
     testData := [∅];
     failed := false;
     summaryStep := [];
     subTitle := "";
     browser := {| Browser.settings := ∅; Browser.customContext := None;
                   Browser.page := [] |};
     stepCount := 0;
     isCancellationRequested := false;
     testDataRecord := None;
     events := [] |}.

(** Scenario C at the end of the traversal: step A, planned three times,
    ran once; nothing else is left. *)
Definition scenarioC : TestState.t :=
  engine [repeating "A" 3 1] ∅.

(** A traversal that stopped before a repeating step that never ran. *)
Definition repeatNotStarted : TestState.t :=
  engine [repeating "A" 3 0] ∅.

(** Scenario A: steps A, B, C; B throws; no recovery registered. *)
Definition scenarioA : TestState.t :=
  engine [step "A" resolves; step "B" (throws "boom"); step "C" resolves] ∅.

(** A recovery step that rejects on an untouched page, leaving its mark on
    it, and resolves from then on. *)
Definition recovers : RecoveryStep :=
  {| recovery_fn := λ b,
       match Browser.page b with
       | [] => (Rejects (JsError.Error "not yet"),
                {| Browser.settings := Browser.settings b;
                   Browser.customContext := Browser.customContext b;
                   Browser.page := ["reload"] |})
       | _ => (Resolves, b)
       end |}.

(** Steps A, B; A throws and has a recovery sequence. *)
Definition recoverable : TestState.t :=
  engine [step "A" (throws "boom"); step "B" resolves]
         (<["A" := [recovers]]> ∅).

(** One try, whatever the override. *)
Definition oneTry : Z → nat := λ _, 1%nat.

(** Two tries, whatever the override. *)
Definition twoTries : Z → nat := λ _, 2%nat.

(** Step A throws, no recovery; the step after it has a repeat descriptor
    and never ran. *)
Definition failsBeforeRepeat : TestState.t :=
  engine [step "A" (throws "boom"); repeating "B" 3 0] ∅.

(** A step with an option override whose body wipes the settings it is
    given and then throws. *)
Definition overriding : Step.t :=
  {| Step.name := "A";
     Step.fn := λ b _, (Settles (Rejects (JsError.Error "boom")),
                        Browser.set_settings ∅ b);
     Step.options :=
       {| Step.skip := false; Step.pending := false; Step.once := false;
          Step.predicate := None; Step.condition := None;
          Step.repeat := None;
          Step.overrides := <["waitTimeout" := VNum 5]> ∅ |};
     Step.prop := None |}.

(** An engine in the middle of an iteration, its browser holding the global
    settings. *)
Definition midIteration : TestState.t :=
  TestState.set_browser
    {| Browser.settings := <["tries" := VNum 3]> ∅;
       Browser.customContext := None; Browser.page := [] |}
    (engine [overriding] ∅).

(** Scenario B: a beforeAll hook with a wait of one second that never
    resolves. *)
Definition scenarioB : TestState.t :=
  TestState.set_script
    {| hook := {| beforeAll := [{| hook_fn := λ b _, (Pends, b);
                                   waitTimeout := 1 |}];
                  afterAll := []; beforeEach := []; afterEach := [] |};
       recoverySteps := ∅ |}
    (engine [step "A" resolves; step "B" resolves] ∅).

(** An engine whose test data is used up. *)
Definition exhausted : TestState.t :=
  TestState.set_testData [] scenarioA.

Definition boom : JsError.t := JsError.Error "boom".

Definition stepA : Step.t := step "A" (throws "boom").

Definition stepB : Step.t := step "B" (throws "boom").

(** The callback on step A of [recoverable]: the state at the race, the
    browser the body leaves, the state after the recovery. *)
Definition recoverable_s1 : TestState.t :=
  TestState.set_events
    (TestState.events (handed recoverable)
     ++ [Debug "running hook function: beforeEach"])
    (handed recoverable).

Definition recoverable_b1 : Browser.t :=
  TestState.browser (enteredStep 0 stepA (raced stepA recoverable_s1)).

Definition recoverable_sr : TestState.t :=
  snd (StepIterator.recoveryAttempts 2 0 [recovers]
         (recoveryCalled stepA
            (stepFailed 0 stepA boom recoverable_b1 recoverable_s1))).

(** Scenario A when step B is about to be handed to the callback, at the
    race of B, and the browser the body of B leaves. *)
Definition scenarioA_s : TestState.t :=
  snd ((Test.setup;; Test.beforeSteps;;
        StepIterator.run_loop 1 (Test.executor oneTry 1)) scenarioA).

Definition scenarioA_s1 : TestState.t :=
  TestState.set_events
    (TestState.events (handed scenarioA_s)
     ++ [Debug "running hook function: beforeEach"])
    (handed scenarioA_s).

Definition scenarioA_b1 : Browser.t :=
  TestState.browser (enteredStep 1 stepB (raced stepB scenarioA_s1)).

(** Two steps that pass, with a hook before all of them. *)
Definition allGood : TestState.t :=
  TestState.set_script
    {| hook := {| beforeAll := [marks]; afterAll := [];
                  beforeEach := []; afterEach := [] |};
       recoverySteps := ∅ |}
    (engine [step "A" resolves; step "B" resolves] ∅).

(** A step that runs in the first iteration only. *)
Definition onlyOnce : Step.t :=
  {| Step.name := "login"; Step.fn := resolves;
     Step.options :=
       {| Step.skip := false; Step.pending := false; Step.once := true;
          Step.predicate := None; Step.condition := None;
          Step.repeat := None; Step.overrides := ∅ |};
     Step.prop := None |}.

(** Scenario A with a step delay of two seconds. *)
Definition delayed : TestState.t :=
  TestState.set_settings
    (<["stepDelay" := VNum 2]> (TestState.settings scenarioA)) scenarioA.

(** A test on a world that counts the iterations run: the script loads,
    every iteration fulfils, and [stop()] is called while [beforeRun] is
    awaited. *)
Definition quiet : Looper.Interrupts :=
  {| Looper.stopCalled := false; Looper.timerFired := false |}.

Definition threeLoops : Runner.Settings :=
  {| Runner.name := VStr "plan"; Runner.description := VUndefined;
     Runner.looperSettings :=
       {| Looper.duration := 0; Looper.loopCount_setting := 3 |} |}.

Definition counter : Runner.Ops (W := nat) :=
  {| Runner.client := λ w,
       {| Runner.outcome := Normal tt; Runner.interrupts := quiet;
          Runner.after := w |};
     Runner.enqueueScript := λ w, (Normal threeLoops, w);
     Runner.beforeRun := λ w,
       {| Runner.outcome := Normal tt; Runner.interrupts := quiet;
          Runner.after := w |};
     Runner.run := λ _ w,
       {| Runner.outcome := Normal tt; Runner.interrupts := quiet;
          Runner.after := S w |};
     Runner.cancel := λ w,
       {| Runner.outcome := Normal tt; Runner.interrupts := quiet;
          Runner.after := w |};
     Runner.isTestScriptError := λ _, false |}.

(** The same test with [stop()] called while [beforeRun] is awaited. *)
Definition stoppedEarly : Runner.Ops (W := nat) :=
  {| Runner.client := Runner.client counter;
     Runner.enqueueScript := Runner.enqueueScript counter;
     Runner.beforeRun := λ w,
       {| Runner.outcome := Normal tt;
          Runner.interrupts := {| Looper.stopCalled := true;
                                  Looper.timerFired := false |};
          Runner.after := w |};
     Runner.run := Runner.run counter;
     Runner.cancel := Runner.cancel counter;
     Runner.isTestScriptError := λ _, false |}.

(** The same test with a client that cannot be launched. *)
Definition noClient : Runner.Ops (W := nat) :=
  {| Runner.client := λ w,
       {| Runner.outcome := Throw boom; Runner.interrupts := quiet;
          Runner.after := w |};
     Runner.enqueueScript := Runner.enqueueScript counter;
     Runner.beforeRun := Runner.beforeRun counter;
     Runner.run := Runner.run counter;
     Runner.cancel := Runner.cancel counter;
     Runner.isTestScriptError := λ _, false |}.

(** A Runner that has not been stopped. *)
Definition fresh : Runner.t (W := nat) :=
  {| Runner.running := true; Runner.looper := None; Runner.entries := [];
     Runner.world := 0%nat |}.

(** The engine as the test of a Runner that nothing disturbs. *)
Definition engineOps : Runner.Ops (W := TestState.t) :=
  {| Runner.client := λ s,
       {| Runner.outcome := Normal tt; Runner.interrupts := quiet;
          Runner.after := s |};
     Runner.enqueueScript := λ s,
       (Normal {| Runner.name := VUndefined; Runner.description := VUndefined;
                  Runner.looperSettings :=
                    {| Looper.duration := 0;
                       Looper.loopCount_setting := 0 |} |}, s);
     Runner.beforeRun := λ s,
       {| Runner.outcome := Normal tt; Runner.interrupts := quiet;
          Runner.after := s |};
     Runner.run := λ n s,
       {| Runner.outcome := fst (Test.run oneTry (Some n) s);
          Runner.interrupts := quiet;
          Runner.after := snd (Test.run oneTry (Some n) s) |};
     Runner.cancel := λ s,
       {| Runner.outcome := Normal tt; Runner.interrupts := quiet;
          Runner.after := s |};
     Runner.isTestScriptError := λ _, false |}.

End Examples.

(** ** More vocabulary *)

(** The interrupt ends the loop: [stop()] was called, or the duration timer,
    armed because [duration > 0], went off. *)
Definition cancels (settings : Looper.ConcreteTestSettings)
           (i : Looper.Interrupts) : bool :=
  Looper.stopCalled i || (Looper.timerFired i && (0 <? Looper.duration settings)).

(** The iteration numbers 1 to [n]. *)
Definition firstIterations (n : nat) : list Z := Z.of_nat <$> seq 1 n.

(** The arguments [run] invoked the iterator with. *)
Definition calls_of {W} (r : Looper.Result W) : list Z :=
  match r with
  | Looper.Returns _ _ _ calls => calls
  | Looper.Rejects _ _ _ calls => calls
  | Looper.Running _ _ calls => calls
  end.

(** The duration timer does not go off while an iteration is awaited. *)
Definition timer_quiet {W} (iterator : Looper.Iterator W) : Prop :=
  ∀ n w, Looper.timerFired (Looper.interrupts (iterator n w)) = false.

(** The browser a hook is called on: its settings are a copy of the global
    settings with the wait timeout of the hook. *)
Definition hookBrowser (hook : HookBase) (s : TestState.t) : Browser.t :=
  Browser.set_settings
    (<["waitTimeout" := VNum (waitTimeout hook)]> (TestState.settings s))
    (TestState.browser s).

(** What [runHookFn] throws for a hook that lost its race or rejected: a new
    [Error] made of whatever the race threw, which is nothing for the
    timer. *)
Definition hookError (r : Raced) : JsError.t :=
  match r with
  | Settles (Rejects error) => JsError.Error (JsError.toString error)
  | _ => JsError.Error ""
  end.

(** A hook that resolves and leaves the settings of the browser as it was
    given them. *)
Definition keeps_settings (hook : HookBase) : Prop :=
  ∀ b d, fst (hook_fn hook b d) = Settles Resolves ∧
         Browser.settings (snd (hook_fn hook b d)) = Browser.settings b.

(** The summary row [runStep] pushes. *)
Definition outcome (how : Settle) : StepResult :=
  match how with Resolves => PASSED | Rejects _ => FAILED end.

Definition rejects (how : Settle) : bool :=
  match how with Resolves => false | Rejects _ => true end.

(** The events a computation has added to those of [s]. *)
Definition newEvents (s s' : TestState.t) : list Event :=
  drop (length (TestState.events s)) (TestState.events s').

(** The summary rows a computation has added to those of [s]. *)
Definition newRows (s s' : TestState.t) : list SummaryStep :=
  drop (length (TestState.summaryStep s)) (TestState.summaryStep s').

(** The state in which the callback starts the beforeEach hooks. *)
Definition atBeforeEach (s : TestState.t) : TestState.t :=
  TestState.set_events
    (TestState.events s ++ [Debug "running hook function: beforeEach"]) s.

(** The row of a step the iterator turns away: UNEXECUTED for a pending
    step and for a once-only step after the first iteration, SKIPPED for a
    skipped step, none for a step whose condition is false. *)
Definition turnedAwayRows (step : Step.t) (iteration : Z) : list SummaryStep :=
  let o := Step.options step in
  if Step.pending o || (Step.once o && (1 <? iteration)) then
    [Test.row step UNEXECUTED]
  else if Step.skip o then [Test.row step SKIPPED]
  else [].

(** The second gate of the callback: the predicate of the step, if it has
    one. *)
Definition predicateHolds (step : Step.t) (b : Browser.t) : bool :=
  match Step.predicate (Step.options step) with
  | Some predicate => StepIterator.callPredicate predicate b
  | None => true
  end.

(** Summary rows and calls to the collaborators are only ever added after
    those that are there. *)
Definition grows (s s' : TestState.t) : Prop :=
  TestState.summaryStep s `prefix_of` TestState.summaryStep s' ∧
  TestState.events s `prefix_of` TestState.events s'.

(** What makes a step the step it is: its name, its body and its options,
    of the repeat descriptor the count.  The rest of a step, [prop] and
    [repeat.iteration], is the scratch the engine writes. *)
Definition identity (step : Step.t) :=
  let o := Step.options step in
  (Step.name step, Step.fn step,
   (Step.skip o, Step.pending o, Step.once o),
   (Step.predicate o, Step.condition o),
   Step.count <$> Step.repeat o, Step.overrides o).

(** The steps are the same steps, in the same order, and hooks and recovery
    steps are as they were. *)
Definition script_kept (s s' : TestState.t) : Prop :=
  identity <$> TestState.steps s' = identity <$> TestState.steps s ∧
  TestState.script s' = TestState.script s.

Definition orderly (s s' : TestState.t) : Prop :=
  grows s s' ∧ script_kept s s'.

(** The [failed] flag stays as it is. *)
Definition flag_kept (s s' : TestState.t) : Prop :=
  TestState.failed s' = TestState.failed s.

(** A computation that, started with the [failed] flag down, does not
    complete normally with the flag up. *)
Definition clean_exit {A : Type} (m : Eng A) : Prop :=
  ∀ s, TestState.failed s = false →
       match m s with
       | (Normal _, s') => TestState.failed s' = false
       | (Throw _, _) => True
       end.

(** A hook that resolves, whatever it is given. *)
Definition resolving (hook : HookBase) : Prop :=
  ∀ b d, fst (hook_fn hook b d) = Settles Resolves.

Definition all_resolving (h : Hook) : Prop :=
  Forall resolving (beforeAll h) ∧ Forall resolving (afterAll h) ∧
  Forall resolving (beforeEach h) ∧ Forall resolving (afterEach h).

(** A step without gating options and without a repeat descriptor. *)
Definition plain (step : Step.t) : Prop :=
  let o := Step.options step in
  Step.skip o = false ∧ Step.pending o = false ∧ Step.once o = false ∧
  Step.predicate o = None ∧ Step.condition o = None ∧ Step.repeat o = None.

(** A step whose body fulfils, whatever it is given. *)
Definition passes (step : Step.t) : Prop :=
  ∀ b d, fst (Step.fn step b d) = Settles Resolves.

Definition passedRows (steps : list Step.t) : list SummaryStep :=
  (λ step, Test.row step PASSED) <$> steps.

(** The calls the one-shot directives of the settings make to the
    browser. *)
Definition isDirective (e : Event) : Prop :=
  match e with
  | ClearBrowserCache | ClearBrowserCookies | EmulateDevice _
  | SetUserAgent _ | SetCacheDisabled _ | SetExtraHTTPHeaders _ => True
  | _ => False
  end.

(** What an iteration throws on an empty feed. *)
Definition dataExhausted : JsError.t :=
  JsError.Error "Test data exhausted, consider making it circular?".

(** The calls an iteration makes before it feeds the test data, and the
    calls of its cleanup up to the afterAll hooks. *)
Definition openingEvents (s : TestState.t) (directives : list Event)
  : list Event :=
  [ReopenPage (prop_get (TestState.settings s) "incognito");
   InterceptorAttach; Debug "run() start"]
  ++ directives
  ++ [Debug "running this.before(browser)"; ObserverBefore;
      Debug "Feeding data"].

Definition closingEvents : list Event :=
  [InterceptorDetach; ObserverAfter; Debug "running hook function: afterAll"].

(** The feed of test data and the record of the running iteration stay as
    they are. *)
Definition feed_kept (s s' : TestState.t) : Prop :=
  TestState.testData s' = TestState.testData s ∧
  TestState.testDataRecord s' = TestState.testDataRecord s.

(** The iterations the Runner has announced in its log, oldest first. *)
Definition started {W} (r : Runner.t (W := W)) : list Z :=
  omap (λ e, match e with
             | Runner.StartingIteration n => Some n
             | _ => None
             end) (Runner.entries r).

(** An await during which nothing reaches the Runner from outside. *)
Definition undisturbed {W A} (a : Runner.Awaited (W := W) A) : Prop :=
  Runner.interrupts a
  = {| Looper.stopCalled := false; Looper.timerFired := false |}.

(** A test whose [run] is the [run] of the engine. *)
Definition runs_the_engine (recoveryLimit : Z → nat)
           (ops : Runner.Ops (W := TestState.t)) : Prop :=
  ∀ n s,
    Runner.outcome (Runner.run ops n s)
      = fst (Test.run recoveryLimit (Some n) s) ∧
    Runner.after (Runner.run ops n s)
      = snd (Test.run recoveryLimit (Some n) s).

(** What a call of the Runner has added to its log. *)
Definition newEntries {W} (r r' : Runner.t (W := W)) : list Runner.Entry :=
  drop (length (Runner.entries r)) (Runner.entries r').

(** Entries that say nothing about iterations or cancellation. *)
Definition plainEntry (e : Runner.Entry) : Prop :=
  match e with
  | Runner.StartingIteration _ | Runner.ErrorInRunnerLoop _ _
  | Runner.TestCompleted _ | Runner.TestCancel => False
  | _ => True
  end.

(** One call of [testLifecycle]. *)
Record LifecycleCall := {
  stage : VerboseReporter.TestEvent;
  label : string;
  subtitle : option string;
  timing : option Z;
  errorMessage : option string
}.

Definition opensHook (e : VerboseReporter.TestEvent) : bool :=
  match e with
  | VerboseReporter.BeforeAllStep | VerboseReporter.AfterAllStep
  | VerboseReporter.BeforeEachStep | VerboseReporter.AfterEachStep => true
  | _ => false
  end.

Definition closesHook (e : VerboseReporter.TestEvent) : bool :=
  match e with
  | VerboseReporter.BeforeAllStepFinished
  | VerboseReporter.AfterAllStepFinished
  | VerboseReporter.BeforeEachStepFinished
  | VerboseReporter.AfterEachStepFinished => true
  | _ => false
  end.

Definition isAction (e : VerboseReporter.TestEvent) : bool :=
  match e with
  | VerboseReporter.AfterHookAction | VerboseReporter.AfterStepAction => true
  | _ => false
  end.

Definition isOutcome (e : VerboseReporter.TestEvent) : bool :=
  match e with
  | VerboseReporter.StepSucceeded | VerboseReporter.StepFailed => true
  | _ => false
  end.

Definition isBypass (e : VerboseReporter.TestEvent) : bool :=
  match e with
  | VerboseReporter.StepSkipped | VerboseReporter.StepUnexecuted
  | VerboseReporter.OtherEvent => true
  | _ => false
  end.

(** The calls the reporter gets for one hook, for one step that runs, and
    for one step that does not: a hook is opened, its actions are reported,
    and it is closed; a step is opened, its actions are reported, then its
    outcome, and it is closed; a step that is skipped or unexecuted takes
    one call. *)
Inductive episode : list LifecycleCall → Prop :=
| hook_episode (opening closing : LifecycleCall)
               (actions : list LifecycleCall) :
    opensHook (stage opening) = true →
    Forall (λ c, isAction (stage c) = true) actions →
    closesHook (stage closing) = true →
    episode (opening :: actions ++ [closing])
| step_episode (opening outcome closing : LifecycleCall)
               (actions : list LifecycleCall) :
    stage opening = VerboseReporter.BeforeStep →
    Forall (λ c, isAction (stage c) = true) actions →
    isOutcome (stage outcome) = true →
    stage closing = VerboseReporter.AfterStep →
    episode (opening :: actions ++ [outcome; closing])
| bypass_episode (c : LifecycleCall) :
    isBypass (stage c) = true →
    episode [c].

Section Reports.

Context {Cache : Type}.
Variable getLines : Cache → string → Z.
Variable updateMessageInCache : string → string → Cache → Cache.
Variables grey greyBold greenBold redBold red : string → string.
Variable toLocaleString : Z → string.

(** The reporter after a sequence of lifecycle calls. *)
Definition report (calls : list LifecycleCall)
           (r : VerboseReporter.t (Cache := Cache))
  : VerboseReporter.t (Cache := Cache) :=
  foldl (λ r c,
           VerboseReporter.testLifecycle getLines updateMessageInCache
             grey greyBold greenBold redBold red toLocaleString
             (stage c) (label c) (subtitle c) (timing c) (errorMessage c) r)
        r calls.

End Reports.

(** The group indentation of the console after a lifecycle call that found
    it at [n], without a worker. *)
Definition groupDepth (e : VerboseReporter.TestEvent) (n : nat) : nat :=
  if opensHook e then S (S n)
  else if closesHook e then pred (pred n)
  else match e with
       | VerboseReporter.BeforeStep => S (S n)
       | VerboseReporter.StepSucceeded | VerboseReporter.StepFailed
       | VerboseReporter.AfterStep => pred n
       | _ => n
       end.

(** ** Example calls of the reporter *)

Module ReporterExamples.

(** The lifecycle calls for a step with one action that passes, and for a
    step that is skipped. *)
Definition call (stage : VerboseReporter.TestEvent) (label : string)
  : LifecycleCall :=
  {| stage := stage; label := label; subtitle := None; timing := Some 12;
     errorMessage := None |}.

Definition passingStep : list LifecycleCall :=
  [call VerboseReporter.BeforeStep "Login";
   call VerboseReporter.AfterStepAction "visit";
   call VerboseReporter.StepSucceeded "Login";
   call VerboseReporter.AfterStep "Login"].

Definition skippedStep : list LifecycleCall :=
  [call VerboseReporter.StepSkipped "Logout"].

(** A reporter without a worker, on a console outside of any group. *)
Definition terminal : VerboseReporter.t (Cache := unit) :=
  {| VerboseReporter.worker := false; VerboseReporter.cache := tt;
     VerboseReporter.console :=
       {| VerboseReporter.indent := 0; VerboseReporter.printed := [] |} |}.

End ReporterExamples.

(** * Properties *)

(** ** The error classifier *)

Lemma prefix_begins (p s : string) :
  String.prefix p s = true ↔ ∃ rest, s = p +:+ rest.
Proof.
  revert s. induction p as [|c p IH]; intros [|d s]; simpl.
  - split; [by exists "" | done].
  - split; [by eexists | done].
  - split; [done | intros [rest H]; discriminate].
  - destruct (Ascii.ascii_dec c d) as [->|Hne].
    + rewrite IH. split; intros [rest H]; exists rest.
      * by rewrite H.
      * by injection H.
    + split; [done | intros [rest H]; injection H; congruence].
Qed.

(** C7.  The classifier tags a failure whose name begins with
    "AssertionError" as an assertion; failing that, it returns a failure that
    carries the structured marker as it is; failing that, it wraps the bare
    failure with kind [empty] and originating phase "test". *)
Theorem liftToStructuredError_classifies (error : JsError.t) :
  ((∃ rest, JsError.name error = "AssertionError" +:+ rest) ∧
   JsError.kind (liftToStructuredError error) = Some JsError.assertion ∧
   JsError.message (liftToStructuredError error) = JsError.message error ∧
   JsError.originalError (liftToStructuredError error) = Some error)
  ∨
  ((¬ ∃ rest, JsError.name error = "AssertionError" +:+ rest) ∧
   JsError._structured error = true ∧
   liftToStructuredError error = error)
  ∨
  ((¬ ∃ rest, JsError.name error = "AssertionError" +:+ rest) ∧
   JsError._structured error = false ∧
   JsError._structured (liftToStructuredError error) = true ∧
   JsError.kind (liftToStructuredError error) = Some JsError.empty ∧
   JsError.source (liftToStructuredError error) = Some "test" ∧
   JsError.message (liftToStructuredError error) = JsError.message error ∧
   JsError.originalError (liftToStructuredError error) = Some error).
Proof.
  unfold liftToStructuredError.
  destruct (String.prefix "AssertionError" (JsError.name error)) eqn:Hp.
  - left. apply prefix_begins in Hp. done.
  - right.
    assert (¬ ∃ rest, JsError.name error = "AssertionError" +:+ rest) as Hn.
    { intros H. apply prefix_begins in H. congruence. }
    destruct (JsError._structured error) eqn:Hs; [left | right]; done.
Qed.

(** ** The Looper *)

Section LooperFacts.

Context {W : Type}.
Variable iterator : Looper.Iterator W.

Import Looper.

Lemma interrupt_unarmed (i : Interrupts) (l : t) :
  stopCalled i = false → timeout l = None → interrupt i l = l.
Proof.
  intros Hs Ht. unfold interrupt. rewrite Hs.
  destruct (timerFired i); [|done].
  unfold timer_fires. by rewrite Ht.
Qed.

Lemma continueLoop_iff (l : t) :
  continueLoop l = true ↔
  cancelled l = false ∧ (loopCount l ≤ 0 ∨ iterations l < loopCount l).
Proof.
  unfold continueLoop. cbv zeta.
  rewrite andb_true_iff, orb_true_iff, negb_true_iff.
  rewrite Z.ltb_lt, Z.leb_le. tauto.
Qed.

Lemma run_loop_unbounded (fuel : nat) :
  never_stopped iterator →
  ∀ l w calls,
    loopCount l ≤ 0 → cancelled l = false → timeout l = None →
    (∀ n l' w' calls', run_loop fuel iterator l w calls ≠ Returns n l' w' calls') ∧
    (never_rejects iterator →
     ∃ l' w',
       run_loop fuel iterator l w calls =
         Running l' w'
           (calls ++ ((λ j : nat, iterations l + Z.of_nat j) <$> seq 1 fuel)) ∧
       continueLoop l' = true).
Proof.
  intros Hstop. induction fuel as [|fuel IH]; intros l w calls Hc Hcan Ht.
  - assert (continueLoop l = true) as Hcont by (apply continueLoop_iff; auto).
    simpl. rewrite Hcont. split; [done|].
    intros _. exists l, w. by rewrite app_nil_r.
  - assert (continueLoop l = true) as Hcont by (apply continueLoop_iff; auto).
    simpl. rewrite Hcont.
    set (r := iterator (iterations l + 1) w).
    assert (interrupt (interrupts r) (incr l) = incr l) as Hi
      by (apply interrupt_unarmed; [apply Hstop | done]).
    rewrite Hi.
    destruct (IH (incr l) (world r) (calls ++ [iterations l + 1]))
      as [IH1 IH2]; [done..|].
    split.
    + destruct (rejected r); [done | apply IH1].
    + intros Hrej. unfold r at 1. rewrite Hrej.
      destruct (IH2 Hrej) as (l' & w' & Hrun & Hl').
      exists l', w'. split; [|done].
      rewrite Hrun. f_equal. rewrite <- app_assoc. f_equal.
      simpl. f_equal; [lia..|].
      rewrite <- !seq_shift, !map_map. apply map_ext. intros j. lia.
Qed.

Lemma run_loop_bounded (m : nat) :
  never_stopped iterator → never_rejects iterator →
  ∀ fuel l w calls,
    cancelled l = false → timeout l = None → 0 < loopCount l →
    loopCount l = iterations l + Z.of_nat m → (m ≤ fuel)%nat →
    run_loop fuel iterator l w calls =
      Returns (loopCount l)
        {| iterations := loopCount l; timeout := None;
           cancelled := false; loopCount := loopCount l |}
        (world_after iterator m (iterations l) w)
        (calls ++ ((λ j : nat, iterations l + Z.of_nat j) <$> seq 1 m)).
Proof.
  intros Hstop Hrej. induction m as [|m IH];
    intros fuel l w calls Hcan Ht Hpos Hn Hfuel.
  - assert (continueLoop l = false) as Hcont.
    { apply not_true_is_false. rewrite continueLoop_iff. lia. }
    destruct fuel; simpl; rewrite Hcont, app_nil_r; f_equal.
    all: try lia. all: try (unfold finish; f_equal; try done; lia).
  - assert (continueLoop l = true) as Hcont
      by (apply continueLoop_iff; split; [done | lia]).
    destruct fuel as [|fuel]; [lia|].
    simpl run_loop. rewrite Hcont.
    set (r := iterator (iterations l + 1) w).
    assert (interrupt (interrupts r) (incr l) = incr l) as Hi
      by (apply interrupt_unarmed; [apply Hstop | done]).
    rewrite Hi. unfold r at 1. rewrite Hrej.
    rewrite (IH fuel (incr l)); simpl; try done; try lia.
    f_equal. rewrite <- app_assoc. f_equal. simpl. f_equal; [lia..|].
    rewrite <- !seq_shift, !map_map. apply map_ext. intros j. lia.
Qed.

End LooperFacts.

(** C8.  [continueLoop] holds exactly when the Looper is not cancelled and
    either [loopCount <= 0] or fewer than [loopCount] iterations have run.
    With [loopCount <= 0], no duration timer and no call of [stop()], [run]
    never returns: however many iterations are looked at, it has not
    returned, and while the iterator keeps fulfilling the loop is still
    running, the iterator having been invoked once per iteration. *)
Theorem Looper_continueLoop_unbounded :
  (∀ l : Looper.t,
     Looper.continueLoop l = true ↔
     Looper.cancelled l = false ∧
     (Looper.loopCount l ≤ 0 ∨ Looper.iterations l < Looper.loopCount l))
  ∧
  (∀ (W : Type) (iterator : Looper.Iterator W)
     (settings : Looper.ConcreteTestSettings) (w : W) (fuel : nat),
     Looper.duration settings ≤ 0 →
     Looper.loopCount_setting settings ≤ 0 →
     never_stopped iterator →
     (∀ n l' w' calls,
        Looper.run fuel iterator (Looper.new settings true) w
        ≠ Looper.Returns n l' w' calls) ∧
     (never_rejects iterator →
      ∃ l' w',
        Looper.run fuel iterator (Looper.new settings true) w =
          Looper.Running l' w' (Z.of_nat <$> seq 1 fuel) ∧
        Looper.continueLoop l' = true)).
Proof.
  split; [apply continueLoop_iff|].
  intros W iterator settings w fuel Hd Hc Hstop.
  assert (Looper.timeout (Looper.new settings true) = None) as Ht.
  { simpl. destruct (0 <? Looper.duration settings) eqn:E; [|done].
    apply Z.ltb_lt in E. lia. }
  by destruct (run_loop_unbounded iterator fuel Hstop
                (Looper.new settings true) w []) as [H1 H2].
Qed.

Lemma Looper_continueLoop_unbounded_witness :
  ∃ l' w',
    Looper.run 5 Examples.counting
      (Looper.new {| Looper.duration := 0; Looper.loopCount_setting := 0 |} true)
      0%nat
    = Looper.Running l' w' [1; 2; 3; 4; 5] ∧
    Looper.continueLoop l' = true.
Proof.
  refine (proj2 (proj2 Looper_continueLoop_unbounded nat Examples.counting
                   {| Looper.duration := 0; Looper.loopCount_setting := 0 |}
                   0%nat 5%nat _ _ _) _);
    [simpl; lia | simpl; lia | intros n w; reflexivity
     | intros n w; reflexivity].
Defined.

(** C9.  With [loopCount = N > 0], no duration timer, [running = true], no
    call of [stop()] and an iterator that fulfils each time, [run] invokes
    the iterator exactly [N] times, with the iteration numbers 1 to [N] in
    this order, each invocation starting where the previous one ended, and
    returns [N]. *)
Theorem Looper_run_bounded {W : Type} (iterator : Looper.Iterator W)
        (settings : Looper.ConcreteTestSettings) (w : W) (N : Z) (fuel : nat) :
  0 < N →
  Looper.loopCount_setting settings = N →
  Looper.duration settings ≤ 0 →
  never_stopped iterator →
  never_rejects iterator →
  (Z.to_nat N ≤ fuel)%nat →
  Looper.run fuel iterator (Looper.new settings true) w =
    Looper.Returns N
      {| Looper.iterations := N; Looper.timeout := None;
         Looper.cancelled := false; Looper.loopCount := N |}
      (Looper.world_after iterator (Z.to_nat N) 0 w)
      (Z.of_nat <$> seq 1 (Z.to_nat N)).
Proof.
  intros HN Hc Hd Hstop Hrej Hfuel.
  assert (Looper.timeout (Looper.new settings true) = None) as Ht.
  { simpl. destruct (0 <? Looper.duration settings) eqn:E; [|done].
    apply Z.ltb_lt in E. lia. }
  unfold Looper.run.
  rewrite (run_loop_bounded iterator (Z.to_nat N) Hstop Hrej); simpl;
    try done; try lia.
  rewrite Hc. f_equal.
Qed.

Lemma Looper_run_bounded_witness :
  Looper.run 10 Examples.counting
    (Looper.new {| Looper.duration := 0; Looper.loopCount_setting := 3 |} true)
    0%nat
  = Looper.Returns 3
      {| Looper.iterations := 3; Looper.timeout := None;
         Looper.cancelled := false; Looper.loopCount := 3 |}
      3%nat [1; 2; 3].
Proof.
  apply (Looper_run_bounded Examples.counting
           {| Looper.duration := 0; Looper.loopCount_setting := 3 |}
           0%nat 3 10%nat);
    [lia | reflexivity | simpl; lia | intros n w; reflexivity
     | intros n w; reflexivity | simpl; lia].
Defined.

(** An iterator that rejects at its second invocation: [run] rejects after
    two invocations, whatever the loop count. *)
Lemma Looper_run_rejected_example :
  Looper.run 10 Examples.rejecting
    (Looper.new {| Looper.duration := 0; Looper.loopCount_setting := 3 |} true)
    0%nat
  = Looper.Rejects (JsError.Error "boom")
      {| Looper.iterations := 2; Looper.timeout := None;
         Looper.cancelled := false; Looper.loopCount := 3 |}
      2%nat [1; 2].
Proof. reflexivity. Qed.

(** ** The summary of the steps that were not executed *)

(** Unfolding of the monad operations. *)
Ltac eng_unfold :=
  unfold log, push;
  unfold mbind, eng_bind, mret, eng_ret, get, modify, throw.

Ltac eng_step := eng_unfold; cbn.

Section Summary.

Import TestState Test.

(** The loop of [countRepeatStep] adds [max 1 (count - iteration)] rows. *)
Lemma countRepeatLoop_closed (fuel : nat) :
  ∀ (name : string) (repeat : Step.RepeatDescriptor) (summary : list SummaryStep),
    Step.count repeat - Step.iteration repeat - 1 ≤ Z.of_nat fuel →
    countRepeatLoop fuel name repeat summary =
      (Step.set_iteration
         (Step.iteration repeat
          + Z.max 1 (Step.count repeat - Step.iteration repeat)) repeat,
       summary ++
       replicate (Z.to_nat (Z.max 1 (Step.count repeat - Step.iteration repeat)))
                 {| stepName := name; result := UNEXECUTED |}).
Proof.
  induction fuel as [|fuel IH]; intros name [count iteration] summary Hfuel;
    simpl in *.
  - destruct (iteration + 1 <? count) eqn:E.
    + apply Z.ltb_lt in E. lia.
    + apply Z.ltb_ge in E.
      replace (Z.max 1 (count - iteration)) with 1 by lia. done.
  - destruct (iteration + 1 <? count) eqn:E.
    + apply Z.ltb_lt in E. rewrite IH by (simpl; lia). simpl.
      replace (Z.max 1 (count - (iteration + 1))) with (count - iteration - 1)
        by lia.
      replace (Z.max 1 (count - iteration)) with (count - iteration) by lia.
      unfold Step.set_iteration. simpl. f_equal; [f_equal; lia|].
      rewrite <- app_assoc. f_equal.
      replace (Z.to_nat (count - iteration))
        with (S (Z.to_nat (count - iteration - 1))) by lia.
      done.
    + apply Z.ltb_ge in E.
      replace (Z.max 1 (count - iteration)) with 1 by lia. done.
Qed.

(** When the loop of [countRepeatStep] is left, its condition is false: the
    fuel did not cut it short. *)
Lemma countRepeatLoop_exits (name : string) (repeat : Step.RepeatDescriptor)
      (summary : list SummaryStep) :
  let fuel := Z.to_nat (Step.count repeat - Step.iteration repeat) in
  let repeat' := fst (countRepeatLoop fuel name repeat summary) in
  (Step.iteration repeat' <? Step.count repeat') = false.
Proof.
  intros fuel repeat'. subst repeat'.
  rewrite countRepeatLoop_closed by (subst fuel; lia).
  simpl. apply Z.ltb_ge. lia.
Qed.

Lemma summarizedUnexecutedStep_closed (i : nat) (step : Step.t) (s : TestState.t) :
  summarizedUnexecutedStep i step s =
    (Normal tt,
     set_summaryStep (summaryStep s ++ unexecutedRows step)
       (set_steps (<[i := afterVisit step]> (steps s)) s)).
Proof.
  unfold summarizedUnexecutedStep, countRepeatStep, unexecutedRows, afterVisit.
  destruct (Step.repeat (Step.options step)) as [repeat|] eqn:Hr.
  - destruct (0 <? Step.iteration repeat) eqn:Hpos.
    + eng_unfold. rewrite countRepeatLoop_closed by lia. done.
    + eng_step. by rewrite app_nil_r.
  - by eng_step.
Qed.

Lemma visit_from_summarized (n : nat) :
  ∀ (i : nat) (s : TestState.t),
    (length (steps s) ≤ i + n)%nat →
    StepIterator.visit_from n i summarizedUnexecutedStep s =
      (Normal tt,
       set_summaryStep
         (summaryStep s ++ flat_map unexecutedRows (drop i (steps s)))
         (set_steps (take i (steps s) ++ (afterVisit <$> drop i (steps s))) s)).
Proof.
  induction n as [|n IH]; intros i s Hlen.
  - rewrite drop_ge, take_ge by lia. cbn. rewrite !app_nil_r.
    by destruct s.
  - destruct (steps s !! i) as [step|] eqn:Hstep; last first.
    { pose proof (proj1 (lookup_ge_None _ _) Hstep) as Hge.
      rewrite drop_ge, take_ge by lia. cbn. eng_unfold. rewrite Hstep.
      rewrite !app_nil_r. by destruct s. }
    assert (i < length (steps s))%nat by (by eapply lookup_lt_Some).
    cbn. eng_unfold. rewrite Hstep.
    rewrite summarizedUnexecutedStep_closed. cbn.
    rewrite IH by (cbn; rewrite length_insert; lia). cbn.
    rewrite (drop_S _ _ _ Hstep). cbn.
    rewrite drop_insert_lt by lia.
    rewrite take_insert_lt by lia.
    rewrite (take_S_r _ _ _ Hstep).
    rewrite insert_app_r_alt by (rewrite length_take; lia).
    rewrite length_take. replace (i - i `min` length (steps s))%nat with 0%nat by lia.
    cbn. rewrite <- !app_assoc. done.
Qed.

Lemma unexecutedRows_cases (step : Step.t) :
  (Step.repeat (Step.options step) = None →
   unexecutedRows step = [row step UNEXECUTED] ∧ afterVisit step = step) ∧
  (∀ repeat, Step.repeat (Step.options step) = Some repeat →
     Step.repeat (Step.options (afterVisit step))
       = Some (Step.set_iteration 0 repeat) ∧
     (Step.iteration repeat ≤ 0 → unexecutedRows step = []) ∧
     (0 < Step.iteration repeat < Step.count repeat →
      unexecutedRows step =
        replicate (Z.to_nat (Step.count repeat - Step.iteration repeat))
                  (row step UNEXECUTED)) ∧
     (0 < Step.iteration repeat → Step.count repeat ≤ Step.iteration repeat →
      unexecutedRows step = [row step UNEXECUTED])).
Proof.
  unfold unexecutedRows, afterVisit. split.
  - by intros ->.
  - intros repeat ->. split; [done|].
    destruct (0 <? Step.iteration repeat) eqn:E.
    + apply Z.ltb_lt in E. split; [lia|]. split.
      * intros ?. by replace (Z.max 1 (Step.count repeat - Step.iteration repeat))
          with (Step.count repeat - Step.iteration repeat) by lia.
      * intros _ ?. by replace (Z.max 1 (Step.count repeat - Step.iteration repeat))
          with 1 by lia.
    + apply Z.ltb_ge in E. split; [done|]. split; intros; lia.
Qed.

Lemma summarizeStepAfterStopRunning_closed (s : TestState.t) :
  summarizeStepAfterStopRunning s =
    (Normal tt,
     set_summaryStep
       (summaryStep s ++ flat_map unexecutedRows (unreached s))
       (set_steps
          (take (stepCount s) (steps s) ++ (afterVisit <$> unreached s)) s)).
Proof.
  unfold summarizeStepAfterStopRunning, StepIterator.loopUnexecutedSteps.
  eng_unfold. rewrite visit_from_summarized by lia. done.
Qed.

End Summary.

(** C1, as the code has it.  Visiting an unreached step, the summary pass
    adds: for a step with a repeat descriptor and [0 < iteration < count],
    [count - iteration] UNEXECUTED rows (one row when [iteration >= count]);
    for a step with a repeat descriptor and [iteration] at 0, no row; for a
    step without a repeat descriptor, one UNEXECUTED row.  A repeat
    descriptor that was visited has [iteration] at 0.  The pass visits the
    unreached steps in declared order, completes, and changes nothing but
    the summary and the repeat counters. *)
Theorem summarizeStepAfterStopRunning_rows (s : TestState.t) :
  (∀ (i : nat) (step : Step.t),
     Test.summarizedUnexecutedStep i step s =
       (Normal tt,
        TestState.set_summaryStep
          (TestState.summaryStep s ++ unexecutedRows step)
          (TestState.set_steps (<[i := afterVisit step]> (TestState.steps s)) s)))
  ∧
  Test.summarizeStepAfterStopRunning s =
    (Normal tt,
     TestState.set_summaryStep
       (TestState.summaryStep s ++ flat_map unexecutedRows (unreached s))
       (TestState.set_steps
          (take (TestState.stepCount s) (TestState.steps s)
           ++ (afterVisit <$> unreached s)) s))
  ∧
  ∀ step : Step.t,
    (Step.repeat (Step.options step) = None →
     unexecutedRows step = [Test.row step UNEXECUTED] ∧ afterVisit step = step) ∧
    (∀ repeat, Step.repeat (Step.options step) = Some repeat →
       Step.repeat (Step.options (afterVisit step))
         = Some (Step.set_iteration 0 repeat) ∧
       (Step.iteration repeat ≤ 0 → unexecutedRows step = []) ∧
       (0 < Step.iteration repeat < Step.count repeat →
        unexecutedRows step =
          replicate (Z.to_nat (Step.count repeat - Step.iteration repeat))
                    (Test.row step UNEXECUTED)) ∧
       (0 < Step.iteration repeat → Step.count repeat ≤ Step.iteration repeat →
        unexecutedRows step = [Test.row step UNEXECUTED])).
Proof.
  split; [intros; apply summarizedUnexecutedStep_closed|].
  split; [apply summarizeStepAfterStopRunning_closed
         | apply unexecutedRows_cases].
Qed.

(** Scenario C: two more UNEXECUTED rows for the two repetitions of A that
    are left, and the counter of A back at 0. *)
Lemma summarizeStepAfterStopRunning_rows_witness :
  Test.summarizeStepAfterStopRunning Examples.scenarioC =
    (Normal tt,
     TestState.set_summaryStep
       [{| stepName := "A"; result := UNEXECUTED |};
        {| stepName := "A"; result := UNEXECUTED |}]
       (TestState.set_steps [Examples.repeating "A" 3 0] Examples.scenarioC)).
Proof.
  exact (proj1 (proj2 (summarizeStepAfterStopRunning_rows Examples.scenarioC))).
Defined.

(** C1 as announced fails on a repeating step that never ran: the summary
    pass adds no row for it, where one row is announced. *)
Lemma summarizeStepAfterStopRunning_counterexample :
  TestState.summaryStep
    (snd (Test.summarizeStepAfterStopRunning Examples.repeatNotStarted)) = []
  ∧ flat_map announcedRows (unreached Examples.repeatNotStarted)
    = [{| stepName := "A"; result := UNEXECUTED |}]
  ∧ TestState.summaryStep
      (snd (Test.summarizeStepAfterStopRunning Examples.repeatNotStarted))
    ≠ TestState.summaryStep Examples.repeatNotStarted
      ++ flat_map announcedRows (unreached Examples.repeatNotStarted).
Proof.
  vm_compute. split; [reflexivity|]. split; [reflexivity|]. discriminate.
Qed.


(** ** Computations that respect a relation *)

Section Respects.

Context (R : TestState.t → TestState.t → Prop) `{!PreOrder R}.

Lemma respects_ret {A} (a : A) : respects R (mret a).
Proof. intros s. reflexivity. Qed.

Lemma respects_get : respects R get.
Proof. intros s. reflexivity. Qed.

Lemma respects_throw {A} (e : JsError.t) : respects R (throw (A := A) e).
Proof. intros s. reflexivity. Qed.

Lemma respects_modify (f : TestState.t → TestState.t) :
  (∀ s, R s (f s)) → respects R (modify f).
Proof. intros H s. apply H. Qed.

Lemma respects_bind {A B} (m : Eng A) (f : A → Eng B) :
  respects R m → (∀ a, respects R (f a)) → respects R (m ≫= f).
Proof.
  intros Hm Hf s. unfold mbind, eng_bind.
  specialize (Hm s). destruct (m s) as [[a|e] s1]; cbn in *; [|done].
  etrans; [exact Hm | apply Hf].
Qed.

Lemma respects_try_catch {A} (body : Eng A) (handler : JsError.t → Eng A) :
  respects R body → (∀ e, respects R (handler e)) →
  respects R (try_catch body handler).
Proof.
  intros Hm Hh s. unfold try_catch.
  specialize (Hm s). destruct (body s) as [[a|e] s1]; cbn in *; [done|].
  etrans; [exact Hm | apply Hh].
Qed.

Lemma respects_try_finally {A} (body : Eng A) (cleanup : Eng unit) :
  respects R body → respects R cleanup →
  respects R (try_finally body cleanup).
Proof.
  intros Hm Hc s. unfold try_finally.
  specialize (Hm s). destruct (body s) as [r s1]. cbn in *.
  specialize (Hc s1). destruct (cleanup s1) as [[[]|e] s2]; cbn in *;
    by etrans.
Qed.

End Respects.

(** Takes a computation apart along its binds and branches; [prim] has to
    settle the state updates. *)
Create HintDb respects_db discriminated.

Ltac respects_go prim :=
  repeat first
    [ assumption
    | match goal with |- PreOrder _ => apply _ end
    | solve [auto 1 with respects_db nocore]
    | progress unfold log, push
    | apply respects_ret
    | apply respects_get
    | apply respects_throw
    | apply respects_bind; [apply _| |intros ?; cbv beta]
    | apply respects_try_catch; [apply _| |intros ?; cbv beta]
    | apply respects_try_finally
    | apply respects_modify; intros ?; prim
    | match goal with
      | |- respects _ (if ?b then _ else _) => destruct b
      | |- respects _ (match ?x with _ => _ end) => destruct x eqn:?
      | |- respects _ (let '_ := ?x in _) => destruct x eqn:?
      end ].

#[export] Instance tries_zero_only_preorder : PreOrder tries_zero_only.
Proof.
  split.
  - intros s. split; [by left|]. exists []. rewrite app_nil_r.
    split; [done|]. intros ?? H. by apply elem_of_nil in H.
  - intros s1 s2 s3 [Hs12 (evs12 & He12 & Hz12)] [Hs23 (evs23 & He23 & Hz23)].
    split.
    + destruct Hs23 as [->| ->]; destruct Hs12 as [->| ->]; auto.
      right. by rewrite insert_insert_eq.
    + exists (evs12 ++ evs23). rewrite He23, He12, app_assoc.
      split; [done|]. intros name tries [H|H]%elem_of_app; eauto.
Qed.

#[export] Instance cursor_kept_preorder : PreOrder cursor_kept.
Proof.
  split.
  - by intros s.
  - intros s1 s2 s3 (? & ? & ?) (? & ? & ?). repeat split; congruence.
Qed.

#[export] Instance steps_kept_preorder : PreOrder steps_kept.
Proof.
  split.
  - by intros s.
  - intros s1 s2 s3 (? & ?) (? & ?). repeat split; congruence.
Qed.

Lemma tries_zero_only_stays (s s' : TestState.t) :
  tries_zero_only s s' →
  TestState.settings s !! "tries" = Some (VNum 0) →
  TestState.settings s' !! "tries" = Some (VNum 0).
Proof.
  intros [[-> | ->] _] Hzero; [done | apply lookup_insert_eq].
Qed.

Lemma cursor_kept_steps_kept (s s' : TestState.t) :
  cursor_kept s s' → steps_kept s s'.
Proof. intros (? & ? & ?). by split. Qed.

(** State updates that leave settings and events alone, or add one event
    that is not a call of recovery. *)
Ltac tries_prim :=
  split;
  [ first [ by left | by right ]
  | first
      [ exists []; split;
        [ cbn; by rewrite app_nil_r
        | intros ?? H; by apply elem_of_nil in H ]
      | eexists; split;
        [ cbn; reflexivity
        | intros ?? H; apply list_elem_of_singleton in H;
          first [ discriminate H | by injection H ] ] ] ].

Ltac cursor_prim :=
  repeat split; cbn; rewrite ?length_alter, ?length_insert; done.

Section EngineFrames.

Import TestState Test.

Variable recoveryLimit : Z → nat.

Lemma runHookFn_frame (hooks : list HookBase) :
  ∀ s, snd (runHookFn hooks s) =
       set_browser (browser (snd (runHookFn hooks s))) s.
Proof.
  induction hooks as [|hook rest IH]; intros s; cbn.
  - by destruct s.
  - eng_unfold.
    destruct (hook_fn hook _ _) as [[[|e]|] b1]; cbn.
    + rewrite IH. cbn. by destruct s.
    + by destruct s.
    + by destruct s.
Qed.

(** *** Recovery is called with 0 and [tries] is only ever set to 0 *)

Lemma runHookFn_tries (hooks : list HookBase) :
  respects tries_zero_only (runHookFn hooks).
Proof. intros s. rewrite runHookFn_frame. tries_prim. Qed.

Lemma summarizeStepBeforeRun_tries step iteration :
  respects tries_zero_only (summarizeStepBeforeRun step iteration).
Proof. unfold summarizeStepBeforeRun. respects_go tries_prim. Qed.

Lemma doStepDelay_tries : respects tries_zero_only doStepDelay.
Proof. unfold doStepDelay. respects_go tries_prim. Qed.

Lemma runStep_enter_tries i step :
  respects tries_zero_only (runStep_enter i step).
Proof. unfold runStep_enter. respects_go tries_prim. Qed.

Hint Resolve runHookFn_tries summarizeStepBeforeRun_tries doStepDelay_tries
  runStep_enter_tries : respects_db.

Lemma runStep_settled_tries i step original how :
  respects tries_zero_only (runStep_settled i step original how).
Proof. unfold runStep_settled. respects_go tries_prim. Qed.

Hint Resolve runStep_settled_tries : respects_db.

Lemma runStep_tries i step : respects tries_zero_only (runStep i step).
Proof. unfold runStep. respects_go tries_prim. Qed.

Hint Resolve runStep_tries : respects_db.

Lemma race_runStep_tries i step :
  respects tries_zero_only (race_runStep i step).
Proof. unfold race_runStep. respects_go tries_prim. Qed.

Lemma recoveryAttempts_tries tries i seq :
  respects tries_zero_only (StepIterator.recoveryAttempts tries i seq).
Proof.
  induction tries as [|tries IH]; cbn; respects_go tries_prim.
Qed.

Hint Resolve race_runStep_tries recoveryAttempts_tries : respects_db.

Lemma callRecovery_tries i step :
  respects tries_zero_only (StepIterator.callRecovery recoveryLimit i step 0).
Proof. unfold StepIterator.callRecovery. respects_go tries_prim. Qed.

Hint Resolve callRecovery_tries : respects_db.

Lemma afterRace_tries i step :
  respects tries_zero_only (afterRace recoveryLimit i step).
Proof. unfold afterRace. respects_go tries_prim. Qed.

Hint Resolve afterRace_tries : respects_db.

Lemma executor_tries iteration i step :
  respects tries_zero_only (executor recoveryLimit iteration i step).
Proof. unfold executor. respects_go tries_prim. Qed.

Hint Resolve executor_tries : respects_db.

Lemma run_loop_tries iteration n :
  respects tries_zero_only
    (StepIterator.run_loop n (executor recoveryLimit iteration)).
Proof. induction n as [|n IH]; cbn; respects_go tries_prim. Qed.

Hint Resolve run_loop_tries : respects_db.

Lemma summarizeStepAfterStopRunning_tries :
  respects tries_zero_only summarizeStepAfterStopRunning.
Proof.
  intros s. rewrite summarizeStepAfterStopRunning_closed.
  tries_prim.
Qed.

Hint Resolve summarizeStepAfterStopRunning_tries : respects_db.

Lemma catchBlock_tries e : respects tries_zero_only (catchBlock e).
Proof. unfold catchBlock. respects_go tries_prim. Qed.

Lemma finallyBlock_tries : respects tries_zero_only finallyBlock.
Proof. unfold finallyBlock, afterRunSteps. respects_go tries_prim. Qed.

Lemma runWithCancellation_tries iteration :
  respects tries_zero_only (runWithCancellation recoveryLimit iteration).
Proof.
  unfold runWithCancellation, setup, tryBlock, beforeSteps, directives, feed,
    catchBlock, finallyBlock, afterRunSteps, StepIterator.run.
  respects_go tries_prim.
Qed.

(** *** What the callback leaves alone *)

Lemma runHookFn_cursor (hooks : list HookBase) :
  respects cursor_kept (runHookFn hooks).
Proof. intros s. rewrite runHookFn_frame. cursor_prim. Qed.

Lemma summarizeStepBeforeRun_cursor step iteration :
  respects cursor_kept (summarizeStepBeforeRun step iteration).
Proof. unfold summarizeStepBeforeRun. respects_go cursor_prim. Qed.

Lemma doStepDelay_cursor : respects cursor_kept doStepDelay.
Proof. unfold doStepDelay. respects_go cursor_prim. Qed.

Lemma runStep_enter_cursor i step : respects cursor_kept (runStep_enter i step).
Proof. unfold runStep_enter. respects_go cursor_prim. Qed.

Hint Resolve runHookFn_cursor summarizeStepBeforeRun_cursor doStepDelay_cursor
  runStep_enter_cursor : respects_db.

Lemma runStep_settled_cursor i step original how :
  respects cursor_kept (runStep_settled i step original how).
Proof. unfold runStep_settled. respects_go cursor_prim. Qed.

Hint Resolve runStep_settled_cursor : respects_db.

Lemma runStep_cursor i step : respects cursor_kept (runStep i step).
Proof. unfold runStep. respects_go cursor_prim. Qed.

Hint Resolve runStep_cursor : respects_db.

Lemma race_runStep_cursor i step : respects cursor_kept (race_runStep i step).
Proof. unfold race_runStep. respects_go cursor_prim. Qed.

Lemma recoveryAttempts_cursor tries i seq :
  respects cursor_kept (StepIterator.recoveryAttempts tries i seq).
Proof. induction tries as [|tries IH]; cbn; respects_go cursor_prim. Qed.

Hint Resolve race_runStep_cursor recoveryAttempts_cursor : respects_db.

Lemma callRecovery_cursor i step tries :
  respects cursor_kept (StepIterator.callRecovery recoveryLimit i step tries).
Proof. unfold StepIterator.callRecovery. respects_go cursor_prim. Qed.

Hint Resolve callRecovery_cursor : respects_db.

Lemma afterRace_cursor i step :
  respects cursor_kept (afterRace recoveryLimit i step).
Proof. unfold afterRace. respects_go cursor_prim. Qed.

Hint Resolve afterRace_cursor : respects_db.

Lemma executor_cursor iteration i step :
  respects cursor_kept (executor recoveryLimit iteration i step).
Proof. unfold executor. respects_go cursor_prim. Qed.

Lemma beforeSteps_cursor : respects cursor_kept beforeSteps.
Proof. unfold beforeSteps, directives, feed. respects_go cursor_prim. Qed.

(** *** The traversal *)

Lemma run_loop_end (n : nat) executor (s : TestState.t) :
  steps s !! stepCount s = None →
  StepIterator.run_loop n executor s = (Normal tt, s).
Proof. intros H. destruct n; cbn; [done|]. eng_unfold. by rewrite H. Qed.

(** A traversal of [a + b] steps is one of [a] steps followed by one of [b]
    steps. *)
Lemma run_loop_split (a b : nat) executor :
  ∀ s, StepIterator.run_loop (a + b) executor s =
       (StepIterator.run_loop a executor;;
        StepIterator.run_loop b executor) s.
Proof.
  induction a as [|a IH]; intros s; [done|].
  cbn. eng_unfold.
  destruct (steps s !! stepCount s) as [step|] eqn:Hstep.
  - destruct (executor (stepCount s) step _) as [[[]|e] s1]; [|done].
    apply IH.
  - by rewrite run_loop_end.
Qed.

(** A traversal that completes has moved the cursor by the number of steps
    it was given, or to the end of the steps. *)
Lemma run_loop_cursor iteration (n : nat) :
  ∀ s s',
    StepIterator.run_loop n (executor recoveryLimit iteration) s
      = (Normal tt, s') →
    stepCount s' =
      ((stepCount s + n) `min` (stepCount s `max` length (steps s)))%nat
    ∧ steps_kept s s'.
Proof.
  induction n as [|n IH]; intros s s'; cbn.
  - intros [= <-]. split; [lia | done].
  - eng_unfold.
    destruct (steps s !! stepCount s) as [step|] eqn:Hstep.
    + pose proof (lookup_lt_Some _ _ _ Hstep) as Hlt.
      pose proof (executor_cursor iteration (stepCount s) step
                    (set_stepCount (S (stepCount s)) s)) as (Hc & Hl & Hs).
      destruct (executor _ _ _ _ _) as [[[]|e] s1]; [|done].
      cbn in *. intros H. apply IH in H as [H1 [H2 H3]].
      split; [lia|]. split; congruence.
    + apply lookup_ge_None in Hstep. intros [= <-]. split; [lia | done].
Qed.

End EngineFrames.

(** ** One step *)

Section RunStep.

Import TestState Test.

Lemma runStep_enter_closed (i : nat) (step : Step.t) (s : TestState.t) :
  runStep_enter i step s =
    (Normal (Browser.settings (browser s)), enteredStep i step s).
Proof.
  unfold runStep_enter, enteredStep. eng_step.
  rewrite <- !app_assoc. by destruct s.
Qed.

Lemma runStep_settled_browser (i : nat) (step : Step.t) (original : JsObject)
      (how : Settle) (s : TestState.t) :
  ∃ s', runStep_settled i step original how s = (Normal tt, s') ∧
        browser s' = Browser.set_settings original (browser s).
Proof.
  unfold runStep_settled, doStepDelay. eng_unfold.
  destruct how as [|error]; cbn; [|by eexists].
  destruct (prop_get (settings s) "stepDelay") as [| |stepDelay|]; cbn;
    try by eexists.
  destruct (failed s || (stepDelay <=? 0)); cbn; by eexists.
Qed.

End RunStep.

(** C4.  The body of a step is called on a browser whose settings are the
    global settings merged with the options of the step; once the body has
    settled, by returning or by throwing, the settings of the browser are
    again what they were before the step, whatever the body did to them. *)
Theorem runStep_restores_settings (i : nat) (step : Step.t) (s : TestState.t)
        (how : Settle) (b1 : Browser.t) :
  Step.fn step (TestState.browser (enteredStep i step s))
          (TestState.testDataRecord s) = (Settles how, b1) →
  Browser.settings (TestState.browser (enteredStep i step s))
    = spread (TestState.settings s) (Step.overrides (Step.options step))
  ∧ ∃ s', Test.runStep i step s = (Normal true, s') ∧
          TestState.browser s'
            = Browser.set_settings
                (Browser.settings (TestState.browser s)) b1.
Proof.
  intros Hfn. split; [done|].
  unfold Test.runStep. eng_unfold. rewrite runStep_enter_closed.
  cbn [fst snd]. change (TestState.testDataRecord (enteredStep i step s))
    with (TestState.testDataRecord s).
  rewrite Hfn.
  destruct (runStep_settled_browser i step
              (Browser.settings (TestState.browser s)) how
              (TestState.set_browser b1 (enteredStep i step s)))
    as (s' & Hs' & Hb).
  cbn in Hs'. unfold modify. cbn. rewrite Hs'. by eexists.
Qed.

(** A body that wipes the settings and throws: the settings are back after
    the step. *)
Lemma runStep_restores_settings_witness :
  ∃ s', Test.runStep 0 Examples.overriding Examples.midIteration
          = (Normal true, s') ∧
        TestState.browser s'
          = Browser.set_settings
              (Browser.settings (TestState.browser Examples.midIteration))
              {| Browser.settings := ∅; Browser.customContext := None;
                 Browser.page := [] |}.
Proof.
  apply (runStep_restores_settings 0 Examples.overriding Examples.midIteration
           (Rejects (JsError.Error "boom"))).
  vm_compute. reflexivity.
Defined.

(** ** One iteration *)

Section Iteration.

Import TestState Test.

Variable recoveryLimit : Z → nat.

Lemma setup_closed (s : TestState.t) :
  setup s = (Normal tt, setupState s).
Proof.
  unfold setup, setupState. eng_step. rewrite <- !app_assoc. by destruct s.
Qed.

Lemma finallyBlock_closed (s1 : TestState.t) :
  finallyBlock s1 =
    runHookFn (afterAll (hook (script (cleanedUp s1)))) (cleanedUp s1).
Proof.
  unfold finallyBlock, afterRunSteps. eng_unfold.
  rewrite summarizeStepAfterStopRunning_closed. cbn.
  unfold cleanedUp, unreached. cbn. rewrite <- !app_assoc. cbn.
  by destruct s1.
Qed.

(** [runWithCancellation], block by block. *)
Lemma runWithCancellation_blocks (iteration : Z) (s0 : TestState.t) :
  runWithCancellation recoveryLimit iteration s0 =
    let '(r, s1) :=
      try_catch (tryBlock recoveryLimit iteration) catchBlock (setupState s0) in
    let '(r3, s4) :=
      runHookFn (afterAll (hook (script (cleanedUp s1)))) (cleanedUp s1) in
    (match r3 with Normal _ => r | Throw e => Throw e end, s4).
Proof.
  unfold runWithCancellation. unfold mbind at 1. unfold eng_bind.
  rewrite setup_closed. unfold try_finally.
  destruct (try_catch _ _ _) as [r s1].
  rewrite finallyBlock_closed.
  by destruct (runHookFn _ _) as [[[]|e] s4].
Qed.

Lemma executor_gate (iteration : Z) (i : nat) (step : Step.t)
      (s s1 : TestState.t) :
  passes_gate iteration step s s1 →
  executor recoveryLimit iteration i step s =
    (race_runStep i step;; afterRace recoveryLimit i step) (raced step s1).
Proof.
  intros (Hhooks & Hcond & Hpred).
  unfold executor. eng_unfold. cbn in *. rewrite Hhooks. cbn.
  rewrite Hcond. cbn.
  destruct (Step.predicate (Step.options step)) as [p|] eqn:Hp; [|done].
  by rewrite (Hpred p eq_refl).
Qed.

Lemma race_runStep_throws (i : nat) (step : Step.t) (s1 : TestState.t)
      (e : JsError.t) (b1 : Browser.t) :
  body_throws i step s1 e b1 →
  race_runStep i step (raced step s1) = (Normal tt, stepFailed i step e b1 s1).
Proof.
  intros [Hcancel Hbody].
  unfold race_runStep, runStep. eng_unfold. cbn. rewrite Hcancel.
  rewrite runStep_enter_closed. cbn [fst snd].
  change (testDataRecord (enteredStep i step (raced step s1)))
    with (testDataRecord s1).
  rewrite Hbody. unfold runStep_settled, stepFailed. eng_step.
  rewrite <- !app_assoc. by destruct s1.
Qed.

Lemma afterRace_failed (i : nat) (step : Step.t) (s : TestState.t) :
  isCancellationRequested s = false →
  failed s = true →
  afterRace recoveryLimit i step s =
    match recoverySteps (script s) !! Step.name step with
    | None => (Throw (JsError.Error ""), recoveryCalled step s)
    | Some seq =>
        match StepIterator.recoveryAttempts (recoveryLimit 0) i seq
                (recoveryCalled step s) with
        | (Normal true, sr) =>
            runHookFn (afterEach (hook (script sr))) (recovered sr)
        | (Normal false, sr) => (Throw (JsError.Error ""), sr)
        | (Throw e, sr) => (Throw e, sr)
        end
    end.
Proof.
  intros Hcancel Hfailed.
  unfold afterRace, StepIterator.callRecovery. eng_unfold. cbn.
  rewrite Hcancel, Hfailed. cbn.
  destruct (recoverySteps (script s) !! Step.name step) as [seq|]; [|done].
  unfold recoveryCalled. cbn.
  by destruct (StepIterator.recoveryAttempts _ _ _ _) as [[[|]|e] sr].
Qed.

(** The recovery attempts change the scratch record of the failing step and
    the browser, nothing else. *)
Lemma recoveryAttempts_frame (tries i : nat) (seq : list RecoveryStep) :
  ∀ s,
    let s' := snd (StepIterator.recoveryAttempts tries i seq s) in
    s' = set_browser (browser s') (set_steps (steps s') s) ∧
    drop (S i) (steps s') = drop (S i) (steps s).
Proof.
  induction tries as [|tries IH]; intros s; cbn.
  - split; by destruct s.
  - eng_unfold. cbn.
    destruct (StepIterator.runRecoverySequence seq (browser s))
      as [[|] b1]; cbn.
    + split; [by destruct s|]. by rewrite drop_alter_lt by lia.
    + destruct (IH (set_browser b1
                      (set_steps (alter StepIterator.bumpRecoveryTries i
                                        (steps s)) s))) as [IH1 IH2].
      cbn in *. split.
      * rewrite IH1 at 1. by destruct s.
      * rewrite IH2. by rewrite drop_alter_lt by lia.
Qed.

End Iteration.

(** C5.  However the [try] and [catch] blocks of an iteration ended, the
    cleanup runs: the interceptor is detached, the unreached steps are
    summarised, the observer gets its final notification, and the afterAll
    hooks run last, their completion deciding with that of the iteration
    how [runWithCancellation] ends. *)
Theorem cleanup_always_runs (recoveryLimit : Z → nat) (iteration : Z)
        (s0 : TestState.t) :
  ∃ r s1 r3 s4,
    try_catch (Test.tryBlock recoveryLimit iteration) Test.catchBlock
              (setupState s0) = (r, s1) ∧
    TestState.events (cleanedUp s1)
      = TestState.events s1
        ++ [InterceptorDetach; ObserverAfter;
            Debug "running hook function: afterAll"] ∧
    TestState.summaryStep (cleanedUp s1)
      = TestState.summaryStep s1 ++ flat_map unexecutedRows (unreached s1) ∧
    Test.runHookFn (afterAll (hook (TestState.script s1))) (cleanedUp s1)
      = (r3, s4) ∧
    Test.runWithCancellation recoveryLimit iteration s0
      = (match r3 with Normal _ => r | Throw e => Throw e end, s4) ∧
    TestState.events s4 = TestState.events (cleanedUp s1) ∧
    TestState.summaryStep s4 = TestState.summaryStep (cleanedUp s1).
Proof.
  rewrite runWithCancellation_blocks.
  destruct (try_catch _ _ _) as [r s1].
  pose proof (runHookFn_frame
                (afterAll (hook (TestState.script s1))) (cleanedUp s1)) as Hs4.
  change (TestState.script (cleanedUp s1)) with (TestState.script s1).
  destruct (Test.runHookFn _ (cleanedUp s1)) as [r3 s4] eqn:Hhooks.
  cbn [snd] in Hs4.
  exists r, s1, r3, s4.
  split; [done|]. split; [unfold cleanedUp; by cbn|].
  split; [unfold cleanedUp; by cbn|]. split; [done|]. split; [done|].
  split; by rewrite Hs4.
Qed.

(** The cleanup after a feed that is used up: no step ran, the iteration
    raises, every step is UNEXECUTED and the observer was told. *)
Lemma cleanup_after_exhausted_data :
  Test.runWithCancellation Examples.oneTry 1 Examples.exhausted
  = (Throw (JsError.Error "Test data exhausted, consider making it circular?"),
     snd (Test.runWithCancellation Examples.oneTry 1 Examples.exhausted))
  ∧ TestState.summaryStep
      (snd (Test.runWithCancellation Examples.oneTry 1 Examples.exhausted))
    = [{| stepName := "A"; result := UNEXECUTED |};
       {| stepName := "B"; result := UNEXECUTED |};
       {| stepName := "C"; result := UNEXECUTED |}]
  ∧ TestState.events
      (snd (Test.runWithCancellation Examples.oneTry 1 Examples.exhausted))
    = [ReopenPage VUndefined; InterceptorAttach; Debug "run() start";
       Debug "running this.before(browser)"; ObserverBefore;
       Debug "Feeding data"; InterceptorDetach; ObserverAfter;
       Debug "running hook function: afterAll"].
Proof. by vm_compute. Qed.

(** Scenario B: the beforeAll hook times out, the iteration raises before
    any step ran, and the summary has UNEXECUTED rows only. *)
Lemma cleanup_after_beforeAll_timeout :
  fst (Test.runWithCancellation Examples.oneTry 1 Examples.scenarioB)
  = Throw (JsError.Error "")
  ∧ TestState.summaryStep
      (snd (Test.runWithCancellation Examples.oneTry 1 Examples.scenarioB))
    = [{| stepName := "A"; result := UNEXECUTED |};
       {| stepName := "B"; result := UNEXECUTED |}].
Proof. by vm_compute. Qed.

(** ** A step that fails *)

Section FailingStep.

Import TestState Test.

Variable recoveryLimit : Z → nat.

Lemma passes_gate_frame (iteration : Z) (step : Step.t) (s s1 : TestState.t) :
  passes_gate iteration step s s1 →
  s1 = set_browser (browser s1)
         (set_events
            (events s ++ [Debug "running hook function: beforeEach"]) s).
Proof.
  intros (Hhooks & _ & _).
  pose proof (runHookFn_frame (beforeEach (hook (script s)))
                (set_events
                   (events s ++ [Debug "running hook function: beforeEach"]) s))
    as Hframe.
  by rewrite Hhooks in Hframe.
Qed.

(** The callback on a step that fails: it gets to the statement after the
    race with the FAILED row written and the failed flag set. *)
Lemma executor_step_throws (iteration : Z) (i : nat) (step : Step.t)
      (s s1 : TestState.t) (e : JsError.t) (b1 : Browser.t) :
  passes_gate iteration step s s1 →
  body_throws i step s1 e b1 →
  executor recoveryLimit iteration i step s =
    afterRace recoveryLimit i step (stepFailed i step e b1 s1).
Proof.
  intros Hgate Hbody.
  rewrite (executor_gate _ _ _ _ _ _ Hgate).
  unfold mbind at 1. unfold eng_bind.
  by rewrite (race_runStep_throws _ _ _ _ _ Hbody).
Qed.

(** An iteration whose first [i] steps went through has the cursor on step
    [i], and what is left of its [try] block is the traversal from there. *)
Lemma reaches_tryBlock (iteration : Z) (i : nat) (s0 s : TestState.t)
      (step : Step.t) :
  reaches recoveryLimit iteration i s0 s →
  steps s !! i = Some step →
  stepCount s = i ∧
  ∃ m, tryBlock recoveryLimit iteration (setupState s0) =
       StepIterator.run_loop (S m) (executor recoveryLimit iteration) s.
Proof.
  unfold reaches, tryBlock. unfold mbind, eng_bind.
  rewrite setup_closed.
  pose proof (beforeSteps_cursor (setupState s0)) as (Hc & Hl & _).
  destruct (beforeSteps (setupState s0)) as [[[]|e] sb]; [|done].
  cbn in Hc, Hl. intros Hrun Hstep.
  apply lookup_lt_Some in Hstep.
  destruct (run_loop_cursor recoveryLimit _ _ _ _ Hrun) as [Hcs [Hls _]].
  rewrite Hc in Hcs. split; [lia|].
  exists (length (steps sb) - i - 1)%nat.
  unfold StepIterator.run. unfold mbind, eng_bind, get. rewrite Hc.
  replace (length (steps sb) - 0)%nat
    with (i + S (length (steps sb) - i - 1))%nat by lia.
  rewrite run_loop_split. unfold mbind, eng_bind. by rewrite Hrun.
Qed.

Lemma unexecutedRows_plain (later : list Step.t) :
  (∀ step, step ∈ later → Step.repeat (Step.options step) = None) →
  flat_map unexecutedRows later = (λ step, row step UNEXECUTED) <$> later.
Proof.
  induction later as [|step later IH]; intros Hplain; [done|].
  cbn. rewrite IH by (intros; apply Hplain; by right).
  unfold unexecutedRows at 1. by rewrite Hplain by left.
Qed.

(** The callback on a failing step calls recovery with 0 and leaves the
    settings with [tries] at 0. *)
Lemma executor_step_throws_tries (iteration : Z) (i : nat) (step : Step.t)
      (s s1 : TestState.t) (e : JsError.t) (b1 : Browser.t) :
  passes_gate iteration step s s1 →
  body_throws i step s1 e b1 →
  ∃ r s' evs,
    executor recoveryLimit iteration i step s = (r, s') ∧
    events s' = events (stepFailed i step e b1 s1)
                ++ CallRecovery (Step.name step) 0 :: evs ∧
    settings s' = <["tries" := VNum 0]> (settings s).
Proof.
  intros Hgate Hbody.
  pose proof (passes_gate_frame _ _ _ _ Hgate) as Hs1.
  rewrite (executor_step_throws _ _ _ _ _ _ _ Hgate Hbody).
  destruct Hbody as [Hcancel _].
  rewrite afterRace_failed; [|done..].
  set (sf := stepFailed i step e b1 s1).
  assert (settings (recoveryCalled step sf)
          = <["tries" := VNum 0]> (settings s)) as Hset
    by (cbn; by rewrite Hs1).
  destruct (recoverySteps (script sf) !! Step.name step) as [seq|].
  - destruct (recoveryAttempts_frame (recoveryLimit 0) i seq
                (recoveryCalled step sf)) as [Hsr _].
    destruct (StepIterator.recoveryAttempts _ _ _ _) as [[[|]|e'] sr];
      cbn [snd] in Hsr.
    + pose proof (runHookFn_frame (afterEach (hook (script sr)))
                    (recovered sr)) as Hs3.
      destruct (runHookFn _ (recovered sr)) as [r3 s3]. cbn [snd] in Hs3.
      exists r3, s3, [Debug "running hook function: afterEach"].
      split; [done|]. rewrite Hs3. cbn. rewrite Hsr. cbn.
      split; [by rewrite <- app_assoc | by rewrite Hs1].
    + eexists _, sr, []. split; [done|]. rewrite Hsr. cbn.
      split; [done | by rewrite Hs1].
    + eexists _, sr, []. split; [done|]. rewrite Hsr. cbn.
      split; [done | by rewrite Hs1].
  - eexists _, _, []. split; [done|]. split; [done|]. done.
Qed.

(** The iteration in which a step fails ends with [tries] at 0. *)
Lemma runWithCancellation_step_throws_tries (iteration : Z) (i : nat)
      (step : Step.t) (s0 s s1 : TestState.t) (e : JsError.t) (b1 : Browser.t) :
  reaches recoveryLimit iteration i s0 s →
  steps s !! i = Some step →
  passes_gate iteration step (handed s) s1 →
  body_throws i step s1 e b1 →
  settings (snd (runWithCancellation recoveryLimit iteration s0)) !! "tries"
  = Some (VNum 0).
Proof.
  intros Hreach Hstep Hgate Hbody.
  destruct (reaches_tryBlock _ _ _ _ _ Hreach Hstep) as [Hi [m Htry]].
  destruct (executor_step_throws_tries _ _ _ _ _ _ _ Hgate Hbody)
    as (r & se & evs & Hexec & _ & Hset).
  assert (settings se !! "tries" = Some (VNum 0)) as Hzero
    by (rewrite Hset; apply lookup_insert_eq).
  rewrite runWithCancellation_blocks. unfold try_catch. rewrite Htry.
  cbn [StepIterator.run_loop]. unfold mbind, eng_bind, get, modify.
  rewrite Hi, Hstep.
  replace (set_stepCount (S i) s) with (handed s)
    by (unfold handed; by rewrite Hi).
  rewrite Hexec.
  assert (∀ (r1 : Completion unit) (s1' : TestState.t),
            settings s1' !! "tries" = Some (VNum 0) →
            settings
              (snd (let '(r3, s4) :=
                      runHookFn (afterAll (hook (script (cleanedUp s1'))))
                                (cleanedUp s1') in
                    (match r3 with Normal _ => r1 | Throw e3 => Throw e3 end,
                     s4))) !! "tries" = Some (VNum 0)) as Hend.
  { intros r1 s1' Hs1'.
    pose proof (runHookFn_frame
                  (afterAll (hook (script (cleanedUp s1')))) (cleanedUp s1'))
      as Hs4.
    destruct (runHookFn _ (cleanedUp s1')) as [r3 s4]. cbn [snd] in *.
    rewrite Hs4. by cbn. }
  destruct r as [[]|e'].
  - pose proof (run_loop_tries recoveryLimit iteration m se) as Hrest.
    destruct (StepIterator.run_loop m _ se) as [[[]|e''] s1'];
      cbn [snd] in Hrest.
    + apply Hend. by eapply tries_zero_only_stays.
    + unfold catchBlock. eng_unfold. cbn [fst snd].
      apply (Hend _ (set_failed true s1')). cbn.
      by eapply tries_zero_only_stays.
  - unfold catchBlock. eng_unfold. cbn [fst snd].
    by apply (Hend _ (set_failed true se)).
Qed.

End FailingStep.

(** C2.  A step fails and its registered recovery sequence completes within
    the tries: the callback does not abort.  It clears the failed flag and
    goes on to the afterEach hooks; the summary has got exactly one row for
    the step, a FAILED row, however many attempts the recovery took; and if
    the afterEach hooks complete, the traversal goes on with the next step
    in declared order. *)
Theorem recovered_failure_continues (recoveryLimit : Z → nat) (iteration : Z)
        (step : Step.t) (s s1 : TestState.t) (e : JsError.t) (b1 : Browser.t)
        (seq : list RecoveryStep) (sr : TestState.t) :
  let i := TestState.stepCount s in
  TestState.steps s !! i = Some step →
  passes_gate iteration step (handed s) s1 →
  body_throws i step s1 e b1 →
  recoverySteps (TestState.script s) !! Step.name step = Some seq →
  StepIterator.recoveryAttempts (recoveryLimit 0) i seq
    (recoveryCalled step (stepFailed i step e b1 s1)) = (Normal true, sr) →
  TestState.failed (recovered sr) = false ∧
  TestState.summaryStep (recovered sr)
    = TestState.summaryStep s ++ [Test.row step FAILED] ∧
  Test.executor recoveryLimit iteration i step (handed s)
    = Test.runHookFn (afterEach (hook (TestState.script s))) (recovered sr) ∧
  ∀ (n : nat) (s3 : TestState.t),
    Test.runHookFn (afterEach (hook (TestState.script s))) (recovered sr)
      = (Normal tt, s3) →
    StepIterator.run_loop (S n) (Test.executor recoveryLimit iteration) s
      = StepIterator.run_loop n (Test.executor recoveryLimit iteration) s3 ∧
    TestState.failed s3 = false ∧
    TestState.summaryStep s3
      = TestState.summaryStep s ++ [Test.row step FAILED] ∧
    TestState.stepCount s3 = S i ∧
    drop (S i) (TestState.steps s3) = drop (S i) (TestState.steps s).
Proof.
  intros i Hstep Hgate Hbody Hrec Hattempts.
  pose proof (passes_gate_frame _ _ _ _ Hgate) as Hs1.
  destruct (recoveryAttempts_frame (recoveryLimit 0) i seq
              (recoveryCalled step (stepFailed i step e b1 s1)))
    as [Hsr Hdrop].
  rewrite Hattempts in Hsr, Hdrop. cbn [snd] in Hsr, Hdrop.
  assert (TestState.summaryStep sr
          = TestState.summaryStep s ++ [Test.row step FAILED]) as Hsum.
  { rewrite Hsr. cbn. by rewrite Hs1. }
  assert (TestState.script sr = TestState.script s) as Hscript.
  { rewrite Hsr. cbn. by rewrite Hs1. }
  assert (TestState.stepCount sr = S i) as Hcount.
  { rewrite Hsr. cbn. by rewrite Hs1. }
  assert (drop (S i) (TestState.steps sr) = drop (S i) (TestState.steps s))
    as Hsteps.
  { rewrite Hdrop. cbn. rewrite drop_alter_lt by lia. by rewrite Hs1. }
  assert (Test.executor recoveryLimit iteration i step (handed s)
          = Test.runHookFn (afterEach (hook (TestState.script s)))
                           (recovered sr)) as Hexec.
  { rewrite (executor_step_throws _ _ _ _ _ _ _ _ Hgate Hbody).
    destruct Hbody as [Hcancel _].
    rewrite afterRace_failed; [|done..].
    change (TestState.script (stepFailed i step e b1 s1))
      with (TestState.script s1).
    replace (TestState.script s1) with (TestState.script s)
      by (by rewrite Hs1).
    rewrite Hrec, Hattempts. by rewrite Hscript. }
  split; [done|]. split; [done|]. split; [done|].
  intros n s3 Hafter.
  pose proof (runHookFn_frame (afterEach (hook (TestState.script s)))
                (recovered sr)) as Hs3.
  rewrite Hafter in Hs3. cbn [snd] in Hs3.
  split; [|rewrite Hs3; by cbn].
  cbn. unfold mbind, eng_bind, get, modify. fold i. rewrite Hstep.
  change (TestState.set_stepCount (S i) s) with (handed s).
  by rewrite Hexec, Hafter.
Qed.

(** Step A of [Examples.recoverable] throws and is recovered at the second
    try: one FAILED row, the failed flag cleared. *)
Lemma recovered_failure_continues_witness :
  TestState.failed (recovered Examples.recoverable_sr) = false ∧
  TestState.summaryStep (recovered Examples.recoverable_sr)
    = [{| stepName := "A"; result := FAILED |}].
Proof.
  destruct (recovered_failure_continues Examples.twoTries 1 Examples.stepA
              Examples.recoverable Examples.recoverable_s1 Examples.boom
              Examples.recoverable_b1 [Examples.recovers]
              Examples.recoverable_sr) as (Hfailed & Hsummary & _).
  - vm_compute. reflexivity.
  - vm_compute. split; [reflexivity|]. split; [reflexivity|].
    intros p Hp. discriminate Hp.
  - vm_compute. split; reflexivity.
  - vm_compute. reflexivity.
  - vm_compute. reflexivity.
  - vm_compute in Hfailed, Hsummary. vm_compute.
    split; [exact Hfailed | exact Hsummary].
Defined.

(** The whole iteration of [Examples.recoverable]: A fails and is recovered
    at the second try, B runs; the iteration completes with the failed flag
    down. *)
Lemma recovered_iteration_example :
  fst (Test.runWithCancellation Examples.twoTries 1 Examples.recoverable)
  = Normal tt
  ∧ TestState.summaryStep
      (snd (Test.runWithCancellation Examples.twoTries 1 Examples.recoverable))
    = [{| stepName := "A"; result := FAILED |};
       {| stepName := "B"; result := PASSED |}]
  ∧ TestState.failed
      (snd (Test.runWithCancellation Examples.twoTries 1 Examples.recoverable))
    = false
  ∧ Step.prop <$>
      TestState.steps
        (snd (Test.runWithCancellation Examples.twoTries 1 Examples.recoverable))
      !! 0%nat
    = Some (Some {| Step.executed := Some false;
                    Step.recoveryTries := Some 2 |}).
Proof. by vm_compute. Qed.

(** C3, as the code has it.  A step fails and no recovery sequence is
    registered for it: the iteration aborts right after the step and raises.
    From the step on, the summary has got one FAILED row for the failing
    step and then the rows of the summary pass over the steps after it, in
    declared order: one UNEXECUTED row for every later step without a repeat
    descriptor. *)
Theorem unrecovered_failure_aborts (recoveryLimit : Z → nat) (iteration : Z)
        (i : nat) (step : Step.t) (s0 s s1 : TestState.t) (e : JsError.t)
        (b1 : Browser.t) :
  reaches recoveryLimit iteration i s0 s →
  TestState.steps s !! i = Some step →
  passes_gate iteration step (handed s) s1 →
  body_throws i step s1 e b1 →
  recoverySteps (TestState.script s) !! Step.name step = None →
  ∃ err s',
    Test.runWithCancellation recoveryLimit iteration s0 = (Throw err, s') ∧
    TestState.failed s' = true ∧
    TestState.summaryStep s'
      = TestState.summaryStep s ++ [Test.row step FAILED]
        ++ flat_map unexecutedRows (drop (S i) (TestState.steps s)) ∧
    ((∀ later, later ∈ drop (S i) (TestState.steps s) →
               Step.repeat (Step.options later) = None) →
     TestState.summaryStep s'
       = TestState.summaryStep s ++ [Test.row step FAILED]
         ++ ((λ later, Test.row later UNEXECUTED)
               <$> drop (S i) (TestState.steps s))).
Proof.
  intros Hreach Hstep Hgate Hbody Hrec.
  destruct (reaches_tryBlock _ _ _ _ _ _ Hreach Hstep) as [Hi [m Htry]].
  pose proof (passes_gate_frame _ _ _ _ Hgate) as Hs1.
  set (sf := stepFailed i step e b1 s1).
  assert (StepIterator.run_loop (S m) (Test.executor recoveryLimit iteration) s
          = (Throw (JsError.Error ""), recoveryCalled step sf)) as Hrun.
  { cbn. unfold mbind, eng_bind, get, modify. rewrite Hi, Hstep.
    replace (TestState.set_stepCount (S i) s) with (handed s)
      by (unfold handed; by rewrite Hi).
    rewrite (executor_step_throws _ _ _ _ _ _ _ _ Hgate Hbody).
    destruct Hbody as [Hcancel _].
    rewrite afterRace_failed; [|done..].
    change (TestState.script (stepFailed i step e b1 s1))
      with (TestState.script s1).
    replace (TestState.script s1) with (TestState.script s)
      by (by rewrite Hs1).
    by rewrite Hrec. }
  rewrite runWithCancellation_blocks. unfold try_catch.
  rewrite Htry, Hrun. unfold Test.catchBlock. eng_unfold. cbn [fst snd].
  set (sc := TestState.set_failed true (recoveryCalled step sf)).
  pose proof (runHookFn_frame
                (afterAll (hook (TestState.script (cleanedUp sc))))
                (cleanedUp sc)) as Hs4.
  destruct (Test.runHookFn _ (cleanedUp sc)) as [r3 s4]. cbn [snd] in Hs4.
  assert (TestState.summaryStep s4
          = TestState.summaryStep s ++ [Test.row step FAILED]
            ++ flat_map unexecutedRows (drop (S i) (TestState.steps s)))
    as Hsum.
  { rewrite Hs4. unfold cleanedUp, unreached. cbn.
    rewrite drop_alter_lt by (rewrite Hs1; cbn; lia).
    rewrite Hs1. cbn. rewrite Hi. by rewrite <- app_assoc. }
  exists (match r3 with Normal _ => JsError.Error "" | Throw e3 => e3 end), s4.
  split; [by destruct r3 as [[]|e3]|].
  split; [by rewrite Hs4|].
  split; [done|].
  intros Hplain. by rewrite Hsum, unexecutedRows_plain.
Qed.

(** Scenario A: A passes, B throws with no recovery registered, C is left.
    The summary is PASSED A, FAILED B, UNEXECUTED C and the iteration
    raises. *)
Lemma unrecovered_failure_aborts_witness :
  ∃ err s',
    Test.runWithCancellation Examples.oneTry 1 Examples.scenarioA
      = (Throw err, s') ∧
    TestState.failed s' = true ∧
    TestState.summaryStep s'
      = [{| stepName := "A"; result := PASSED |};
         {| stepName := "B"; result := FAILED |};
         {| stepName := "C"; result := UNEXECUTED |}].
Proof.
  destruct (unrecovered_failure_aborts Examples.oneTry 1 1 Examples.stepB
              Examples.scenarioA Examples.scenarioA_s Examples.scenarioA_s1
              Examples.boom Examples.scenarioA_b1)
    as (err & s' & Hrun & Hfailed & Hsummary & _).
  - vm_compute. reflexivity.
  - vm_compute. reflexivity.
  - vm_compute. split; [reflexivity|]. split; [reflexivity|].
    intros p Hp. discriminate Hp.
  - vm_compute. split; reflexivity.
  - vm_compute. reflexivity.
  - vm_compute in Hsummary.
    exists err, s'. split; [exact Hrun|]. split; [exact Hfailed|].
    exact Hsummary.
Defined.

(** C3 as announced fails when a later step has a repeat descriptor: A
    throws with no recovery registered, B, planned three times, never ran,
    and the summary has no row for B. *)
Lemma unrecovered_failure_counterexample :
  TestState.summaryStep
    (snd (Test.runWithCancellation Examples.oneTry 1 Examples.failsBeforeRepeat))
  = [{| stepName := "A"; result := FAILED |}]
  ∧ {| stepName := "B"; result := UNEXECUTED |}
    ∉ TestState.summaryStep
        (snd (Test.runWithCancellation Examples.oneTry 1
                Examples.failsBeforeRepeat)).
Proof.
  assert (TestState.summaryStep
            (snd (Test.runWithCancellation Examples.oneTry 1
                    Examples.failsBeforeRepeat))
          = [{| stepName := "A"; result := FAILED |}]) as H
    by (by vm_compute).
  split; [exact H|]. rewrite H. intros Hin.
  apply list_elem_of_singleton in Hin. discriminate Hin.
Qed.

(** C10.  On a step that fails, the callback calls recovery with a tries
    override of 0 and leaves the global settings with [tries] at 0, whatever
    was configured; the iteration in which the step failed ends with [tries]
    at 0.  Every part of an iteration, and every iteration, calls recovery
    with the override 0 only and changes the settings in no other way than
    by [tries] becoming 0: once 0, [tries] stays 0. *)
Theorem recovery_called_with_zero_tries (recoveryLimit : Z → nat) :
  (∀ (iteration : Z) (i : nat) (step : Step.t) (s s1 : TestState.t)
     (e : JsError.t) (b1 : Browser.t),
     passes_gate iteration step s s1 →
     body_throws i step s1 e b1 →
     ∃ r s' evs,
       Test.executor recoveryLimit iteration i step s = (r, s') ∧
       TestState.events s'
         = TestState.events (stepFailed i step e b1 s1)
           ++ CallRecovery (Step.name step) 0 :: evs ∧
       TestState.settings s'
         = <["tries" := VNum 0]> (TestState.settings s))
  ∧
  (∀ (iteration : Z) (i : nat) (step : Step.t) (s0 s s1 : TestState.t)
     (e : JsError.t) (b1 : Browser.t),
     reaches recoveryLimit iteration i s0 s →
     TestState.steps s !! i = Some step →
     passes_gate iteration step (handed s) s1 →
     body_throws i step s1 e b1 →
     TestState.settings
       (snd (Test.runWithCancellation recoveryLimit iteration s0)) !! "tries"
     = Some (VNum 0))
  ∧
  ((∀ (iteration : Z) (i : nat) (step : Step.t),
      respects tries_zero_only (Test.executor recoveryLimit iteration i step)) ∧
   (∀ (iteration : Z) (n : nat),
      respects tries_zero_only
        (StepIterator.run_loop n (Test.executor recoveryLimit iteration))) ∧
   (∀ e, respects tries_zero_only (Test.catchBlock e)) ∧
   respects tries_zero_only Test.finallyBlock ∧
   (∀ iteration : Z,
      respects tries_zero_only
        (Test.runWithCancellation recoveryLimit iteration)))
  ∧
  (∀ s s' : TestState.t,
     tries_zero_only s s' →
     TestState.settings s !! "tries" = Some (VNum 0) →
     TestState.settings s' !! "tries" = Some (VNum 0)).
Proof.
  split; [apply executor_step_throws_tries|].
  split; [apply runWithCancellation_step_throws_tries|].
  split.
  - split; [intros; apply executor_tries|].
    split; [intros; apply run_loop_tries|].
    split; [intros; apply catchBlock_tries|].
    split; [apply finallyBlock_tries | intros; apply runWithCancellation_tries].
  - apply tries_zero_only_stays.
Qed.

(** Step A of [Examples.recoverable] throws: recovery is called with 0 and
    the three tries configured are gone. *)
Lemma recovery_called_with_zero_tries_witness :
  ∃ r s' evs,
    Test.executor Examples.oneTry 1 0 Examples.stepA (handed Examples.recoverable)
      = (r, s') ∧
    TestState.events s'
      = TestState.events
          (stepFailed 0 Examples.stepA Examples.boom Examples.recoverable_b1
                      Examples.recoverable_s1)
        ++ CallRecovery "A" 0 :: evs ∧
    TestState.settings s'
      = <["tries" := VNum 0]> (TestState.settings (handed Examples.recoverable)).
Proof.
  apply (proj1 (recovery_called_with_zero_tries Examples.oneTry) 1 0%nat
           Examples.stepA (handed Examples.recoverable)
           Examples.recoverable_s1 Examples.boom Examples.recoverable_b1).
  - vm_compute. split; [reflexivity|]. split; [reflexivity|].
    intros p Hp. discriminate Hp.
  - vm_compute. split; reflexivity.
Defined.

(** * Further properties *)

(** ** The Looper, whatever the iterator does *)

Section LooperMore.

Context {W : Type}.
Variable iterator : Looper.Iterator W.

Import Looper.

Lemma interrupt_iterations (i : Interrupts) (l : t) :
  iterations (interrupt i l) = iterations l ∧
  loopCount (interrupt i l) = loopCount l.
Proof.
  unfold interrupt, timer_fires, stop.
  destruct (stopCalled i), (timerFired i); cbn; try done;
    by destruct (timeout l).
Qed.

(** The invocations are numbered on from the counter, one by one, and the
    counter is their number; it never passes a positive loop count. *)
Lemma run_loop_calls (fuel : nat) :
  ∀ l w calls,
    0 ≤ iterations l →
    (0 < loopCount l → iterations l ≤ loopCount l) →
    match run_loop fuel iterator l w calls with
    | Returns n l' _ calls' =>
        n = iterations l' ∧
        calls' = calls ++ ((λ j : nat, iterations l + Z.of_nat j)
                             <$> seq 1 (Z.to_nat (iterations l' - iterations l)))
        ∧ iterations l ≤ iterations l'
        ∧ (0 < loopCount l → iterations l' ≤ loopCount l)
        ∧ timeout l' = None
    | Rejects _ l' _ calls' =>
        calls' = calls ++ ((λ j : nat, iterations l + Z.of_nat j)
                             <$> seq 1 (Z.to_nat (iterations l' - iterations l)))
        ∧ iterations l < iterations l'
        ∧ (0 < loopCount l → iterations l' ≤ loopCount l)
    | Running l' _ calls' =>
        calls' = calls ++ ((λ j : nat, iterations l + Z.of_nat j)
                             <$> seq 1 (Z.to_nat (iterations l' - iterations l)))
        ∧ iterations l' = iterations l + Z.of_nat fuel
        ∧ (0 < loopCount l → iterations l' ≤ loopCount l)
    end.
Proof.
  induction fuel as [|fuel IH]; intros l w calls Hpos Hbound;
    cbn [run_loop]; destruct (continueLoop l) eqn:Hc; cbv beta iota zeta.
  - rewrite Z.sub_diag. cbn. rewrite app_nil_r. split; [done|]. split; [lia|done].
  - rewrite Z.sub_diag. cbn. rewrite app_nil_r. repeat split; try done; lia.
  - apply continueLoop_iff in Hc as [_ Hc].
    change (iterations (incr l)) with (iterations l + 1).
    set (r := iterator (iterations l + 1) w).
    set (l1 := interrupt (interrupts r) (incr l)).
    destruct (interrupt_iterations (interrupts r) (incr l)) as [Hi Hl].
    fold l1 in Hi, Hl. cbn in Hi, Hl.
    assert (∀ m : Z, iterations l + 1 ≤ m →
              calls ++ ((λ j : nat, iterations l + Z.of_nat j)
                          <$> seq 1 (Z.to_nat (m - iterations l)))
              = (calls ++ [iterations l + 1])
                ++ ((λ j : nat, iterations l + 1 + Z.of_nat j)
                      <$> seq 1 (Z.to_nat (m - (iterations l + 1))))) as Hcalls.
    { intros m Hm.
      replace (Z.to_nat (m - iterations l))
        with (S (Z.to_nat (m - (iterations l + 1)))) by lia.
      rewrite <- app_assoc. f_equal. cbn. f_equal.
      rewrite <- !seq_shift, !map_map. apply map_ext. intros j. lia. }
    destruct (rejected r) as [e|].
    + rewrite Hcalls by lia. rewrite Hi.
      replace (iterations l + 1 - (iterations l + 1)) with 0 by lia.
      cbn. rewrite app_nil_r. split; [done|]. split; lia.
    + specialize (IH l1 (world r) (calls ++ [iterations l + 1])).
      rewrite Hi, Hl in IH.
      destruct (run_loop _ _ _ _ _)
        as [n l' w' calls'|e l' w' calls'|l' w' calls'].
      * destruct IH as (-> & -> & Hle & Hb & Ht); [lia..|].
        rewrite Hcalls by lia. repeat split; try done; try lia.
      * destruct IH as (-> & Hle & Hb); [lia..|].
        rewrite Hcalls by lia. repeat split; try done; try lia.
      * destruct IH as (-> & Hle & Hb); [lia..|].
        rewrite Hcalls by lia. repeat split; try done; try lia.
  - rewrite Z.sub_diag. cbn. rewrite app_nil_r. repeat split; try done; lia.
Qed.

(** Iterations up to [k] fulfil, the first interrupt that ends the loop
    comes during iteration [k]: the loop is left after iteration [k]. *)
Lemma run_loop_cancelled (settings : ConcreteTestSettings) (k : Z) (m : nat) :
  (∀ n w, n < k → cancels settings (interrupts (iterator n w)) = false) →
  (∀ w, cancels settings (interrupts (iterator k w)) = true) →
  (∀ n w, n ≤ k → rejected (iterator n w) = None) →
  ∀ fuel l w calls,
    cancelled l = false →
    timeout l = timeout (new settings true) →
    loopCount l ≤ 0 ∨ k ≤ loopCount l →
    k = iterations l + Z.of_nat (S m) →
    (S m ≤ fuel)%nat →
    ∃ l',
      run_loop fuel iterator l w calls =
        Returns k l' (world_after iterator (S m) (iterations l) w)
          (calls ++ ((λ j : nat, iterations l + Z.of_nat j) <$> seq 1 (S m))) ∧
      iterations l' = k ∧ cancelled l' = true ∧ timeout l' = None.
Proof.
  intros Hbefore Hat Hrej.
  induction m as [|m IH]; intros fuel l w calls Hcan Ht Hcount Hk Hfuel.
  - destruct fuel as [|fuel]; [lia|].
    assert (continueLoop l = true) as Hc
      by (apply continueLoop_iff; split; [done | lia]).
    cbn [run_loop]. rewrite Hc. cbv zeta.
    change (iterations (incr l)) with (iterations l + 1).
    replace (iterations l + 1) with k by lia.
    rewrite Hrej by lia.
    set (r := iterator k w).
    assert (iterations (interrupt (interrupts r) (incr l)) = k) as Hi1.
    { destruct (interrupt_iterations (interrupts r) (incr l)) as [-> _].
      cbn. lia. }
    assert (cancelled (interrupt (interrupts r) (incr l)) = true) as Hc1.
    { pose proof (Hat w) as Hcancels. fold r in Hcancels.
      unfold cancels in Hcancels. unfold interrupt, timer_fires, stop.
      cbn in Ht.
      destruct (stopCalled (interrupts r)), (timerFired (interrupts r)),
        (0 <? duration settings); cbn in *; rewrite ?Ht; done. }
    assert (continueLoop (interrupt (interrupts r) (incr l)) = false) as Hc2.
    { apply not_true_is_false. rewrite continueLoop_iff. rewrite Hc1.
      by intros [? _]. }
    exists (finish (interrupt (interrupts r) (incr l))).
    destruct fuel; cbn [run_loop]; rewrite Hc2; cbn [world_after];
      (split; [|done]); rewrite Hi1; subst r; cbn;
      replace (iterations l + 1) with k by lia; by rewrite <- Hk.
  - destruct fuel as [|fuel]; [lia|].
    assert (continueLoop l = true) as Hc
      by (apply continueLoop_iff; split; [done | lia]).
    cbn [run_loop]. rewrite Hc. cbv zeta.
    change (iterations (incr l)) with (iterations l + 1).
    rewrite Hrej by lia.
    set (r := iterator (iterations l + 1) w).
    assert (interrupt (interrupts r) (incr l) = incr l) as Hi.
    { pose proof (Hbefore (iterations l + 1) w ltac:(lia)) as Hcancels.
      fold r in Hcancels. unfold cancels in Hcancels.
      unfold interrupt, timer_fires, stop. cbn in Ht.
      destruct (stopCalled (interrupts r)), (timerFired (interrupts r)),
        (0 <? duration settings); cbn in *; rewrite ?Ht; done. }
    rewrite Hi.
    destruct (IH fuel (incr l) (world r) (calls ++ [iterations l + 1]))
      as (l' & Hrun & Hl');
      [exact Hcan | exact Ht | cbn; lia | cbn; lia | lia |].
    exists l'. split; [|done]. rewrite Hrun. f_equal.
    rewrite <- app_assoc. f_equal.
    change (seq 1 (S (S m))) with (1%nat :: seq 2 (S m)).
    rewrite fmap_cons. cbn [app]. f_equal.
    rewrite <- (seq_shift (S m) 1), map_map. apply map_ext. intros j.
    cbn [iterations incr]. lia.
Qed.

(** With no interrupt, the state of the duration timer is that of the
    Looper the loop started with, until [finish()] clears it. *)
Lemma run_loop_timer_kept (fuel : nat) :
  never_stopped iterator → timer_quiet iterator →
  ∀ l w calls,
    match run_loop fuel iterator l w calls with
    | Returns _ l' _ _ => timeout l' = None
    | Rejects _ l' _ _ => timeout l' = timeout l
    | Running l' _ _ => timeout l' = timeout l
    end.
Proof.
  intros Hstop Hquiet.
  induction fuel as [|fuel IH]; intros l w calls; cbn [run_loop];
    destruct (continueLoop l); cbv zeta; try done.
  set (r := iterator (iterations (incr l)) w).
  assert (interrupt (interrupts r) (incr l) = incr l) as Hi
    by (unfold interrupt; subst r; by rewrite Hquiet, Hstop).
  rewrite Hi. destruct (rejected r); [done|].
  apply (IH (incr l)).
Qed.

(** A loop whose world gets smaller with every iteration that fulfils ends,
    after at most as many iterations as the world allows and one more. *)
Lemma run_loop_measure (size : W → nat) :
  (∀ n w, rejected (iterator n w) = None →
          (size (world (iterator n w)) < size w)%nat) →
  ∀ fuel l w calls,
    (size w < fuel)%nat →
    match run_loop fuel iterator l w calls with
    | Running _ _ _ => False
    | Returns _ _ _ calls' | Rejects _ _ _ calls' =>
        (length calls' ≤ length calls + size w + 1)%nat
    end.
Proof.
  intros Hsize. induction fuel as [|fuel IH]; intros l w calls Hfuel; [lia|].
  cbn [run_loop]. destruct (continueLoop l); cbv zeta; [|lia].
  set (r := iterator (iterations (incr l)) w).
  pose proof (Hsize (iterations (incr l)) w) as Hr. fold r in Hr.
  destruct (rejected r) as [e|].
  - rewrite length_app. cbn. lia.
  - specialize (Hr eq_refl).
    specialize (IH (interrupt (interrupts r) (incr l)) (world r)
                   (calls ++ [iterations (incr l)]) ltac:(lia)).
    destruct (run_loop _ _ _ _ _); try done;
      rewrite length_app in IH; cbn in IH; lia.
Qed.

End LooperMore.

(** X1.  Whatever the iterator does and whenever the loop is interrupted,
    [run] numbers its invocations 1, 2, 3, ... without a gap, and the number
    it returns is the number of invocations made. *)
Theorem Looper_run_counts_invocations {W : Type} (iterator : Looper.Iterator W)
        (settings : Looper.ConcreteTestSettings) (running : bool) (w : W)
        (fuel : nat) :
  match Looper.run fuel iterator (Looper.new settings running) w with
  | Looper.Returns n l' _ calls =>
      0 ≤ n ∧ n = Looper.iterations l' ∧
      calls = firstIterations (Z.to_nat n)
  | Looper.Rejects _ l' _ calls =>
      0 < Looper.iterations l' ∧
      calls = firstIterations (Z.to_nat (Looper.iterations l'))
  | Looper.Running l' _ calls =>
      Looper.iterations l' = Z.of_nat fuel ∧ calls = firstIterations fuel
  end.
Proof.
  unfold Looper.run, firstIterations.
  pose proof (run_loop_calls iterator fuel (Looper.new settings running) w []
                ltac:(cbn; lia) ltac:(cbn; lia)) as H.
  cbn in H.
  destruct (Looper.run_loop _ _ _ _ _)
    as [n l' w' calls'|e l' w' calls'|l' w' calls'].
  - destruct H as (-> & -> & Hle & _).
    rewrite Z.sub_0_r. split; [lia|]. split; [done|].
    apply map_ext. intros j. lia.
  - destruct H as (-> & Hle & _).
    rewrite Z.sub_0_r. split; [lia|]. apply map_ext. intros j. lia.
  - destruct H as (-> & Hle & _).
    rewrite Z.add_0_l in Hle.
    rewrite Hle, Z.sub_0_r, Nat2Z.id. split; [lia|].
    apply map_ext. intros j. lia.
Qed.

(** X2.  With a loop count [N > 0] the iterator is invoked at most [N]
    times, however the loop ends: by the count, by [stop()], by the timer or
    by a rejected iteration. *)
Theorem Looper_run_at_most_loopCount {W : Type} (iterator : Looper.Iterator W)
        (settings : Looper.ConcreteTestSettings) (running : bool) (w : W)
        (fuel : nat) :
  0 < Looper.loopCount_setting settings →
  (length (calls_of (Looper.run fuel iterator (Looper.new settings running) w))
   ≤ Z.to_nat (Looper.loopCount_setting settings))%nat.
Proof.
  intros HN. unfold Looper.run.
  pose proof (run_loop_calls iterator fuel (Looper.new settings running) w []
                ltac:(cbn; lia) ltac:(cbn; lia)) as H.
  cbn in H.
  destruct (Looper.run_loop _ _ _ _ _)
    as [n l' w' calls'|e l' w' calls'|l' w' calls']; cbn.
  - destruct H as (_ & -> & Hle & Hb & _).
    rewrite length_fmap, length_seq. specialize (Hb HN). lia.
  - destruct H as (-> & Hle & Hb).
    rewrite length_fmap, length_seq. specialize (Hb HN). lia.
  - destruct H as (-> & Hle & Hb).
    rewrite length_fmap, length_seq. specialize (Hb HN). lia.
Qed.

Lemma Looper_run_at_most_loopCount_witness :
  (length (calls_of (Looper.run 10 Examples.rejecting
                       (Looper.new {| Looper.duration := 0;
                                      Looper.loopCount_setting := 3 |} true)
                       0%nat))
   ≤ Z.to_nat 3)%nat.
Proof.
  apply (Looper_run_at_most_loopCount Examples.rejecting
           {| Looper.duration := 0; Looper.loopCount_setting := 3 |}
           true 0%nat 10).
  vm_compute. reflexivity.
Defined.

(** X3.  [stop()], or the duration timer of a Looper with [duration > 0],
    takes effect before the next iteration starts: when the first such
    interrupt comes during iteration [k], [run] lets that iteration end,
    starts no other, returns [k] and leaves no timer armed.  A Looper
    made with [running = false] starts no iteration at all. *)
Theorem Looper_run_interrupted {W : Type} (iterator : Looper.Iterator W)
        (settings : Looper.ConcreteTestSettings) (w : W) :
  (∀ (k : Z) (fuel : nat),
     0 < k →
     Looper.loopCount_setting settings ≤ 0 ∨ k ≤ Looper.loopCount_setting settings →
     (∀ n w, n < k →
             cancels settings (Looper.interrupts (iterator n w)) = false) →
     (∀ w, cancels settings (Looper.interrupts (iterator k w)) = true) →
     (∀ n w, n ≤ k → Looper.rejected (iterator n w) = None) →
     (Z.to_nat k ≤ fuel)%nat →
     ∃ l',
       Looper.run fuel iterator (Looper.new settings true) w =
         Looper.Returns k l' (Looper.world_after iterator (Z.to_nat k) 0 w)
           (firstIterations (Z.to_nat k)) ∧
       Looper.cancelled l' = true ∧ Looper.timeout l' = None)
  ∧
  (∀ fuel : nat,
     Looper.run fuel iterator (Looper.new settings false) w =
       Looper.Returns 0 (Looper.finish (Looper.new settings false)) w []).
Proof.
  split.
  - intros k fuel Hk Hcount Hbefore Hat Hrej Hfuel.
    destruct (run_loop_cancelled iterator settings k (Z.to_nat k - 1)
                Hbefore Hat Hrej fuel (Looper.new settings true) w [])
      as (l' & Hrun & Hi & Hc & Ht);
      [done | done | exact Hcount | cbn; lia | lia |].
    exists l'. split; [|done]. unfold Looper.run. rewrite Hrun.
    replace (S (Z.to_nat k - 1)) with (Z.to_nat k) by lia.
    reflexivity.
  - intros fuel. unfold Looper.run. by destruct fuel.
Qed.

Lemma Looper_run_interrupted_witness :
  ∃ l',
    Looper.run 10 Examples.stoppedAtThree
      (Looper.new {| Looper.duration := 0; Looper.loopCount_setting := 0 |} true)
      0%nat
    = Looper.Returns 3 l' 3%nat [1; 2; 3] ∧
    Looper.cancelled l' = true ∧ Looper.timeout l' = None.
Proof.
  apply (proj1 (Looper_run_interrupted Examples.stoppedAtThree
                  {| Looper.duration := 0; Looper.loopCount_setting := 0 |}
                  0%nat) 3 10%nat).
  - lia.
  - left. simpl. lia.
  - intros n w Hn. unfold cancels. simpl.
    destruct (n =? 3) eqn:E; [apply Z.eqb_eq in E; lia | reflexivity].
  - intros w. reflexivity.
  - intros n w Hn. reflexivity.
  - simpl. lia.
Defined.

(** X4.  [finish()] is only reached when the loop is left by its condition:
    a [run] that returns has cleared the duration timer, but when an
    iteration rejects with [duration > 0] and the timer has not gone off,
    the timer is still armed after [run] has rejected. *)
Theorem Looper_run_timer {W : Type} (iterator : Looper.Iterator W)
        (settings : Looper.ConcreteTestSettings) (running : bool) (w : W)
        (fuel : nat) :
  0 < Looper.duration settings →
  never_stopped iterator →
  timer_quiet iterator →
  match Looper.run fuel iterator (Looper.new settings running) w with
  | Looper.Returns _ l' _ _ => Looper.timeout l' = None
  | Looper.Rejects _ l' _ _ =>
      Looper.timeout l' = Some (Looper.duration settings * 1000)
  | Looper.Running l' _ _ =>
      Looper.timeout l' = Some (Looper.duration settings * 1000)
  end.
Proof.
  intros Hd Hstop Hquiet. unfold Looper.run.
  pose proof (run_loop_timer_kept iterator fuel Hstop Hquiet
                (Looper.new settings running) w []) as H.
  assert (Looper.timeout (Looper.new settings running)
          = Some (Looper.duration settings * 1000)) as Ht.
  { cbn. by destruct (Z.ltb_spec 0 (Looper.duration settings)); [|lia]. }
  destruct (Looper.run_loop _ _ _ _ _); by rewrite <- ?Ht.
Qed.

Lemma Looper_run_timer_witness :
  match Looper.run 10 Examples.rejecting
          (Looper.new {| Looper.duration := 60; Looper.loopCount_setting := 3 |}
                      true) 0%nat with
  | Looper.Returns _ l' _ _ => Looper.timeout l' = None
  | Looper.Rejects _ l' _ _ => Looper.timeout l' = Some (60 * 1000)
  | Looper.Running l' _ _ => Looper.timeout l' = Some (60 * 1000)
  end.
Proof.
  apply (Looper_run_timer Examples.rejecting
           {| Looper.duration := 60; Looper.loopCount_setting := 3 |}
           true 0%nat 10).
  - simpl. lia.
  - intros n w. reflexivity.
  - intros n w. reflexivity.
Defined.


(** ** Hooks and single steps *)

Section HooksMore.

Import TestState Test.

(** The hooks of a list run one after the other. *)
Lemma runHookFn_app (h1 h2 : list HookBase) :
  ∀ s, runHookFn (h1 ++ h2) s = (runHookFn h1;; runHookFn h2) s.
Proof.
  induction h1 as [|hook rest IH]; intros s; [done|].
  cbn. eng_unfold.
  destruct (hook_fn hook _ _) as [[[|e]|] b1]; cbn; [|done..].
  apply IH.
Qed.

Lemma runHookFn_head (hook : HookBase) (rest : list HookBase) (s : TestState.t) :
  runHookFn (hook :: rest) s =
    match hook_fn hook (hookBrowser hook s) (testDataRecord s) with
    | (Settles Resolves, b1) => runHookFn rest (set_browser b1 s)
    | (r, b1) => (Throw (hookError r), set_browser b1 s)
    end.
Proof.
  cbn. eng_unfold. unfold hookBrowser.
  by destruct (hook_fn hook _ _) as [[[|e]|] b1].
Qed.

End HooksMore.

(** X5.  The hooks of a list run in order and the first one that rejects, or
    is still pending when its timer goes off, ends the list: [runHookFn]
    throws a bare [Error] made of what that hook threw (of nothing, for the
    timer), and the hooks after it have no effect. *)
Theorem runHookFn_stops_at_first_failure
        (before : list HookBase) (hook : HookBase) (rest : list HookBase)
        (s s1 : TestState.t) (r : Raced) (b1 : Browser.t) :
  Test.runHookFn before s = (Normal tt, s1) →
  hook_fn hook (hookBrowser hook s1) (TestState.testDataRecord s1) = (r, b1) →
  r ≠ Settles Resolves →
  Test.runHookFn (before ++ hook :: rest) s
    = (Throw (hookError r), TestState.set_browser b1 s1)
  ∧ JsError._structured (hookError r) = false.
Proof.
  intros Hbefore Hhook Hr. split.
  - rewrite runHookFn_app. unfold mbind, eng_bind. rewrite Hbefore.
    rewrite runHookFn_head, Hhook.
    by destruct r as [[|e]|].
  - by destruct r as [[|e]|].
Qed.

Lemma runHookFn_stops_at_first_failure_witness :
  Test.runHookFn ([] ++ Examples.timesOut :: [Examples.marks])
                 Examples.scenarioA
    = (Throw (hookError Pends),
       TestState.set_browser
         (hookBrowser Examples.timesOut Examples.scenarioA)
         Examples.scenarioA)
  ∧ JsError._structured (hookError Pends) = false.
Proof.
  apply (runHookFn_stops_at_first_failure [] Examples.timesOut
           [Examples.marks] Examples.scenarioA Examples.scenarioA Pends
           (hookBrowser Examples.timesOut Examples.scenarioA)).
  - vm_compute. reflexivity.
  - vm_compute. reflexivity.
  - discriminate.
Defined.

(** X6.  [runHookFn] gives the browser a copy of the global settings with
    the wait timeout of the hook, and does not take it back: after hooks
    that resolve and leave the settings alone, the settings of the browser
    are the global settings with the wait timeout of the last hook. *)
Theorem runHookFn_leaves_waitTimeout (hooks : list HookBase)
        (final : HookBase) (s : TestState.t) :
  Forall keeps_settings hooks →
  last hooks = Some final →
  ∃ s',
    Test.runHookFn hooks s = (Normal tt, s') ∧
    Browser.settings (TestState.browser s')
      = <["waitTimeout" := VNum (waitTimeout final)]> (TestState.settings s) ∧
    s' = TestState.set_browser (TestState.browser s') s.
Proof.
  revert s. induction hooks as [|hook rest IH]; intros s Hall Hlast; [done|].
  apply Forall_cons in Hall as [Hhook Hrest].
  rewrite runHookFn_head.
  destruct (Hhook (hookBrowser hook s) (TestState.testDataRecord s))
    as [Hres Hset].
  destruct (hook_fn hook _ _) as [r b1]. cbn in Hres, Hset. subst r.
  destruct rest as [|hook2 rest].
  - injection Hlast as <-. eexists. split; [done|]. split; [|by destruct s].
    cbn. by rewrite Hset.
  - destruct (IH (TestState.set_browser b1 s) Hrest Hlast)
      as (s' & Hrun & Hs' & Hframe).
    exists s'. split; [done|]. split; [done|].
    rewrite Hframe at 1. by destruct s.
Qed.

Lemma runHookFn_leaves_waitTimeout_witness :
  ∃ s',
    Test.runHookFn [Examples.marks] Examples.scenarioA = (Normal tt, s') ∧
    Browser.settings (TestState.browser s')
      = <["waitTimeout" := VNum (waitTimeout Examples.marks)]>
          (TestState.settings Examples.scenarioA) ∧
    s' = TestState.set_browser (TestState.browser s') Examples.scenarioA.
Proof.
  apply (runHookFn_leaves_waitTimeout [Examples.marks] Examples.marks
           Examples.scenarioA).
  - constructor; [|constructor]. intros b d. split; reflexivity.
  - reflexivity.
Defined.



(** ** The callback of the traversal *)

(** X8.  A step that does not get through the gates of the callback is not
    run, and the afterEach hooks are not run for it, although the beforeEach
    hooks have been.  A step turned away by [callCondition] gets the one row
    [summarizeStepBeforeRun] writes, if any; a step whose predicate is false
    leaves no row at all. *)
Theorem executor_bypasses_gated_step (recoveryLimit : Z → nat) (iteration : Z)
        (i : nat) (step : Step.t) (s s1 : TestState.t) :
  Test.runHookFn (beforeEach (hook (TestState.script s))) (atBeforeEach s)
    = (Normal tt, s1) →
  StepIterator.callCondition step iteration (TestState.browser s1)
    && predicateHolds step (TestState.browser s1) = false →
  Test.executor recoveryLimit iteration i step s =
    (Normal tt,
     if StepIterator.callCondition step iteration (TestState.browser s1) then
       TestState.set_events
         (TestState.events s1 ++ [Debug "condition failing"]) s1
     else
       TestState.set_summaryStep
         (TestState.summaryStep s1 ++ turnedAwayRows step iteration) s1).
Proof.
  intros Hhooks Hgate.
  unfold Test.executor, atBeforeEach in *. eng_unfold. cbn in *.
  rewrite Hhooks. cbn.
  destruct (StepIterator.callCondition step iteration (TestState.browser s1));
    cbn in *.
  - unfold predicateHolds in Hgate.
    destruct (Step.predicate (Step.options step)) as [p|]; [|done].
    by rewrite Hgate.
  - unfold Test.summarizeStepBeforeRun, turnedAwayRows. eng_unfold.
    destruct (Step.pending (Step.options step)
              || Step.once (Step.options step) && (1 <? iteration)); [done|].
    destruct (Step.skip (Step.options step)); [done|].
    cbn. rewrite app_nil_r. by destruct s1.
Qed.

Lemma executor_bypasses_gated_step_witness :
  Test.executor Examples.oneTry 2 0%nat Examples.onlyOnce Examples.scenarioA =
    (Normal tt,
     if StepIterator.callCondition Examples.onlyOnce 2
          (TestState.browser (atBeforeEach Examples.scenarioA)) then
       TestState.set_events
         (TestState.events (atBeforeEach Examples.scenarioA)
          ++ [Debug "condition failing"]) (atBeforeEach Examples.scenarioA)
     else
       TestState.set_summaryStep
         (TestState.summaryStep (atBeforeEach Examples.scenarioA)
          ++ turnedAwayRows Examples.onlyOnce 2)
         (atBeforeEach Examples.scenarioA)).
Proof.
  apply (executor_bypasses_gated_step Examples.oneTry 2 0%nat
           Examples.onlyOnce Examples.scenarioA
           (atBeforeEach Examples.scenarioA)).
  - vm_compute. reflexivity.
  - vm_compute. reflexivity.
Defined.

(** ** What an iteration never does *)

#[export] Instance orderly_preorder : PreOrder orderly.
Proof.
  split.
  - by intros s.
  - intros s1 s2 s3 [[? ?] [? ?]] [[? ?] [? ?]].
    repeat split; try (by etrans); congruence.
Qed.

Lemma fmap_alter_same {A B} (g : A → B) (f : A → A) (i : nat) (l : list A) :
  (∀ x, g (f x) = g x) → g <$> alter f i l = g <$> l.
Proof.
  intros Hf. revert i. induction l as [|x l IH]; intros [|i]; cbn; try done.
  - by rewrite Hf.
  - f_equal. apply IH.
Qed.

Lemma identity_afterVisit (step : Step.t) :
  identity (afterVisit step) = identity step.
Proof.
  unfold afterVisit, identity.
  by destruct (Step.repeat (Step.options step)) eqn:E; cbn; rewrite ?E.
Qed.

(** State updates that add a row or an event, or rewrite the scratch of a
    step. *)
Ltac orderly_prim :=
  split; split; cbn;
  first
    [ done
    | by apply prefix_app_r
    | by apply fmap_alter_same ].

Section EngineOrder.

Import TestState Test.

Variable recoveryLimit : Z → nat.

Lemma runHookFn_orderly (hooks : list HookBase) :
  respects orderly (runHookFn hooks).
Proof. intros s. rewrite runHookFn_frame. orderly_prim. Qed.

Lemma summarizeStepBeforeRun_orderly step iteration :
  respects orderly (summarizeStepBeforeRun step iteration).
Proof. unfold summarizeStepBeforeRun. respects_go orderly_prim. Qed.

Lemma doStepDelay_orderly : respects orderly doStepDelay.
Proof. unfold doStepDelay. respects_go orderly_prim. Qed.

Lemma runStep_enter_orderly i step : respects orderly (runStep_enter i step).
Proof. unfold runStep_enter. respects_go orderly_prim. Qed.

Hint Resolve runHookFn_orderly summarizeStepBeforeRun_orderly
  doStepDelay_orderly runStep_enter_orderly : respects_db.

Lemma runStep_settled_orderly i step original how :
  respects orderly (runStep_settled i step original how).
Proof. unfold runStep_settled. respects_go orderly_prim. Qed.

Hint Resolve runStep_settled_orderly : respects_db.

Lemma runStep_orderly i step : respects orderly (runStep i step).
Proof. unfold runStep. respects_go orderly_prim. Qed.

Hint Resolve runStep_orderly : respects_db.

Lemma race_runStep_orderly i step : respects orderly (race_runStep i step).
Proof. unfold race_runStep. respects_go orderly_prim. Qed.

Lemma recoveryAttempts_orderly tries i seq :
  respects orderly (StepIterator.recoveryAttempts tries i seq).
Proof. induction tries as [|tries IH]; cbn; respects_go orderly_prim. Qed.

Hint Resolve race_runStep_orderly recoveryAttempts_orderly : respects_db.

Lemma callRecovery_orderly i step tries :
  respects orderly (StepIterator.callRecovery recoveryLimit i step tries).
Proof. unfold StepIterator.callRecovery. respects_go orderly_prim. Qed.

Hint Resolve callRecovery_orderly : respects_db.

Lemma afterRace_orderly i step :
  respects orderly (afterRace recoveryLimit i step).
Proof. unfold afterRace. respects_go orderly_prim. Qed.

Hint Resolve afterRace_orderly : respects_db.

Lemma executor_orderly iteration i step :
  respects orderly (executor recoveryLimit iteration i step).
Proof. unfold executor. respects_go orderly_prim. Qed.

Hint Resolve executor_orderly : respects_db.

Lemma run_loop_orderly iteration n :
  respects orderly (StepIterator.run_loop n (executor recoveryLimit iteration)).
Proof. induction n as [|n IH]; cbn; respects_go orderly_prim. Qed.

Hint Resolve run_loop_orderly : respects_db.

Lemma summarizeStepAfterStopRunning_orderly :
  respects orderly summarizeStepAfterStopRunning.
Proof.
  intros s. rewrite summarizeStepAfterStopRunning_closed.
  split; split; cbn; try done; [by apply prefix_app_r|].
  unfold unreached.
  rewrite fmap_app, <- list_fmap_compose.
  rewrite (list_fmap_ext (identity ∘ afterVisit) identity)
    by (intros; apply identity_afterVisit).
  by rewrite <- fmap_app, take_drop.
Qed.

Hint Resolve summarizeStepAfterStopRunning_orderly : respects_db.

Lemma runWithCancellation_orderly iteration :
  respects orderly (runWithCancellation recoveryLimit iteration).
Proof.
  unfold runWithCancellation, setup, tryBlock, beforeSteps, directives, feed,
    catchBlock, finallyBlock, afterRunSteps, StepIterator.run.
  respects_go orderly_prim.
Qed.

Lemma run_orderly iteration :
  respects orderly (run recoveryLimit iteration).
Proof.
  unfold run. apply respects_bind; [apply _| |intros ?].
  - apply respects_modify. intros s. orderly_prim.
  - apply runWithCancellation_orderly.
Qed.

End EngineOrder.

(** X9.  An iteration only ever adds to the summary and to the calls made to
    the collaborators: [run] resets neither, so the rows of an iteration
    follow those of the iterations before it until [resetSummarizeStep] is
    called. *)
Theorem run_only_appends (recoveryLimit : Z → nat) (iteration : option Z)
        (s : TestState.t) :
  grows s (snd (Test.run recoveryLimit iteration s)).
Proof. apply run_orderly. Qed.

(** X10.  Whatever happens in an iteration, the engine leaves the steps the
    steps they are: their number and order, their names, bodies and options
    and the count of a repeat descriptor do not change; the hooks and the
    recovery steps stay as well.  All the engine writes to a step is its
    scratch record [prop] and [repeat.iteration]. *)
Theorem run_keeps_the_steps (recoveryLimit : Z → nat) (iteration : option Z)
        (s : TestState.t) :
  script_kept s (snd (Test.run recoveryLimit iteration s)).
Proof. apply run_orderly. Qed.

(** ** The [failed] flag *)

#[export] Instance flag_kept_preorder : PreOrder flag_kept.
Proof.
  split; [by intros s|]. intros s1 s2 s3 H1 H2. unfold flag_kept in *.
  congruence.
Qed.

Ltac flag_prim := unfold flag_kept; cbn; done.

Section EngineFlag.

Import TestState Test.

Variable recoveryLimit : Z → nat.

Lemma runHookFn_flag (hooks : list HookBase) :
  respects flag_kept (runHookFn hooks).
Proof. intros s. rewrite runHookFn_frame. flag_prim. Qed.

Lemma summarizeStepBeforeRun_flag step iteration :
  respects flag_kept (summarizeStepBeforeRun step iteration).
Proof. unfold summarizeStepBeforeRun. respects_go flag_prim. Qed.

Lemma doStepDelay_flag : respects flag_kept doStepDelay.
Proof. unfold doStepDelay. respects_go flag_prim. Qed.

Lemma runStep_enter_flag i step : respects flag_kept (runStep_enter i step).
Proof. unfold runStep_enter. respects_go flag_prim. Qed.

Lemma recoveryAttempts_flag tries i seq :
  respects flag_kept (StepIterator.recoveryAttempts tries i seq).
Proof. induction tries as [|tries IH]; cbn; respects_go flag_prim. Qed.

Hint Resolve runHookFn_flag summarizeStepBeforeRun_flag doStepDelay_flag
  runStep_enter_flag recoveryAttempts_flag : respects_db.

Lemma callRecovery_flag i step tries :
  respects flag_kept (StepIterator.callRecovery recoveryLimit i step tries).
Proof. unfold StepIterator.callRecovery. respects_go flag_prim. Qed.

Lemma beforeSteps_flag : respects flag_kept beforeSteps.
Proof. unfold beforeSteps, directives, feed. respects_go flag_prim. Qed.

Lemma summarizeStepAfterStopRunning_flag :
  respects flag_kept summarizeStepAfterStopRunning.
Proof. intros s. by rewrite summarizeStepAfterStopRunning_closed. Qed.

Hint Resolve callRecovery_flag beforeSteps_flag
  summarizeStepAfterStopRunning_flag : respects_db.

Lemma finallyBlock_flag : respects flag_kept finallyBlock.
Proof. unfold finallyBlock, afterRunSteps. respects_go flag_prim. Qed.

(** *** Normal completion leaves the flag down *)

Lemma clean_exit_kept {A} (m : Eng A) : respects flag_kept m → clean_exit m.
Proof.
  intros Hm s Hs. specialize (Hm s). unfold flag_kept in Hm.
  destruct (m s) as [[a|e] s']; [|done]. cbn in Hm. congruence.
Qed.

Lemma clean_exit_bind {A B} (m : Eng A) (f : A → Eng B) :
  clean_exit m → (∀ a, clean_exit (f a)) → clean_exit (m ≫= f).
Proof.
  intros Hm Hf s Hs. unfold mbind, eng_bind. specialize (Hm s Hs).
  destruct (m s) as [[a|e] s1]; [|done]. by apply Hf.
Qed.

(** The race ends normally; with the flag up, the step body has settled and
    no cancellation is requested. *)
Lemma race_runStep_flag (i : nat) (step : Step.t) (s : TestState.t) :
  ∃ s', race_runStep i step s = (Normal tt, s') ∧
        (isCancellationRequested s' = true → failed s' = failed s).
Proof.
  unfold race_runStep. eng_unfold.
  destruct (isCancellationRequested s) eqn:Hc; [by eexists|].
  pose proof (runStep_enter_flag i step s) as Henter.
  unfold runStep. unfold mbind at 1. unfold eng_bind.
  rewrite runStep_enter_closed in *. eng_unfold. cbn [fst snd] in *.
  destruct (Step.fn step _ _) as [[how|] b1]; cbn.
  - assert (∃ s', runStep_settled i step (Browser.settings (browser s)) how
                    (set_browser b1 (enteredStep i step s)) = (Normal tt, s')
                  ∧ isCancellationRequested s' = false) as (s' & -> & Hs').
    { unfold runStep_settled, doStepDelay. eng_unfold.
      destruct how as [|error]; cbn; [|by eexists].
      destruct (prop_get (settings s) "stepDelay") as [| |stepDelay|]; cbn;
        try by eexists.
      destruct (failed s || (stepDelay <=? 0)); cbn; by eexists. }
    exists s'. split; [done|]. by rewrite Hs'.
  - eexists. split; [done|]. intros _. apply Henter.
Qed.

Lemma afterRace_flag (i : nat) (step : Step.t) (s : TestState.t) :
  match afterRace recoveryLimit i step s with
  | (Normal _, s') =>
      failed s' = false ∨ (isCancellationRequested s = true ∧ s' = s)
  | (Throw _, _) => True
  end.
Proof.
  unfold afterRace. eng_unfold.
  destruct (isCancellationRequested s) eqn:Hc; [by right|].
  destruct (failed s) eqn:Hf; cbn.
  - destruct (StepIterator.callRecovery _ _ _ _ _) as [[[|]|e] sr]; cbn;
      try done.
    pose proof (runHookFn_flag (afterEach (hook (script sr)))
                  (set_events
                     (events sr ++ [Debug "running hook function: afterEach"])
                     (set_failed false sr))) as Hhooks.
    destruct (runHookFn _ _) as [[[]|e] s']; [|done]. by left.
  - pose proof (runHookFn_flag (afterEach (hook (script s)))
                  (set_events
                     (events s ++ [Debug "running hook function: afterEach"])
                     s)) as Hhooks.
    destruct (runHookFn _ _) as [[[]|e] s']; [|done].
    left. unfold flag_kept in Hhooks. cbn in Hhooks. congruence.
Qed.

Lemma executor_clean iteration i step :
  clean_exit (executor recoveryLimit iteration i step).
Proof.
  intros s Hs. unfold executor. eng_unfold. cbn.
  pose proof (runHookFn_flag (beforeEach (hook (script s)))
                (set_events
                   (events s ++ [Debug "running hook function: beforeEach"])
                   s)) as Hhooks.
  destruct (runHookFn _ _) as [[[]|e] s1]; [|done].
  unfold flag_kept in Hhooks. cbn in Hhooks. cbn.
  destruct (StepIterator.callCondition step iteration (browser s1)); cbn.
  - destruct (match Step.predicate (Step.options step) with
              | Some p => StepIterator.callPredicate p (browser s1)
              | None => true
              end); cbn; [|congruence].
    destruct (race_runStep_flag i step
                (set_browser
                   (Browser.set_customContext (Some (Step.name step))
                                              (browser s1)) s1))
      as (s2 & -> & Hrace).
    pose proof (afterRace_flag i step s2) as Hafter.
    destruct (afterRace _ _ _ _) as [[[]|e] s3]; [|done].
    destruct Hafter as [|[Hc ->]]; [done|].
    rewrite (Hrace Hc). cbn. congruence.
  - pose proof (summarizeStepBeforeRun_flag step iteration s1) as Hsum.
    destruct (summarizeStepBeforeRun _ _ _) as [[[]|e] s2]; [|done].
    unfold flag_kept in Hsum. cbn in Hsum. congruence.
Qed.

Lemma run_loop_clean iteration (n : nat) :
  clean_exit (StepIterator.run_loop n (executor recoveryLimit iteration)).
Proof.
  induction n as [|n IH]; intros s Hs; cbn; [done|].
  eng_unfold.
  destruct (steps s !! stepCount s) as [step|]; [|done].
  pose proof (executor_clean iteration (stepCount s) step
                (set_stepCount (S (stepCount s)) s) Hs) as Hex.
  destruct (executor _ _ _ _ _) as [[[]|e] s1]; [|done].
  by apply IH.
Qed.

Lemma tryBlock_clean iteration : clean_exit (tryBlock recoveryLimit iteration).
Proof.
  unfold tryBlock. apply clean_exit_bind.
  - apply clean_exit_kept, beforeSteps_flag.
  - intros []. unfold StepIterator.run. intros s Hs. eng_unfold.
    by apply run_loop_clean.
Qed.

End EngineFlag.



(** ** Whole iterations *)

Section Iterations.

Import TestState Test.

Variable recoveryLimit : Z → nat.

Lemma runHookFn_resolving (hooks : list HookBase) :
  Forall resolving hooks →
  ∀ s, ∃ b', runHookFn hooks s = (Normal tt, set_browser b' s).
Proof.
  induction 1 as [|hook rest Hhook _ IH]; intros s.
  - exists (browser s). by destruct s.
  - rewrite runHookFn_head.
    specialize (Hhook (hookBrowser hook s) (testDataRecord s)).
    destruct (hook_fn hook _ _) as [r b1]. cbn in Hhook. subst r.
    destruct (IH (set_browser b1 s)) as [b' ->]. exists b'. by destruct s.
Qed.

Lemma directives_closed (s : TestState.t) :
  ∃ evs, Forall isDirective evs ∧
         directives s = (Normal tt, set_events (events s ++ evs) s).
Proof.
  set (setting := prop_get (settings s)).
  exists ((if truthy (setting "clearCache") then [ClearBrowserCache] else [])
          ++ (if truthy (setting "clearCookies") then [ClearBrowserCookies]
              else [])
          ++ (if truthy (setting "device") then [EmulateDevice (setting "device")]
              else [])
          ++ (if truthy (setting "userAgent")
              then [SetUserAgent (setting "userAgent")] else [])
          ++ (if truthy (setting "disableCache") then [SetCacheDisabled true]
              else [])
          ++ (if truthy (setting "extraHTTPHeaders")
              then [SetExtraHTTPHeaders (setting "extraHTTPHeaders")]
              else [])).
  split.
  - repeat (apply Forall_app; split);
      match goal with |- Forall _ (if ?b then _ else _) => destruct b end;
      by repeat constructor.
  - unfold directives. eng_unfold. fold setting.
    destruct (truthy (setting "clearCache"));
      destruct (truthy (setting "clearCookies"));
      destruct (truthy (setting "device"));
      destruct (truthy (setting "userAgent"));
      destruct (truthy (setting "disableCache"));
      destruct (truthy (setting "extraHTTPHeaders")); cbn;
      rewrite <- ?app_assoc, ?app_nil_r; by destruct s.
Qed.

Lemma beforeSteps_closed (s : TestState.t) :
  ∃ evs, Forall isDirective evs ∧
    beforeSteps s =
      let before :=
        events s ++ evs
        ++ [Debug "running this.before(browser)"; ObserverBefore;
            Debug "Feeding data"] in
      match testData s with
      | [] => (Throw dataExhausted, set_events before s)
      | record :: rest =>
          (runHookFn (beforeAll (hook (script s)));;
           log (Debug "running steps"))
            (set_events
               (before ++ [DebugRecord record;
                           Debug "running hook function: beforeAll"])
               (set_testDataRecord (Some record) (set_testData rest s)))
      end.
Proof.
  destruct (directives_closed s) as (evs & Hevs & Hdir).
  exists evs. split; [done|].
  unfold beforeSteps. unfold mbind at 1. unfold eng_bind. rewrite Hdir.
  unfold feed. eng_unfold. cbn.
  destruct (testData s) as [|record rest]; cbn.
  - rewrite <- !app_assoc. done.
  - rewrite <- !app_assoc. cbn. done.
Qed.

End Iterations.

(** X12.  An iteration that finds the feed of test data exhausted throws
    before any hook or step is run, with the [failed] flag up.  The browser
    has been prepared and the observer told [before]; the cleanup runs, so
    every step gets the rows of a step that was not reached.  What is thrown
    is the "Test data exhausted" error, unless an afterAll hook fails. *)
Theorem exhausted_data_aborts (recoveryLimit : Z → nat) (iteration : Z)
        (s0 : TestState.t) :
  TestState.testData s0 = [] →
  ∃ e evs,
    fst (Test.runWithCancellation recoveryLimit iteration s0) = Throw e ∧
    (Forall resolving (afterAll (hook (TestState.script s0))) →
     e = dataExhausted) ∧
    TestState.failed (snd (Test.runWithCancellation recoveryLimit iteration s0))
      = true ∧
    TestState.summaryStep
      (snd (Test.runWithCancellation recoveryLimit iteration s0))
      = TestState.summaryStep s0
        ++ flat_map unexecutedRows (TestState.steps s0) ∧
    Forall isDirective evs ∧
    TestState.events (snd (Test.runWithCancellation recoveryLimit iteration s0))
      = TestState.events s0 ++ openingEvents s0 evs ++ closingEvents.
Proof.
  intros Hdata.
  rewrite runWithCancellation_blocks. unfold try_catch, Test.tryBlock.
  unfold mbind, eng_bind.
  destruct (beforeSteps_closed (setupState s0)) as (evs & Hevs & ->).
  cbn zeta. change (TestState.testData (setupState s0)) with (TestState.testData s0).
  rewrite Hdata. unfold Test.catchBlock. eng_unfold.
  set (sx := TestState.set_failed true _).
  pose proof (runHookFn_frame
                (afterAll (hook (TestState.script (cleanedUp sx))))
                (cleanedUp sx)) as Hframe.
  pose proof (runHookFn_resolving
                (afterAll (hook (TestState.script (cleanedUp sx))))) as Hres.
  destruct (Test.runHookFn _ _) as [r3 s4] eqn:Hhooks. cbn [fst snd] in *.
  exists (match r3 with Normal _ => dataExhausted | Throw e => e end), evs.
  split; [by destruct r3|]. split.
  { intros Hall. destruct (Hres Hall (cleanedUp sx)) as [b' Hb'].
    rewrite Hhooks in Hb'. by injection Hb' as -> _. }
  rewrite Hframe. subst sx. cbn. unfold unreached. cbn.
  split; [done|]. split; [done|]. split; [done|].
  unfold openingEvents, closingEvents. by rewrite <- !app_assoc.
Qed.

Lemma exhausted_data_aborts_witness :
  ∃ e evs,
    fst (Test.runWithCancellation Examples.oneTry 1 Examples.exhausted)
      = Throw e ∧
    (Forall resolving (afterAll (hook (TestState.script Examples.exhausted))) →
     e = dataExhausted) ∧
    TestState.failed
      (snd (Test.runWithCancellation Examples.oneTry 1 Examples.exhausted))
      = true ∧
    TestState.summaryStep
      (snd (Test.runWithCancellation Examples.oneTry 1 Examples.exhausted))
      = TestState.summaryStep Examples.exhausted
        ++ flat_map unexecutedRows (TestState.steps Examples.exhausted) ∧
    Forall isDirective evs ∧
    TestState.events
      (snd (Test.runWithCancellation Examples.oneTry 1 Examples.exhausted))
      = TestState.events Examples.exhausted
        ++ openingEvents Examples.exhausted evs ++ closingEvents.
Proof.
  apply (exhausted_data_aborts Examples.oneTry 1 Examples.exhausted).
  vm_compute. reflexivity.
Defined.

(** ** An iteration in which nothing fails *)

#[export] Instance feed_kept_preorder : PreOrder feed_kept.
Proof.
  split; [by intros s|]. intros s1 s2 s3 [? ?] [? ?]. split; congruence.
Qed.

Ltac feed_prim := split; cbn; done.

Lemma plain_identity (a b : Step.t) :
  identity a = identity b → plain a ∧ passes a → plain b ∧ passes b.
Proof.
  unfold identity, plain, passes.
  intros [= Hname Hfn Hskip Hpending Honce Hpred Hcond Hrep Hover].
  intros [(? & ? & ? & ? & ? & Hnone) Hpass].
  rewrite <- Hfn, <- Hskip, <- Hpending, <- Honce, <- Hpred, <- Hcond.
  repeat split; try done.
  rewrite Hnone in Hrep. by destruct (Step.repeat (Step.options b)).
Qed.

Lemma Forall_identity (l1 l2 : list Step.t) :
  identity <$> l1 = identity <$> l2 →
  Forall (λ step, plain step ∧ passes step) l1 →
  Forall (λ step, plain step ∧ passes step) l2.
Proof.
  revert l2. induction l1 as [|a l1 IH]; intros [|b l2] Heq Hall; try done.
  apply Forall_cons in Hall as [Ha Hl1].
  rewrite !fmap_cons in Heq.
  assert (identity a = identity b) as Hhead by congruence.
  assert (identity <$> l1 = identity <$> l2) as Htail by congruence.
  constructor.
  - by apply (plain_identity a b).
  - by apply IH.
Qed.

Lemma passedRows_identity (l1 l2 : list Step.t) :
  identity <$> l1 = identity <$> l2 → passedRows l1 = passedRows l2.
Proof.
  revert l2. induction l1 as [|a l1 IH]; intros [|b l2] Heq; try done.
  rewrite !fmap_cons in Heq.
  assert (identity a = identity b) as Hhead by congruence.
  assert (identity <$> l1 = identity <$> l2) as Htail by congruence.
  unfold identity in Hhead. injection Hhead as Hname _.
  unfold passedRows. rewrite !fmap_cons. unfold Test.row at 1 3.
  rewrite Hname. f_equal. by apply IH.
Qed.

Section HappyPath.

Import TestState Test.

Variable recoveryLimit : Z → nat.

Lemma runHookFn_feed (hooks : list HookBase) :
  respects feed_kept (runHookFn hooks).
Proof. intros s. rewrite runHookFn_frame. feed_prim. Qed.

Lemma summarizeStepBeforeRun_feed step iteration :
  respects feed_kept (summarizeStepBeforeRun step iteration).
Proof. unfold summarizeStepBeforeRun. respects_go feed_prim. Qed.

Lemma doStepDelay_feed : respects feed_kept doStepDelay.
Proof. unfold doStepDelay. respects_go feed_prim. Qed.

Lemma runStep_enter_feed i step : respects feed_kept (runStep_enter i step).
Proof. unfold runStep_enter. respects_go feed_prim. Qed.

Hint Resolve runHookFn_feed summarizeStepBeforeRun_feed doStepDelay_feed
  runStep_enter_feed : respects_db.

Lemma runStep_settled_feed i step original how :
  respects feed_kept (runStep_settled i step original how).
Proof. unfold runStep_settled. respects_go feed_prim. Qed.

Hint Resolve runStep_settled_feed : respects_db.

Lemma runStep_feed i step : respects feed_kept (runStep i step).
Proof. unfold runStep. respects_go feed_prim. Qed.

Hint Resolve runStep_feed : respects_db.

Lemma race_runStep_feed i step : respects feed_kept (race_runStep i step).
Proof. unfold race_runStep. respects_go feed_prim. Qed.

Lemma recoveryAttempts_feed tries i seq :
  respects feed_kept (StepIterator.recoveryAttempts tries i seq).
Proof. induction tries as [|tries IH]; cbn; respects_go feed_prim. Qed.

Hint Resolve race_runStep_feed recoveryAttempts_feed : respects_db.

Lemma callRecovery_feed i step tries :
  respects feed_kept (StepIterator.callRecovery recoveryLimit i step tries).
Proof. unfold StepIterator.callRecovery. respects_go feed_prim. Qed.

Hint Resolve callRecovery_feed : respects_db.

Lemma afterRace_feed i step :
  respects feed_kept (afterRace recoveryLimit i step).
Proof. unfold afterRace. respects_go feed_prim. Qed.

Hint Resolve afterRace_feed : respects_db.

Lemma executor_feed iteration i step :
  respects feed_kept (executor recoveryLimit iteration i step).
Proof. unfold executor. respects_go feed_prim. Qed.

Hint Resolve executor_feed : respects_db.

Lemma run_loop_feed iteration n :
  respects feed_kept
    (StepIterator.run_loop n (executor recoveryLimit iteration)).
Proof. induction n as [|n IH]; cbn; respects_go feed_prim. Qed.

Lemma finallyBlock_feed : respects feed_kept finallyBlock.
Proof.
  intros s. rewrite finallyBlock_closed, runHookFn_frame. feed_prim.
Qed.

(** A step body that fulfils: [runStep] returns, with a PASSED row. *)
Lemma runStep_passes (i : nat) (step : Step.t) (s : TestState.t) :
  passes step →
  ∃ s', runStep i step s = (Normal true, s') ∧
        summaryStep s' = summaryStep s ++ [row step PASSED] ∧
        isCancellationRequested s' = isCancellationRequested s ∧
        failed s' = failed s ∧ script s' = script s.
Proof.
  intros Hpass. unfold runStep. unfold mbind at 1. unfold eng_bind.
  rewrite runStep_enter_closed. eng_unfold. cbn [fst snd].
  specialize (Hpass (browser (enteredStep i step s))
                    (testDataRecord (enteredStep i step s))).
  destruct (Step.fn step _ _) as [r b1]. cbn in Hpass. subst r.
  unfold runStep_settled, doStepDelay. eng_unfold. cbn.
  destruct (prop_get (settings s) "stepDelay") as [| |stepDelay|]; cbn;
    try by eexists.
  destruct (failed s || (stepDelay <=? 0)); cbn; by eexists.
Qed.

Lemma executor_passes (iteration : Z) (i : nat) (step : Step.t)
      (s : TestState.t) :
  plain step → passes step →
  Forall resolving (beforeEach (hook (script s))) →
  Forall resolving (afterEach (hook (script s))) →
  failed s = false →
  isCancellationRequested s = false →
  ∃ s', executor recoveryLimit iteration i step s = (Normal tt, s') ∧
        summaryStep s' = summaryStep s ++ [row step PASSED] ∧
        isCancellationRequested s' = false.
Proof.
  intros (Hskip & Hpending & Honce & Hpred & Hcond & Hrep) Hpass
         Hbefore Hafter Hfailed Hcancel.
  unfold executor. eng_unfold. cbn.
  destruct (runHookFn_resolving _ Hbefore
              (set_events
                 (events s ++ [Debug "running hook function: beforeEach"]) s))
    as [b' ->]. cbn.
  unfold StepIterator.callCondition.
  rewrite Hskip, Hpending, Honce, Hpred, Hcond. cbn.
  unfold race_runStep. eng_unfold. cbn. rewrite Hcancel.
  match goal with
  | |- context [runStep i step ?s1] =>
      destruct (runStep_passes i step s1 Hpass)
        as (s2 & -> & Hrows & Hc & Hf & Hscript)
  end.
  cbn in Hrows, Hc, Hf, Hscript. rewrite Hcancel in Hc. rewrite Hfailed in Hf.
  unfold afterRace. eng_unfold. rewrite Hc, Hf. cbn.
  rewrite Hscript.
  destruct (runHookFn_resolving _ Hafter
              (set_events
                 (events s2 ++ [Debug "running hook function: afterEach"]) s2))
    as [b2 ->].
  eexists. split; [done|]. by cbn.
Qed.

Lemma run_loop_passes iteration (n : nat) :
  ∀ s,
    Forall (λ step, plain step ∧ passes step) (steps s) →
    all_resolving (hook (script s)) →
    failed s = false →
    isCancellationRequested s = false →
    ∃ s', StepIterator.run_loop n (executor recoveryLimit iteration) s
            = (Normal tt, s') ∧
          summaryStep s'
            = summaryStep s
              ++ passedRows (take n (drop (stepCount s) (steps s))) ∧
          isCancellationRequested s' = false.
Proof.
  induction n as [|n IH]; intros s Hsteps Hhooks Hfailed Hcancel.
  - exists s. cbn. by rewrite app_nil_r.
  - cbn [StepIterator.run_loop]. eng_unfold.
    destruct (steps s !! stepCount s) as [step|] eqn:Hstep; last first.
    { exists s. apply lookup_ge_None in Hstep.
      rewrite drop_ge by lia. cbn. by rewrite app_nil_r. }
    pose proof (proj1 (Forall_lookup _ _) Hsteps _ _ Hstep) as [Hplain Hpass].
    destruct Hhooks as (HbA & HaA & HbE & HaE).
    set (sh := set_stepCount (S (stepCount s)) s).
    destruct (executor_passes iteration (stepCount s) step sh Hplain Hpass
                HbE HaE Hfailed Hcancel) as (s1 & Hex & Hrows & Hc1).
    pose proof (executor_clean recoveryLimit iteration (stepCount s) step sh
                  Hfailed) as Hclean.
    pose proof (executor_orderly recoveryLimit iteration (stepCount s) step sh)
      as [_ [Hid Hscript]].
    pose proof (executor_cursor recoveryLimit iteration (stepCount s) step sh)
      as (Hcount & _ & _).
    rewrite Hex in *. cbn in Hclean, Hid, Hscript, Hcount, Hrows.
    destruct (IH s1) as (s' & Hrun & Hrows' & Hc'); try done.
    { apply (Forall_identity (steps s)); done. }
    { by rewrite Hscript. }
    exists s'. split; [done|]. split; [|done].
    rewrite Hrows', Hrows, Hcount, <- app_assoc. f_equal.
    rewrite (drop_S _ _ _ Hstep). cbn. f_equal.
    apply passedRows_identity.
    by rewrite !fmap_take, !fmap_drop, Hid.
Qed.

End HappyPath.

(** X13.  An iteration in which nothing goes wrong: the feed has a record,
    every hook resolves, every step is a plain step whose body fulfils.
    Then [run] returns, it has added one PASSED row for every step, in
    declared order, and nothing else to the summary, the [failed] flag is
    down, and the first record of the feed has been taken. *)
Theorem iteration_without_failures (recoveryLimit : Z → nat)
        (iteration : option Z) (s : TestState.t)
        (record : JsObject) (rest : list JsObject) :
  Forall (λ step, plain step ∧ passes step) (TestState.steps s) →
  all_resolving (hook (TestState.script s)) →
  TestState.testData s = record :: rest →
  ∃ s',
    Test.run recoveryLimit iteration s = (Normal tt, s') ∧
    TestState.summaryStep s'
      = TestState.summaryStep s ++ passedRows (TestState.steps s) ∧
    TestState.failed s' = false ∧
    TestState.testData s' = rest ∧
    TestState.testDataRecord s' = Some record.
Proof.
  intros Hsteps Hhooks Hdata.
  unfold Test.run. eng_unfold.
  set (s0 := TestState.set_isCancellationRequested false s).
  rewrite runWithCancellation_blocks. unfold try_catch, Test.tryBlock.
  unfold mbind at 1. unfold eng_bind.
  destruct (beforeSteps_closed (setupState s0)) as (evs & Hevs & ->).
  cbv zeta.
  change (TestState.testData (setupState s0)) with (TestState.testData s).
  rewrite Hdata. eng_unfold.
  pose proof Hhooks as (HbA & HaA & HbE & HaE).
  match goal with
  | |- context [Test.runHookFn ?hooks ?sb] =>
      destruct (runHookFn_resolving hooks HbA sb) as [b1 ->]
  end.
  cbn [fst snd]. unfold StepIterator.run. eng_unfold.
  match goal with
  | |- context [StepIterator.run_loop _ _ ?sb] => set (sb' := sb)
  end.
  match goal with
  | |- context [StepIterator.run_loop ?n _ sb'] =>
      destruct (run_loop_passes recoveryLimit (default 0 iteration) n sb')
        as (s1 & Hrun & Hrows & Hcancel); try done;
      pose proof (run_loop_cursor recoveryLimit (default 0 iteration) n sb' s1)
        as Hcursor;
      pose proof (run_loop_feed recoveryLimit (default 0 iteration) n sb')
        as Hfeed;
      pose proof (run_loop_clean recoveryLimit (default 0 iteration) n sb'
                    eq_refl) as Hclean;
      pose proof (run_loop_orderly recoveryLimit (default 0 iteration) n sb')
        as [_ [_ Hscript]]
  end.
  rewrite Hrun in *. cbn [fst snd] in *.
  destruct (Hcursor eq_refl) as [Hcount [Hlen _]].
  destruct Hfeed as [Hdata1 Hrecord1].
  cbn in Hcount, Hlen, Hdata1, Hrecord1, Hscript, Hrows.
  rewrite Nat.sub_0_r in Hcount, Hrows. rewrite take_ge in Hrows by done.
  assert (unreached s1 = []) as Hunreached.
  { unfold unreached. apply drop_ge. lia. }
  assert (TestState.script (cleanedUp s1) = TestState.script s) as Hscript'
    by done.
  rewrite Hscript'.
  destruct (runHookFn_resolving _ HaA (cleanedUp s1)) as [b2 ->].
  eexists. split; [done|]. cbn. rewrite Hunreached. cbn.
  by rewrite app_nil_r.
Qed.

Lemma iteration_without_failures_witness :
  ∃ s',
    Test.run Examples.oneTry (Some 1) Examples.allGood = (Normal tt, s') ∧
    TestState.summaryStep s'
      = TestState.summaryStep Examples.allGood
        ++ passedRows (TestState.steps Examples.allGood) ∧
    TestState.failed s' = false ∧
    TestState.testData s' = [] ∧
    TestState.testDataRecord s' = Some ∅.
Proof.
  apply (iteration_without_failures Examples.oneTry (Some 1) Examples.allGood
           ∅ []).
  - repeat constructor.
  - repeat constructor.
  - reflexivity.
Defined.

(** ** The Runner *)

Section FeedConsumed.

Import TestState Test.

Variable recoveryLimit : Z → nat.

Lemma traversal_feed iteration :
  respects feed_kept (StepIterator.run (executor recoveryLimit iteration)).
Proof.
  unfold StepIterator.run. apply respects_bind; [apply _| |intros ?].
  - apply respects_get. apply _.
  - apply run_loop_feed.
Qed.

(** A [try] block that completes has taken one record from the feed. *)
Lemma tryBlock_consumes iteration (s : TestState.t) :
  match tryBlock recoveryLimit iteration s with
  | (Normal _, s') => ∃ record, testData s = record :: testData s'
  | (Throw _, _) => True
  end.
Proof.
  unfold tryBlock. unfold mbind at 1. unfold eng_bind.
  destruct (beforeSteps_closed s) as (evs & _ & ->). cbv zeta.
  destruct (testData s) as [|record rest]; [done|].
  unfold mbind at 1. unfold eng_bind.
  match goal with
  | |- context [runHookFn ?hooks ?sb] =>
      pose proof (runHookFn_feed hooks sb) as [Hhooks _]
  end.
  destruct (runHookFn _ _) as [[[]|e] s1]; [|done].
  cbn in Hhooks. eng_unfold.
  match goal with
  | |- context [StepIterator.run ?ex ?sb] =>
      pose proof (traversal_feed iteration sb) as [Hrun _]
  end.
  destruct (StepIterator.run _ _) as [[[]|e] s2]; [|done].
  cbn in Hrun. exists record. congruence.
Qed.

Lemma run_consumes iteration (s : TestState.t) :
  fst (run recoveryLimit iteration s) = Normal tt →
  ∃ record, testData s = record :: testData (snd (run recoveryLimit iteration s)).
Proof.
  unfold run. eng_unfold.
  rewrite runWithCancellation_blocks. unfold try_catch.
  pose proof (tryBlock_consumes (default 0 iteration)
                (setupState (set_isCancellationRequested false s))) as Htry.
  destruct (tryBlock _ _ _) as [[[]|e] s1].
  - pose proof (runHookFn_feed (afterAll (hook (script (cleanedUp s1))))
                  (cleanedUp s1)) as [Hhooks _].
    destruct (runHookFn _ _) as [r3 s4]. cbn in *. intros _.
    destruct Htry as [record Hrecord]. exists record. congruence.
  - unfold catchBlock. eng_unfold.
    destruct (runHookFn _ _) as [[[]|e'] s4]; cbn; done.
Qed.

End FeedConsumed.

Lemma iterator_settled {W} (ops : Runner.Ops (W := W)) (n : Z)
      (r : Runner.t) :
  Runner.world (Looper.world (Runner.iterator ops n r))
    = Runner.after (Runner.run ops n (Runner.world r)) ∧
  (Looper.rejected (Runner.iterator ops n r) = None →
   Runner.outcome (Runner.run ops n (Runner.world r)) = Normal tt).
Proof.
  unfold Runner.iterator, Runner.interrupted_in_loop. cbn.
  destruct (Runner.outcome _) as [[]|e];
    destruct (Looper.stopCalled _); cbn; done.
Qed.

Lemma shorter_feed (s s' : TestState.t) (record : JsObject) :
  TestState.testData s = record :: TestState.testData s' →
  (length (TestState.testData s') < length (TestState.testData s))%nat.
Proof. intros ->. cbn. lia. Qed.

(** X14.  With a feed of test data that is not circular the run ends by
    itself: whatever loop count and duration say, and endless as the loop
    may be set up, a Runner whose test runs the engine starts at most one
    iteration more than the feed has records.  Every iteration that returns
    has taken a record, and the one that finds the feed empty throws, which
    ends the loop. *)
Theorem finite_feed_ends_the_run (recoveryLimit : Z → nat)
        (ops : Runner.Ops (W := TestState.t)) (fuel : nat) (l : Looper.t)
        (r : Runner.t) :
  runs_the_engine recoveryLimit ops →
  (length (TestState.testData (Runner.world r)) < fuel)%nat →
  match Looper.run fuel (Runner.iterator ops) l r with
  | Looper.Running _ _ _ => False
  | Looper.Returns _ _ _ calls | Looper.Rejects _ _ _ calls =>
      (length calls ≤ length (TestState.testData (Runner.world r)) + 1)%nat
  end.
Proof.
  intros Hops Hfuel. unfold Looper.run.
  apply (run_loop_measure (Runner.iterator ops)
           (λ r, length (TestState.testData (Runner.world r)))); [|done].
  intros n r0 Hnone.
  destruct (iterator_settled ops n r0) as [Hworld Hout].
  specialize (Hout Hnone).
  destruct (Hops n (Runner.world r0)) as [Hfst Hsnd].
  rewrite Hfst in Hout.
  destruct (run_consumes recoveryLimit (Some n) (Runner.world r0) Hout)
    as [record Hrecord].
  apply (shorter_feed _ _ record). rewrite Hworld, Hsnd. exact Hrecord.
Qed.

Lemma finite_feed_ends_the_run_witness :
  match Looper.run 2 (Runner.iterator Examples.engineOps)
          (Looper.new {| Looper.duration := 0; Looper.loopCount_setting := 0 |}
                      true)
          {| Runner.running := true; Runner.looper := None;
             Runner.entries := []; Runner.world := Examples.allGood |} with
  | Looper.Running _ _ _ => False
  | Looper.Returns _ _ _ calls | Looper.Rejects _ _ _ calls =>
      (length calls ≤ length (TestState.testData Examples.allGood) + 1)%nat
  end.
Proof.
  apply (finite_feed_ends_the_run Examples.oneTry Examples.engineOps 2
           (Looper.new {| Looper.duration := 0; Looper.loopCount_setting := 0 |}
                       true)
           {| Runner.running := true; Runner.looper := None;
              Runner.entries := []; Runner.world := Examples.allGood |}).
  - intros n s. split; reflexivity.
  - vm_compute. lia.
Defined.

Section RunnerFacts.

Context {W : Type}.

Variable ops : Runner.Ops (W := W).

Import Runner.

Definition startedOf (e : Entry) : option Z :=
  match e with StartingIteration n => Some n | _ => None end.

Lemma interrupted_entries (i : Looper.Interrupts) (r : t (W := W)) :
  entries (interrupted i r) = entries r ∧ world (interrupted i r) = world r.
Proof.
  unfold interrupted, stop, set_looper.
  by destruct (Looper.stopCalled i), (Looper.timerFired i).
Qed.

Lemma interrupted_stop (i : Looper.Interrupts) (r : t (W := W)) :
  running (interrupted i r) = running r && negb (Looper.stopCalled i).
Proof.
  unfold interrupted, stop, set_looper.
  destruct (Looper.stopCalled i), (Looper.timerFired i); cbn;
    by rewrite ?andb_true_r, ?andb_false_r.
Qed.

(** What one iteration adds to the log. *)
Lemma iterator_entries (n : Z) (r : t) :
  entries (Looper.world (iterator ops n r))
    = entries r
      ++ [StartingIteration n;
          match Looper.rejected (iterator ops n r) with
          | Some err => ErrorInRunnerLoop n err
          | None => IterationCompleted
          end].
Proof.
  unfold iterator, interrupted_in_loop.
  destruct (outcome (run ops n _)) as [[]|err];
    destruct (Looper.stopCalled _); cbn; by rewrite <- app_assoc.
Qed.

(** The log of a loop: the iterations are announced one by one, an error is
    that of the iteration the loop ended with. *)
Lemma run_loop_entries (fuel : nat) :
  ∀ (l : Looper.t) (r : t) (calls : list Z),
    ∃ new l' r',
      match Looper.run_loop fuel (iterator ops) l r calls with
      | Looper.Returns _ l1 r1 _ => l1 = l' ∧ r1 = r' ∧
          ∀ n err, ErrorInRunnerLoop n err ∉ new
      | Looper.Rejects _ l1 r1 _ => l1 = l' ∧ r1 = r'
      | Looper.Running l1 r1 _ => l1 = l' ∧ r1 = r' ∧
          ∀ n err, ErrorInRunnerLoop n err ∉ new
      end ∧
      entries r' = entries r ++ new ∧
      omap startedOf new
        = (λ j : nat, Looper.iterations l + Z.of_nat j)
            <$> seq 1 (Z.to_nat (Looper.iterations l' - Looper.iterations l)) ∧
      Looper.iterations l ≤ Looper.iterations l' ∧
      (∀ n, TestCompleted n ∉ new) ∧ (TestCancel ∉ new) ∧
      (∀ n err, ErrorInRunnerLoop n err ∈ new → n = Looper.iterations l').
Proof.
  induction fuel as [|fuel IH]; intros l r calls; cbn [Looper.run_loop];
    destruct (Looper.continueLoop l); cbv zeta.
  - exists [], l, r. rewrite Z.sub_diag, app_nil_r. cbn.
    repeat split;
      first [ done | lia | by intros ?? ?%elem_of_nil
            | by intros ? ?%elem_of_nil | by intros ?%elem_of_nil ].
  - exists [], (Looper.finish l), r. rewrite Z.sub_diag, app_nil_r. cbn.
    repeat split;
      first [ done | lia | by intros ?? ?%elem_of_nil
            | by intros ? ?%elem_of_nil | by intros ?%elem_of_nil ].
  - change (Looper.iterations (Looper.incr l)) with (Looper.iterations l + 1).
    pose proof (iterator_entries (Looper.iterations l + 1) r) as Hentries.
    set (a := iterator ops (Looper.iterations l + 1) r) in *.
    destruct (interrupt_iterations (Looper.interrupts a) (Looper.incr l))
      as [Hi _].
    change (Looper.iterations (Looper.incr l))
      with (Looper.iterations l + 1) in Hi.
    destruct (Looper.rejected a) as [err|].
    + eexists _, _, _. split; [done|]. split; [exact Hentries|].
      rewrite Hi. replace (Looper.iterations l + 1 - Looper.iterations l)
        with 1 by lia.
      cbn. split; [done|]. split; [lia|].
      split; [|split].
      * intros n. rewrite !not_elem_of_cons. repeat split; try done.
        apply not_elem_of_nil.
      * rewrite !not_elem_of_cons. repeat split; try done.
        apply not_elem_of_nil.
      * intros n e. rewrite !elem_of_cons, elem_of_nil.
        intros [?|[[= -> _]|[]]]; done.
    + destruct (IH (Looper.interrupt (Looper.interrupts a) (Looper.incr l))
                  (Looper.world a) (calls ++ [Looper.iterations l + 1]))
        as (new & l' & r' & Hres & Hnew & Hstarted & Hle & Hc & Hx & He).
      rewrite Hi in Hstarted, Hle.
      exists ([StartingIteration (Looper.iterations l + 1); IterationCompleted]
              ++ new), l', r'.
      split.
      { destruct (Looper.run_loop _ _ _ _ _) as [k l1 r1 c1|e1 l1 r1 c1|l1 r1 c1];
          try done;
          destruct Hres as (? & ? & Herr); repeat split; try done;
          intros m e; rewrite elem_of_app, !elem_of_cons, elem_of_nil;
          intros [[?|[?|[]]]|?]; try done; by eapply Herr. }
      split; [by rewrite Hnew, Hentries, <- app_assoc|].
      split.
      { rewrite omap_app, Hstarted. cbn.
        replace (Z.to_nat (Looper.iterations l' - Looper.iterations l))
          with (S (Z.to_nat (Looper.iterations l'
                             - (Looper.iterations l + 1)))) by lia.
        cbn. f_equal.
        rewrite <- !seq_shift, !map_map. apply map_ext. intros j. lia. }
      split; [lia|]. split; [|split].
      * intros n. rewrite elem_of_app, !elem_of_cons, elem_of_nil.
        intros [[?|[?|[]]]|?]; try done. by eapply Hc.
      * rewrite elem_of_app, !elem_of_cons, elem_of_nil.
        intros [[?|[?|[]]]|?]; done.
      * intros n e. rewrite elem_of_app, !elem_of_cons, elem_of_nil.
        intros [[?|[?|[]]]|?]; try done. by eapply He.
  - exists [], (Looper.finish l), r. rewrite Z.sub_diag, app_nil_r. cbn.
    repeat split;
      first [ done | lia | by intros ?? ?%elem_of_nil
            | by intros ? ?%elem_of_nil | by intros ?%elem_of_nil ].
Qed.

Lemma plain_entries (pre : list Entry) :
  Forall plainEntry pre →
  omap startedOf pre = [] ∧
  (∀ n, TestCompleted n ∉ pre) ∧ (TestCancel ∉ pre) ∧
  (∀ n err, ErrorInRunnerLoop n err ∉ pre).
Proof.
  induction 1 as [|e pre He _ (IH1 & IH2 & IH3 & IH4)].
  - repeat split; first [ done | by intros ?? ?%elem_of_nil
                        | by intros ? ?%elem_of_nil | by intros ?%elem_of_nil ].
  - repeat split.
    + cbn. rewrite IH1. by destruct e.
    + intros n [<-|?]%elem_of_cons; [done|by eapply IH2].
    + intros [<-|?]%elem_of_cons; [done|by eapply IH3].
    + intros n err [<-|?]%elem_of_cons; [done|by eapply IH4].
Qed.

(** What the [try] block logs before it awaits [beforeRun]. *)
Lemma preamble_entries (settings : Settings) (r : t (W := W)) :
  let r1 := if truthy (name settings)
            then log (LoadedTestPlan (name settings) (description settings)) r
            else r in
  let r2 := if 0 <? Looper.duration (looperSettings settings)
            then log (TestTimeout (Looper.duration (looperSettings settings))) r1
            else r1 in
  let r3 := log (SettingsDump settings)
              (log (TestLoopCount
                      (Looper.loopCount_setting (looperSettings settings))) r2) in
  ∃ pre, Forall plainEntry pre ∧ entries r3 = entries r ++ pre ∧
         running r3 = running r ∧ world r3 = world r.
Proof.
  cbv zeta.
  destruct (truthy (name settings)),
    (0 <? Looper.duration (looperSettings settings)); cbn;
    rewrite <- ?app_assoc; cbn; eexists; (split; [|split; [reflexivity|done]]);
    by repeat constructor.
Qed.

(** The log of the [try] block. *)
Lemma tryBlock_entries (fuel : nat) (r : t (W := W)) :
  ∃ (k : nat) (new : list Entry),
    entries (snd (tryBlock ops fuel r)) = entries r ++ new ∧
    omap startedOf new = Z.of_nat <$> seq 1 k ∧
    (TestCancel ∉ new) ∧
    (∀ n, TestCompleted n ∈ new →
          n = Z.of_nat k ∧ fst (tryBlock ops fuel r) = Returned) ∧
    (∀ n err, ErrorInRunnerLoop n err ∈ new →
              n = Z.of_nat k ∧ ∃ e, fst (tryBlock ops fuel r) = Rejected e).
Proof.
  unfold tryBlock.
  destruct (enqueueScript ops (world r)) as [[settings|err] w].
  2: { exists 0%nat, []. cbn. rewrite app_nil_r.
       split_and!; first [ done | by intros ?? ?%elem_of_nil
                         | by intros ? ?%elem_of_nil
                         | by intros ?%elem_of_nil ]. }
  destruct (preamble_entries settings (set_world w r))
    as (pre & Hpre & Hentries & _ & _).
  cbv zeta in Hentries. cbv zeta.
  match type of Hentries with
  | entries ?x = _ => set (rp := x) in *
  end.
  destruct (plain_entries pre Hpre) as (Hp1 & Hp2 & Hp3 & Hp4).
  set (a := beforeRun ops (world rp)).
  destruct (interrupted_entries (interrupts a) (set_world (after a) rp))
    as [Hint _].
  set (r2 := interrupted (interrupts a) (set_world (after a) rp)) in *.
  cbn in Hentries, Hint.
  destruct (outcome a) as [[]|err].
  2: { exists 0%nat, pre. cbn [fst snd]. rewrite Hint, Hentries.
       split_and!; try done.
       - intros n Hn. by eapply Hp2 in Hn.
       - intros n e Hn. by eapply Hp4 in Hn. }
  set (l := Looper.new (looperSettings settings) (running (log (Console "looper") r2))).
  set (r3 := set_looper (Some l) (log (Console "looper") r2)).
  destruct (run_loop_entries fuel l r3 [])
    as (new & l' & r' & Hres & Hnew & Hstarted & Hle & Hc & Hx & He).
  change (Looper.iterations l) with 0 in Hstarted, Hle.
  rewrite Z.sub_0_r in Hstarted.
  assert (omap startedOf new = Z.of_nat <$> seq 1 (Z.to_nat (Looper.iterations l')))
    as Hstarted'.
  { rewrite Hstarted. apply map_ext. intros j. lia. }
  assert (entries r3 = entries r ++ pre ++ [Console "looper"]) as Hr3.
  { unfold r3. cbn. by rewrite Hint, Hentries, <- app_assoc. }
  unfold Looper.run.
  destruct (Looper.run_loop fuel (iterator ops) l r3 [])
    as [n l1 r1 c1|e1 l1 r1 c1|l1 r1 c1].
  - destruct Hres as (-> & -> & Herr).
    exists (Z.to_nat (Looper.iterations l')),
           (pre ++ [Console "looper"] ++ new
            ++ [TestCompleted (Looper.iterations l')]).
    cbn [fst snd]. split.
    { cbn. rewrite Hnew, Hr3, <- !app_assoc. done. }
    split.
    { rewrite !omap_app, Hp1, Hstarted'. cbn. by rewrite app_nil_r. }
    split.
    { rewrite !not_elem_of_app, !not_elem_of_cons.
      split_and!; first [done | apply not_elem_of_nil]. }
    split.
    { intros m. rewrite !elem_of_app, !elem_of_cons, elem_of_nil.
      intros [Hm|[[Hm|[]]|[Hm|[Hm|[]]]]]; try done.
      - by eapply Hp2 in Hm.
      - by eapply Hc in Hm.
      - injection Hm as ->. split; [lia|done]. }
    { intros m e. rewrite !elem_of_app, !elem_of_cons, elem_of_nil.
      intros [Hm|[[Hm|[]]|[Hm|[Hm|[]]]]]; try done.
      - by eapply Hp4 in Hm.
      - by eapply Herr in Hm. }
  - destruct Hres as (-> & ->).
    exists (Z.to_nat (Looper.iterations l')),
           (pre ++ [Console "looper"] ++ new).
    cbn [fst snd]. split.
    { cbn. rewrite Hnew, Hr3, <- !app_assoc. done. }
    split.
    { rewrite !omap_app, Hp1, Hstarted'. done. }
    split.
    { rewrite !not_elem_of_app, !not_elem_of_cons.
      split_and!; first [done | apply not_elem_of_nil]. }
    split.
    { intros m. rewrite !elem_of_app, !elem_of_cons, elem_of_nil.
      intros [Hm|[[Hm|[]]|Hm]]; try done.
      - by eapply Hp2 in Hm.
      - by eapply Hc in Hm. }
    { intros m e. rewrite !elem_of_app, !elem_of_cons, elem_of_nil.
      intros [Hm|[[Hm|[]]|Hm]]; try done.
      - by eapply Hp4 in Hm.
      - apply He in Hm. split; [lia|by eexists]. }
  - destruct Hres as (-> & -> & Herr).
    exists (Z.to_nat (Looper.iterations l')),
           (pre ++ [Console "looper"] ++ new).
    cbn [fst snd]. split.
    { cbn. rewrite Hnew, Hr3, <- !app_assoc. done. }
    split.
    { rewrite !omap_app, Hp1, Hstarted'. done. }
    split.
    { rewrite !not_elem_of_app, !not_elem_of_cons.
      split_and!; first [done | apply not_elem_of_nil]. }
    split.
    { intros m. rewrite !elem_of_app, !elem_of_cons, elem_of_nil.
      intros [Hm|[[Hm|[]]|Hm]]; try done.
      - by eapply Hp2 in Hm.
      - by eapply Hc in Hm. }
    { intros m e. rewrite !elem_of_app, !elem_of_cons, elem_of_nil.
      intros [Hm|[[Hm|[]]|Hm]]; try done.
      - by eapply Hp4 in Hm.
      - by eapply Herr in Hm. }
Qed.

End RunnerFacts.



(** X16.  The log of [runTestScript] tells the iterations as they were: they
    are announced as 1, 2, ..., k without a gap; "Test completed after n
    iterations" is only logged with n = k and only by a call that returns;
    and an "Error in Runner Loop" is only ever logged for iteration k, the
    last one started, so no iteration is started after one that rejected,
    and it is followed by [test.cancel()]. *)
Theorem runTestScript_logs_the_iterations {W : Type}
        (ops : Runner.Ops (W := W)) (fuel : nat) (r : Runner.t) :
  ∃ k : nat,
    started (snd (Runner.runTestScript ops fuel r))
      = started r ++ firstIterations k ∧
    (∀ n, Runner.TestCompleted n
            ∈ newEntries r (snd (Runner.runTestScript ops fuel r)) →
          n = Z.of_nat k ∧
          fst (Runner.runTestScript ops fuel r) = Runner.Returned) ∧
    (∀ n err, Runner.ErrorInRunnerLoop n err
                ∈ newEntries r (snd (Runner.runTestScript ops fuel r)) →
              n = Z.of_nat k ∧
              Runner.TestCancel
                ∈ newEntries r (snd (Runner.runTestScript ops fuel r))).
Proof.
  unfold Runner.runTestScript, newEntries, started, firstIterations.
  destruct (Runner.running r); cbn [negb]; last first.
  { exists 0%nat. cbn. rewrite app_nil_r, drop_ge by done.
    split_and!; first [done | by intros ?? ?%elem_of_nil
                      | by intros ? ?%elem_of_nil]. }
  cbn [Runner.world Runner.log].
  destruct (interrupted_entries
              (Runner.interrupts (Runner.client ops (Runner.world r)))
              (Runner.set_world
                 (Runner.after (Runner.client ops (Runner.world r)))
                 (Runner.log (Runner.Console "running test script") r)))
    as [Hint _].
  cbn in Hint.
  destruct (Runner.outcome (Runner.client ops (Runner.world r)))
    as [[]|err0]; cbn [fst snd].
  2: { exists 0%nat. rewrite Hint, drop_app_length, omap_app. cbn.
       split; [done|]. split.
       - intros n [?|?%elem_of_nil]%elem_of_cons; done.
       - intros n err [?|?%elem_of_nil]%elem_of_cons; done. }
  match goal with
  | |- context [Runner.tryBlock ops fuel ?r1] =>
      destruct (tryBlock_entries ops fuel r1)
        as (k & new & Hentries & Hstarted & Hx & Hc & He);
      destruct (Runner.tryBlock ops fuel r1) as [[|err|] r'] eqn:Htry
  end; cbn [fst snd] in *; exists k.
  - rewrite Hentries, Hint, <- app_assoc, drop_app_length, !omap_app.
    fold (startedOf). rewrite Hstarted. cbn. split; [done|]. split.
    + intros n [?|Hn]%elem_of_cons; [done|]. by apply Hc.
    + intros n err [?|Hn]%elem_of_cons; [done|].
      apply He in Hn as [_ [? ?]]. done.
  - unfold Runner.catchBlock.
    match goal with
    | |- context [Runner.interrupted ?i ?rc] =>
        destruct (interrupted_entries i rc) as [Hcatch _];
        set (r2 := Runner.interrupted i rc) in *
    end.
    assert (∃ x, plainEntry x ∧
                 Runner.entries r2
                 = Runner.entries r ++ [Runner.Console "running test script"]
                   ++ new ++ [x; Runner.Stack err; Runner.TestCancel])
      as (x & Hplain & Hr2).
    { rewrite Hcatch.
      destruct (Runner.isTestScriptError ops err);
        [exists (Runner.ScriptError err) | exists Runner.InternalError];
        (split; [done|]); cbn; by rewrite Hentries, Hint, <- !app_assoc. }
    destruct (Runner.outcome (Runner.cancel ops _)) as [[]|e'];
      cbn [fst snd];
      rewrite Hr2, drop_app_length, !omap_app;
      fold (startedOf); rewrite Hstarted;
      (split; [by destruct x; cbn; rewrite ?app_nil_r|]);
      cbn [app];
      (split;
       [ intros n; rewrite !elem_of_cons, !elem_of_app, !elem_of_cons,
           elem_of_nil;
         intros [?|[Hn|[<-|[?|[?|[]]]]]]; try done;
         by apply Hc in Hn as [_ ?]
       | intros n e; rewrite !elem_of_cons, !elem_of_app, !elem_of_cons,
           elem_of_nil;
         intros [?|[Hn|[<-|[?|[?|[]]]]]]; try done;
         apply He in Hn as [-> _]; auto 10 ]).
  - rewrite Hentries, Hint, <- app_assoc, drop_app_length, !omap_app.
    fold (startedOf). rewrite Hstarted. cbn. split; [done|]. split.
    + intros n [?|Hn]%elem_of_cons; [done|]. by apply Hc in Hn as [_ ?].
    + intros n err [?|Hn]%elem_of_cons; [done|].
      apply He in Hn as [_ [? ?]]. done.
Qed.

Lemma runTestScript_logs_the_iterations_witness :
  ∃ k : nat,
    started (snd (Runner.runTestScript Examples.counter 5 Examples.fresh))
      = started Examples.fresh ++ firstIterations k ∧
    (∀ n, Runner.TestCompleted n
            ∈ newEntries Examples.fresh
                (snd (Runner.runTestScript Examples.counter 5 Examples.fresh)) →
          n = Z.of_nat k ∧
          fst (Runner.runTestScript Examples.counter 5 Examples.fresh)
            = Runner.Returned) ∧
    (∀ n err, Runner.ErrorInRunnerLoop n err
                ∈ newEntries Examples.fresh
                    (snd (Runner.runTestScript Examples.counter 5
                            Examples.fresh)) →
              n = Z.of_nat k ∧
              Runner.TestCancel
                ∈ newEntries Examples.fresh
                    (snd (Runner.runTestScript Examples.counter 5
                            Examples.fresh))).
Proof.
  apply (runTestScript_logs_the_iterations Examples.counter 5 Examples.fresh).
Defined.

(** X17.  [runTestScript] reads the [running] flag twice: on entry, and
    when it makes the Looper.  A [stop()] that comes in between, while the
    client promise or [beforeRun] is awaited, does not keep the script from
    being loaded and [beforeRun] from running, but the Looper starts
    cancelled: no iteration is run, and the call returns after logging
    "Test completed after 0 iterations". *)
Theorem runTestScript_stopped_before_the_loop {W : Type}
        (ops : Runner.Ops (W := W)) (fuel : nat) (r : Runner.t)
        (settings : Runner.Settings) (w1 : W) :
  Runner.running r = true →
  Runner.outcome (Runner.client ops (Runner.world r)) = Normal tt →
  Runner.enqueueScript ops (Runner.after (Runner.client ops (Runner.world r)))
    = (Normal settings, w1) →
  Runner.outcome (Runner.beforeRun ops w1) = Normal tt →
  Looper.stopCalled (Runner.interrupts (Runner.client ops (Runner.world r)))
  || Looper.stopCalled (Runner.interrupts (Runner.beforeRun ops w1)) = true →
  ∃ r',
    Runner.runTestScript ops fuel r = (Runner.Returned, r') ∧
    started r' = started r ∧
    last (Runner.entries r') = Some (Runner.TestCompleted 0) ∧
    Runner.running r' = false ∧
    Runner.world r' = Runner.after (Runner.beforeRun ops w1).
Proof.
  intros Hrunning Hclient Henqueue HbeforeRun Hstop.
  unfold Runner.runTestScript. rewrite Hrunning. cbn [negb].
  cbn [Runner.world Runner.log]. rewrite Hclient.
  set (r0 := Runner.interrupted _ _).
  assert (Runner.entries r0
          = Runner.entries r ++ [Runner.Console "running test script"]
          ∧ Runner.world r0
            = Runner.after (Runner.client ops (Runner.world r))
          ∧ Runner.running r0
            = negb (Looper.stopCalled
                      (Runner.interrupts
                         (Runner.client ops (Runner.world r)))))
    as (He0 & Hw0 & Hr0).
  { subst r0.
    match goal with
    | |- context [Runner.interrupted ?i ?x] =>
        destruct (interrupted_entries i x) as [-> ->];
        rewrite (interrupted_stop i x)
    end. cbn. by rewrite Hrunning. }
  unfold Runner.tryBlock. rewrite Hw0, Henqueue.
  destruct (preamble_entries settings (Runner.set_world w1 r0))
    as (pre & Hpre & Hentries & Hrun & Hworld).
  cbv zeta in Hentries, Hrun, Hworld. cbv zeta.
  match type of Hentries with
  | Runner.entries ?x = _ => set (rp := x) in *
  end.
  change (Runner.world (Runner.set_world w1 r0)) with w1 in Hworld.
  change (Runner.running (Runner.set_world w1 r0))
    with (Runner.running r0) in Hrun.
  change (Runner.entries (Runner.set_world w1 r0))
    with (Runner.entries r0) in Hentries.
  rewrite Hworld, HbeforeRun.
  match goal with
  | |- context [Runner.interrupted ?i ?x] =>
      destruct (interrupted_entries i x) as [He2 Hw2];
      pose proof (interrupted_stop i x) as Hr2;
      set (r2 := Runner.interrupted i x) in *
  end.
  cbn [Runner.set_world Runner.entries Runner.world Runner.running]
    in He2, Hw2, Hr2.
  rewrite Hrun, Hr0 in Hr2.
  assert (Runner.running r2 = false) as Hstopped.
  { rewrite Hr2.
    destruct (Looper.stopCalled
                (Runner.interrupts (Runner.client ops (Runner.world r)))),
      (Looper.stopCalled (Runner.interrupts (Runner.beforeRun ops w1)));
      done. }
  cbn [Runner.running Runner.log]. rewrite Hstopped.
  assert (∀ (it : Looper.Iterator Runner.t) (w : Runner.t (W := W)),
            Looper.run fuel it (Looper.new (Runner.looperSettings settings) false) w
            = Looper.Returns 0
                (Looper.finish
                   (Looper.new (Runner.looperSettings settings) false)) w [])
    as Hloop by (intros; unfold Looper.run; by destruct fuel).
  rewrite Hloop.
  eexists. split; [done|].
  destruct (plain_entries pre Hpre) as (Hp1 & _).
  cbn. rewrite He2, Hentries, He0.
  split_and!; try done.
  - unfold started. cbn. rewrite !omap_app. fold startedOf.
    rewrite Hp1. cbn. by rewrite !app_nil_r.
  - by rewrite last_snoc.
Qed.

Lemma runTestScript_stopped_before_the_loop_witness :
  ∃ r',
    Runner.runTestScript Examples.stoppedEarly 5 Examples.fresh
      = (Runner.Returned, r') ∧
    started r' = started Examples.fresh ∧
    last (Runner.entries r') = Some (Runner.TestCompleted 0) ∧
    Runner.running r' = false ∧
    Runner.world r' = Runner.after (Runner.beforeRun Examples.stoppedEarly 0%nat).
Proof.
  apply (runTestScript_stopped_before_the_loop Examples.stoppedEarly 5
           Examples.fresh Examples.threeLoops 0%nat).
  - reflexivity.
  - reflexivity.
  - reflexivity.
  - reflexivity.
  - reflexivity.
Defined.

(** ** The VerboseReporter *)

Section ReporterFacts.

Context {Cache : Type}.
Variable getLines : Cache → string → Z.
Variable updateMessageInCache : string → string → Cache → Cache.
Variables grey greyBold greenBold redBold red : string → string.
Variable toLocaleString : Z → string.

Import VerboseReporter.

Local Abbreviation reported :=
  (report getLines updateMessageInCache grey greyBold greenBold redBold red
          toLocaleString).

Local Abbreviation lifecycle c :=
  (testLifecycle getLines updateMessageInCache grey greyBold greenBold redBold
     red toLocaleString (stage c) (label c) (subtitle c) (timing c)
     (errorMessage c)).

Lemma report_app (calls1 calls2 : list LifecycleCall) (r : t) :
  reported (calls1 ++ calls2) r = reported calls2 (reported calls1 r).
Proof. apply foldl_app. Qed.

Lemma report_cons (c : LifecycleCall) (calls : list LifecycleCall) (r : t) :
  reported (c :: calls) r = reported calls (lifecycle c r).
Proof. done. Qed.

(** With a worker set the reporter does nothing. *)
Lemma report_worker (calls : list LifecycleCall) (r : t) :
  worker r = true → reported calls r = r.
Proof.
  intros Hworker. induction calls as [|c calls IH]; [done|].
  rewrite report_cons. unfold testLifecycle. by rewrite Hworker.
Qed.

(** No call changes whether a worker is set. *)
Lemma lifecycle_worker (c : LifecycleCall) (r : t) :
  worker (lifecycle c r) = worker r.
Proof.
  unfold testLifecycle. destruct (worker r) eqn:Hw; [done|].
  by destruct (stage c).
Qed.

(** Reported actions leave the indentation alone. *)
Lemma report_actions (actions : list LifecycleCall) :
  Forall (λ c, isAction (stage c) = true) actions →
  ∀ r, indent (console (reported actions r)) = indent (console r) ∧
       worker (reported actions r) = worker r.
Proof.
  induction 1 as [|c actions Hc _ IH]; intros r; [done|].
  rewrite report_cons. destruct (IH (lifecycle c r)) as [-> ->].
  rewrite lifecycle_worker. split; [|done].
  unfold testLifecycle. destruct (worker r); [done|].
  by destruct (stage c).
Qed.

Lemma lifecycle_indent (c : LifecycleCall) (r : t) :
  worker r = false →
  indent (console (lifecycle c r))
    = groupDepth (stage c) (indent (console r)).
Proof.
  intros Hworker. unfold testLifecycle. rewrite Hworker.
  by destruct (stage c).
Qed.

Lemma report_episode (calls : list LifecycleCall) (r : t) :
  episode calls →
  indent (console (reported calls r)) = indent (console r) ∧
  worker (reported calls r) = worker r.
Proof.
  destruct (worker r) eqn:Hworker.
  { intros _. by rewrite report_worker. }
  intros [opening closing actions Hopen Hactions Hclose
         |opening outcome closing actions Hopen Hactions Hout Hclose
         |c Hc].
  - rewrite report_cons, report_app.
    set (r1 := lifecycle opening r).
    assert (worker r1 = false) as Hw1
      by (subst r1; by rewrite lifecycle_worker).
    destruct (report_actions actions Hactions r1) as [Hi2 Hw2].
    set (r2 := reported actions r1) in *.
    rewrite Hw1 in Hw2.
    rewrite report_cons. cbn [report foldl].
    rewrite lifecycle_worker, Hw2.
    rewrite lifecycle_indent, Hi2 by done. subst r1.
    rewrite lifecycle_indent by done.
    unfold groupDepth. rewrite Hopen.
    destruct (opensHook (stage closing)) eqn:Hoc;
      [by destruct (stage closing)|].
    by rewrite Hclose.
  - rewrite report_cons, report_app.
    set (r1 := lifecycle opening r).
    assert (worker r1 = false) as Hw1
      by (subst r1; by rewrite lifecycle_worker).
    destruct (report_actions actions Hactions r1) as [Hi2 Hw2].
    set (r2 := reported actions r1) in *.
    rewrite Hw1 in Hw2.
    rewrite !report_cons. cbn [report foldl].
    rewrite !lifecycle_worker, Hw2.
    rewrite !lifecycle_indent, Hi2 by (by rewrite ?lifecycle_worker).
    subst r1. rewrite lifecycle_indent by done.
    unfold groupDepth. rewrite Hopen, Hclose. cbn.
    by destruct (stage outcome).
  - rewrite report_cons. cbn [report foldl].
    rewrite lifecycle_worker. split; [|done].
    unfold testLifecycle. rewrite Hworker.
    by destruct (stage c).
Qed.

End ReporterFacts.

(** X18.  The VerboseReporter leaves the console as deep in groups as it
    found it: after the calls for any number of hooks and steps, each opened
    and closed in turn with its actions and outcome in between, the group
    indentation is what it was before, whatever was printed.  With a worker
    set, the reporter prints nothing at all. *)
Theorem VerboseReporter_keeps_groups_balanced {Cache : Type}
        (getLines : Cache → string → Z)
        (updateMessageInCache : string → string → Cache → Cache)
        (grey greyBold greenBold redBold red : string → string)
        (toLocaleString : Z → string)
        (episodes : list (list LifecycleCall))
        (r : VerboseReporter.t (Cache := Cache)) :
  (Forall episode episodes →
   VerboseReporter.indent
     (VerboseReporter.console
        (report getLines updateMessageInCache grey greyBold greenBold redBold
                red toLocaleString (concat episodes) r))
   = VerboseReporter.indent (VerboseReporter.console r)) ∧
  (∀ calls,
     VerboseReporter.worker r = true →
     report getLines updateMessageInCache grey greyBold greenBold redBold
            red toLocaleString calls r = r).
Proof.
  split.
  - intros Hall. revert r.
    induction Hall as [|calls episodes Hcalls _ IH]; intros r; [done|].
    cbn [concat]. rewrite report_app, IH.
    by apply report_episode.
  - intros calls Hworker. by apply report_worker.
Qed.

Lemma VerboseReporter_keeps_groups_balanced_witness :
  VerboseReporter.indent
    (VerboseReporter.console
       (report (λ _ _, 1) (λ _ _ c, c) id id id id id (λ _, "12")
               (concat [ReporterExamples.passingStep; ReporterExamples.skippedStep])
               ReporterExamples.terminal))
  = VerboseReporter.indent (VerboseReporter.console ReporterExamples.terminal).
Proof.
  apply (proj1 (VerboseReporter_keeps_groups_balanced
                  (λ _ _, 1) (λ _ _ c, c) id id id id id (λ _, "12")
                  [ReporterExamples.passingStep; ReporterExamples.skippedStep]
                  ReporterExamples.terminal)).
  constructor; [|constructor; [|constructor]].
  - apply (step_episode
             (ReporterExamples.call VerboseReporter.BeforeStep "Login")
             (ReporterExamples.call VerboseReporter.StepSucceeded "Login")
             (ReporterExamples.call VerboseReporter.AfterStep "Login")
             [ReporterExamples.call VerboseReporter.AfterStepAction "visit"]).
    + reflexivity.
    + constructor; [reflexivity | constructor].
    + reflexivity.
    + reflexivity.
  - apply bypass_episode. reflexivity.
Defined.
